(** * WhatsappWebServer: the session broker of [server.js]

    A shallow embedding of the Express server in [src/server.js]: the
    process-wide [sessions] object, the callbacks that [createClient]
    registers on a backend client, the timers of the Node event loop and the
    six request handlers.  Every callback of the source is one function from
    the world before it runs to the outcome after it returns or throws; the
    event loop is the environment that picks the next callback. *)

From Stdlib Require Import ZArith Ascii String List DecimalString.
From stdpp Require Import base option gmap sets list strings.

Open Scope Z_scope.

(** ** JSON values of a request body *)

(** A field of [req.body] as [express.json()] delivers it.  [JUndefined] is
    an absent field; [JNum] carries the integers a double holds exactly, up
    to 2^53 in magnitude (a fractional number is truthy and has no [replace]
    method, like a non-zero integer).  Of an array and of an object the
    server can observe only the conversion to a string: an array is taken
    with what joining its elements gives ([None] when converting an element
    throws), an object with whether it has a member named [toString], in
    which case the conversion throws, since JSON carries no functions. *)
Inductive JValue :=
| JUndefined
| JNull
| JBool (b : bool)
| JNum (n : Z)
| JStr (s : string)
| JArr (joined : option string)
| JObj (own_toString : bool).

(** JavaScript truthiness, as [!x] and [x || y] compute it. *)
Definition truthy (v : JValue) : bool :=
  match v with
  | JUndefined | JNull => false
  | JBool b => b
  | JNum n => negb (n =? 0)
  | JStr s => negb (String.eqb s "")
  | JArr _ | JObj _ => true
  end.

(** [a || b] *)
Definition js_or (a b : JValue) : JValue := if truthy a then a else b.

Definition decimal (n : Z) : string := NilZero.string_of_int (Z.to_int n).

(** The conversion of a value to a string: the property key that
    [sessions[userId]] reads and writes, and the text a regular expression
    tests.  [None]: the conversion throws. *)
Definition key_of (v : JValue) : option string :=
  match v with
  | JUndefined => Some "undefined"
  | JNull => Some "null"
  | JBool b => Some (if b then "true" else "false")
  | JNum n => Some (decimal n)
  | JStr s => Some s
  | JArr joined => joined
  | JObj own_toString =>
      if own_toString then None else Some "[object Object]"
  end.

Definition to_primitive_error : string :=
  "Cannot convert object to primitive value".

(** ** The client id that [LocalAuth] accepts

    [createClient] passes [userId] as [clientId] to [new LocalAuth], whose
    constructor throws unless a truthy [clientId] matches [/^[-_\w]+$/i]:
    letters, digits, underscores and hyphens, at least one. *)
Definition is_word (a : ascii) : bool :=
  let n := nat_of_ascii a in
  ((48 <=? n)%nat && (n <=? 57)%nat) || ((65 <=? n)%nat && (n <=? 90)%nat)
  || ((97 <=? n)%nat && (n <=? 122)%nat) || (n =? 95)%nat || (n =? 45)%nat.

Fixpoint all_word (s : string) : bool :=
  match s with
  | EmptyString => true
  | String a r => is_word a && all_word r
  end.

Definition valid_client_id (s : string) : bool :=
  negb (String.eqb s "") && all_word s.

Definition invalid_client_id : string :=
  "Invalid clientId. Only alphanumeric characters, underscores and hyphens are allowed.".

(** ** Phone numbers: [number.replace(/\D/g, '')] *)

Definition is_digit (a : ascii) : bool :=
  let n := nat_of_ascii a in (48 <=? n)%nat && (n <=? 57)%nat.

Fixpoint strip_non_digits (s : string) : string :=
  match s with
  | EmptyString => EmptyString
  | String a r =>
      if is_digit a then String a (strip_non_digits r) else strip_non_digits r
  end.

Definition chat_suffix : string := "@c.us".

(** ** Sessions, timers, effects *)

Definition ClientId := nat.
Definition TimerId := nat.
Definition ReqId := nat.

(** The object stored at [sessions[userId]]. *)
Record Session := mkSession {
  client : ClientId;
  ready : bool;
  lastQR : option string;
  initializing : bool;
  timeout : option TimerId
}.

(** [new MessageMedia(mimetype, data, filename)] *)
Record Media := mkMedia {
  mimetype : JValue;
  data : JValue;
  filename : JValue
}.

Inductive Content :=
| CText (m : JValue)
| CMedia (m : Media).

(** The body of a response: [{error}], [{status}], [{status, qr}], or a
    page of Express itself: the one with which it answers (status 500) when
    a synchronous handler throws, and the one with which it answers (status
    404) a request that no route matches. *)
Inductive Body :=
| BError (msg : string)
| BStatus (s : string)
| BStatusQr (s : string) (url : string)
| BUncaught (msg : string)
| BNotFound.

(** What the process does to its collaborators, in program order. *)
Inductive Effect :=
| EConstruct (c : ClientId) (u : string)
| EInitialize (c : ClientId)
| EDestroy (c : ClientId)
| ERmAuth (u : string)
| EFetch (rid : ReqId) (url : JValue)
| ESend (rid : ReqId) (c : ClientId) (chatId : string) (content : Content)
        (caption : option JValue)
| EQrRender (rid : ReqId) (qr : string)
| ERespond (rid : ReqId) (code : Z) (body : Body).

(** The four send endpoints and the body fields each destructures. *)
Inductive SendReq :=
| SendMessage (number message : JValue)
| SendPdfUrl (number message pdfUrl : JValue)
| SendPdfBase64 (number message pdfBase64 fname : JValue)
| SendImageBase64 (number message imageBase64 fname mimeType : JValue).

(** [userId] is a field of the JSON body for the POST endpoints and a
    segment of the URL, a string, for [/check-login/:userId]. *)
Inductive Request :=
| StartSession (userId : JValue)
| CheckLogin (userId : string)
| Send (userId : JValue) (req : SendReq).

(** The closure of each pending timer. *)
Inductive TimerKind :=
| TIdle (u : string) (c : ClientId)
| TGrace (rid : ReqId) (u : string)
| TPoll (rid : ReqId) (u : string)
| TWaitTimeout (rid : ReqId) (poll : TimerId).

Record Timer := mkTimer { due : Z; kind : TimerKind }.

(** Where a suspended handler is waiting. *)
Inductive Pending :=
| PWaitReady (u : string) (req : SendReq)
| PFetch (c : ClientId) (chatId : string) (message : JValue)
| PSendText (c : ClientId) (chatId : string) (media : Media)
| PSendLast (okStatus : string)
| PQr.

(** The file system as [fs.existsSync] and [fs.rmSync] see it: POSIX paths,
    a tree without links, each existing file or directory under its
    normalised absolute path, the list of its segments from the root.
    [dirname] is [__dirname], the directory of [server.js]. *)
Definition Path := list string.

Inductive Node := File | Dir.

Record Disk := mkDisk {
  dirname : Path;
  files : gmap Path Node
}.

(** [owner] maps each client to the [userId] its callbacks close over. *)
Record World := mkWorld {
  sessions : gmap string Session;
  disk : Disk;
  owner : gmap nat JValue;
  nextClient : ClientId;
  timers : gmap nat Timer;
  nextTimer : TimerId;
  pending : gmap nat Pending;
  nextReq : ReqId;
  now : Z;
  log : list Effect
}.

(** The directory of the script exists, and so do the directories that
    lead to it. *)
Definition ancestors (d : Path) : list Path :=
  (λ n, take n d) <$> seq 0 (S (length d)).

Definition boot_files (d : Path) : gmap Path Node :=
  list_to_map ((λ p, (p, Dir)) <$> ancestors d).

(** The server as it starts in directory [d]. *)
Definition boot (d : Path) : World :=
  mkWorld ∅ (mkDisk d (boot_files d)) ∅ 0%nat ∅ 0%nat ∅ 0%nat 0 [].

Definition initial : World := boot ["srv"; "app"].

Definition set_sessions (f : gmap string Session → gmap string Session)
    (w : World) : World :=
  mkWorld (f (sessions w)) (disk w) (owner w) (nextClient w) (timers w)
          (nextTimer w) (pending w) (nextReq w) (now w) (log w).

Definition set_files (f : gmap Path Node → gmap Path Node) (w : World)
    : World :=
  mkWorld (sessions w) (mkDisk (dirname (disk w)) (f (files (disk w))))
          (owner w) (nextClient w) (timers w)
          (nextTimer w) (pending w) (nextReq w) (now w) (log w).

Definition set_timers (f : gmap nat Timer → gmap nat Timer) (w : World)
    : World :=
  mkWorld (sessions w) (disk w) (owner w) (nextClient w) (f (timers w))
          (nextTimer w) (pending w) (nextReq w) (now w) (log w).

Definition set_pending (f : gmap nat Pending → gmap nat Pending) (w : World)
    : World :=
  mkWorld (sessions w) (disk w) (owner w) (nextClient w) (timers w)
          (nextTimer w) (f (pending w)) (nextReq w) (now w) (log w).

Definition set_now (t : Z) (w : World) : World :=
  mkWorld (sessions w) (disk w) (owner w) (nextClient w) (timers w)
          (nextTimer w) (pending w) (nextReq w) t (log w).

Definition emit (e : Effect) (w : World) : World :=
  mkWorld (sessions w) (disk w) (owner w) (nextClient w) (timers w)
          (nextTimer w) (pending w) (nextReq w) (now w) (log w ++ [e]).

(** [new Client(...)]: a fresh handle whose callbacks close over [userId];
    [key] is [userId] as a string. *)
Definition new_client (userId : JValue) (key : string) (w : World) : World :=
  emit (EConstruct (nextClient w) key)
    (mkWorld (sessions w) (disk w) (<[nextClient w := userId]> (owner w))
             (S (nextClient w)) (timers w) (nextTimer w) (pending w)
             (nextReq w) (now w) (log w)).

(** [setTimeout] and [setInterval]: a fresh timer, due [delay] ms from now. *)
Definition set_timer (delay : Z) (k : TimerKind) (w : World) : World :=
  mkWorld (sessions w) (disk w) (owner w) (nextClient w)
          (<[nextTimer w := mkTimer (now w + delay) k]> (timers w))
          (S (nextTimer w)) (pending w) (nextReq w) (now w) (log w).

(** [clearTimeout] and [clearInterval] *)
Definition clear_timer (t : TimerId) (w : World) : World :=
  set_timers (delete t) w.

(** [res.status(code).send(body)], which ends the request. *)
Definition respond (rid : ReqId) (code : Z) (b : Body) (w : World) : World :=
  emit (ERespond rid code b) (set_pending (delete rid) w).

(** A callback returns, throws out of the callback, or (for the event loop)
    was not enabled in this world. *)
Inductive Outcome :=
| Done (w : World)
| Thrown (msg : string) (w : World)
| Disabled.

Definition type_error_undefined : string :=
  "TypeError: Cannot read properties of undefined".

(** ** [createClient] *)

Definition idle_window : Z := 2 * 60 * 1000.

(** The body of [createClient] once [new LocalAuth] has returned: the
    client, the registry entry under [key], the idle timer, [initialize]. *)
Definition install (userId : JValue) (key : string) (w : World) : World :=
  let c := nextClient w in
  let t := nextTimer w in
  let w1 := new_client userId key w in
  let w2 := set_sessions
              (<[key := mkSession c false None true None]>) w1 in
  let w3 := set_timer idle_window (TIdle key c) w2 in
  let w4 := set_sessions
              (<[key := mkSession c false None true (Some t)]>) w3 in
  emit (EInitialize c) w4.

(** [createClient(userId)]: [inl] is the message of the exception that the
    constructor of [LocalAuth] throws, before anything is registered. *)
Definition createClient (userId : JValue) (w : World) : string + World :=
  match key_of userId with
  | None => inl to_primitive_error
  | Some key =>
      if truthy userId && negb (valid_client_id key)
      then inl invalid_client_id
      else inr (install userId key w)
  end.

(** ** Paths: [path.join(__dirname, '.wwebjs_auth', userId)] *)

Definition slash : ascii := "/".

(** [s] cut at every slash. *)
Fixpoint segments (s : string) : list string :=
  match s with
  | EmptyString => [EmptyString]
  | String a r =>
      if Ascii.eqb a slash then EmptyString :: segments r
      else match segments r with
           | seg :: rest => String a seg :: rest
           | [] => [String a EmptyString]
           end
  end.

(** One segment more on a path kept innermost first: empty segments and
    [.] are dropped, [..] steps out of the last directory and stays at the
    root. *)
Definition walk (stack : list string) (seg : string) : list string :=
  if String.eqb seg "" || String.eqb seg "." then stack
  else if String.eqb seg ".." then tail stack
  else seg :: stack.

Definition normalize (base : Path) (segs : list string) : Path :=
  rev (fold_left walk segs (rev base)).

Definition auth_root (w : World) : Path :=
  dirname (disk w) ++ [".wwebjs_auth"].

Definition auth_path (userId : string) (w : World) : Path :=
  normalize (auth_root w) (segments userId).

Fixpoint ends_with_slash (s : string) : bool :=
  match s with
  | EmptyString => false
  | String a EmptyString => Ascii.eqb a slash
  | String _ r => ends_with_slash r
  end.

Fixpoint has_nul (s : string) : bool :=
  match s with
  | EmptyString => false
  | String a r => Ascii.eqb a zero || has_nul r
  end.

(** [fs.existsSync(authPath)]: a path with a NUL byte names nothing, and a
    path that ends in a slash names directories only. *)
Definition auth_exists (userId : string) (w : World) : bool :=
  negb (has_nul userId) &&
  match files (disk w) !! auth_path userId w with
  | Some Dir => true
  | Some File => negb (ends_with_slash userId)
  | None => false
  end.

Definition quote : string :=
  String (Ascii false true false false false true false false) EmptyString.

(** The message of the [TypeError] that [path.join] throws when [userId] is
    not a string. *)
Definition path_type_error (v : JValue) : string :=
  ("The " ++ quote ++ "path" ++ quote
   ++ " argument must be of type string. Received "
   ++ match v with
      | JUndefined => "undefined"
      | JNull => "null"
      | JBool b => "type boolean (" ++ (if b then "true" else "false") ++ ")"
      | JNum n => "type number (" ++ decimal n ++ ")"
      | JStr s => "type string"
      | JArr _ => "an instance of Array"
      | JObj _ => "an instance of Object"
      end)%string.

(** [sessionExists(userId)]: [inl] is the message of the exception. *)
Definition sessionExists (userId : JValue) (w : World) : string + bool :=
  match userId with
  | JStr u => inr (auth_exists u w)
  | _ => inl (path_type_error userId)
  end.

(** [fs.rmSync(p, { recursive: true, force: true })] *)
Definition rm_rf (p : Path) (w : World) : World :=
  set_files (filter (λ kv, ¬ (p `prefix_of` kv.1))) w.

(** ** The callbacks registered on a client *)

Inductive BackendEvent :=
| EvQr (qr : string)
| EvReady
| EvAuthenticated
| EvAuthFailure (msg : string)
| EvDisconnected (reason : string).

Definition on_qr (userId : string) (qr : string) (w : World) : Outcome :=
  match sessions w !! userId with
  | None => Thrown type_error_undefined w
  | Some s =>
      Done (set_sessions
              (<[userId := mkSession (client s) false (Some qr)
                             (initializing s) (timeout s)]>) w)
  end.

Definition on_ready (userId : string) (w : World) : Outcome :=
  match sessions w !! userId with
  | None => Thrown type_error_undefined w
  | Some s =>
      match timeout s with
      | Some t =>
          Done (set_sessions
                  (<[userId := mkSession (client s) true None false None]>)
                  (clear_timer t w))
      | None =>
          Done (set_sessions
                  (<[userId := mkSession (client s) true None false None]>) w)
      end
  end.

Definition on_auth_failure (userId : string) (w : World) : Outcome :=
  match sessions w !! userId with
  | None => Thrown type_error_undefined w
  | Some s =>
      Done (set_sessions
              (<[userId := mkSession (client s) false (lastQR s)
                             (initializing s) (timeout s)]>) w)
  end.

(** The steps of the ['disconnected'] callback, in source order. *)
Definition disc_flags (userId : string) (s : Session) (w : World) : World :=
  set_sessions
    (<[userId := mkSession (client s) false (lastQR s) false (timeout s)]>) w.

Definition disc_destroy (c : ClientId) (w : World) : World :=
  emit (EDestroy c) w.

Definition disc_rm_auth (userId : string) (w : World) : World :=
  if auth_exists userId w
  then emit (ERmAuth userId) (rm_rf (auth_path userId w) w)
  else w.

Definition disc_delete (userId : string) (w : World) : World :=
  set_sessions (delete userId) w.

(** [key] is [userId] as a string.  [path.join] throws when [userId] is not
    a string, after [client.destroy()]; [createClient] throws when
    [LocalAuth] refuses the id, after the entry was deleted. *)
Definition on_disconnected (userId : JValue) (key : string) (c : ClientId)
    (w : World) : Outcome :=
  match sessions w !! key with
  | None => Thrown type_error_undefined w
  | Some s =>
      let w1 := disc_destroy c (disc_flags key s w) in
      match userId with
      | JStr u =>
          let w3 := disc_delete u (disc_rm_auth u w1) in
          match createClient userId w3 with
          | inr w4 => Done w4
          | inl msg => Thrown msg w3
          end
      | _ => Thrown (path_type_error userId) w1
      end
  end.

(** Every callback starts by writing [userId] into a log line, which
    converts it to a string. *)
Definition on_backend (userId : JValue) (c : ClientId) (ev : BackendEvent)
    (w : World) : Outcome :=
  match key_of userId with
  | None => Thrown to_primitive_error w
  | Some key =>
      match ev with
      | EvQr qr => on_qr key qr w
      | EvReady => on_ready key w
      | EvAuthenticated => Done w
      | EvAuthFailure _ => on_auth_failure key w
      | EvDisconnected _ => on_disconnected userId key c w
      end
  end.

(** ** Reading the registry

    [sessions] is a plain object literal, so [sessions[userId]] also finds
    the members every object inherits.  For such a key [!sessions[userId]]
    is false and no client is ever created (see [wf] and [reachable_wf]
    below): the callbacks above, which only a created client runs, therefore
    meet own entries only. *)
Definition proto_keys : list string :=
  ["__proto__"; "constructor"; "hasOwnProperty"; "isPrototypeOf";
   "propertyIsEnumerable"; "toLocaleString"; "toString"; "valueOf";
   "__defineGetter__"; "__defineSetter__"; "__lookupGetter__";
   "__lookupSetter__"].

Definition proto_key (u : string) : bool := existsb (String.eqb u) proto_keys.

(** Truthiness of [sessions[userId]]. *)
Definition has_entry (userId : string) (w : World) : bool :=
  match sessions w !! userId with
  | Some _ => true
  | None => proto_key userId
  end.

(** ** The timer callbacks *)

(** The idle timer that [createClient] sets; [c] is the client of that call. *)
Definition fire_idle (userId : string) (c : ClientId) (w : World) : Outcome :=
  match sessions w !! userId with
  | None => Thrown type_error_undefined w
  | Some s =>
      if ready s then Done w
      else Done (set_sessions (delete userId) (emit (EDestroy c) w))
  end.

(** The callback of [/start-session], 2 seconds after the request. *)
Definition fire_grace (rid : ReqId) (userId : string) (w : World) : Outcome :=
  match sessions w !! userId with
  | Some s =>
      if ready s then Done (respond rid 200 (BStatus "ready") w)
      else
        match lastQR s with
        | Some qr =>
            if String.eqb qr ""
            then Done (respond rid 200 (BStatus "pending") w)
            else Done (set_pending (<[rid := PQr]>) (emit (EQrRender rid qr) w))
        | None => Done (respond rid 200 (BStatus "pending") w)
        end
  | None =>
      if proto_key userId
      then Done (respond rid 200 (BStatus "pending") w)
      else Thrown type_error_undefined w
  end.

(** ** The send handlers after [ensureClientReady] has produced a client *)

Definition number_of (req : SendReq) : JValue :=
  match req with
  | SendMessage n _ | SendPdfUrl n _ _ | SendPdfBase64 n _ _ _
  | SendImageBase64 n _ _ _ _ => n
  end.

Definition message_of (req : SendReq) : JValue :=
  match req with
  | SendMessage _ m | SendPdfUrl _ m _ | SendPdfBase64 _ m _ _
  | SendImageBase64 _ m _ _ _ => m
  end.

Definition invalid_phone : Body := BError "Invalid phone number".

(** From [const cleanNumber = ...] to the first [await] after it.  All of it
    runs inside [try], so an exception becomes the 500 response of [catch]. *)
Definition proceed (rid : ReqId) (req : SendReq) (c : ClientId) (w : World)
    : World :=
  match number_of req with
  | JStr s =>
      let cleanNumber := strip_non_digits s in
      if (String.length cleanNumber <? 10)%nat
      then respond rid 400 invalid_phone w
      else
        let chatId := (cleanNumber ++ chat_suffix)%string in
        match req with
        | SendMessage _ message =>
            set_pending (<[rid := PSendLast "Message sent"]>)
              (emit (ESend rid c chatId (CText message) None) w)
        | SendPdfUrl _ message pdfUrl =>
            set_pending (<[rid := PFetch c chatId message]>)
              (emit (EFetch rid pdfUrl) w)
        | SendPdfBase64 _ message pdfBase64 fname =>
            let media := mkMedia (JStr "application/pdf") pdfBase64
                           (js_or fname (JStr "document.pdf")) in
            set_pending (<[rid := PSendLast "Message and PDF (base64) sent"]>)
              (emit (ESend rid c chatId (CMedia media) (Some message)) w)
        | SendImageBase64 _ message imageBase64 fname mimeType =>
            let media := mkMedia mimeType imageBase64
                           (js_or fname (JStr "image.jpg")) in
            set_pending
              (<[rid := PSendLast "Image (base64) and message sent"]>)
              (emit (ESend rid c chatId (CMedia media) (Some message)) w)
        end
  | _ => respond rid 500 (BError "number.replace is not a function") w
  end.

(** ** [ensureClientReady] and its promise *)

Definition poll_interval : Z := 1000.
Definition max_wait : Z := 15000.
Definition timeout_message : string :=
  "Timeout: Client not ready after waiting.".

(** The [new Promise] of [ensureClientReady]: the interval first, then the
    timeout; the handler stays suspended on [await]. *)
Definition start_wait (rid : ReqId) (userId : string) (req : SendReq)
    (w : World) : World :=
  let interval := nextTimer w in
  let w1 := set_timer poll_interval (TPoll rid userId) w in
  let w2 := set_timer max_wait (TWaitTimeout rid interval) w1 in
  set_pending (<[rid := PWaitReady userId req]>) w2.

(** [ensureClientReady] from [if (sessions[userId].ready)] on, in the world
    [w] in which a session is registered. *)
Definition gate (rid : ReqId) (key : string) (req : SendReq) (w : World)
    : World :=
  match sessions w !! key with
  | Some session =>
      if ready session
      then proceed rid req (client session) w
      else start_wait rid key req w
  | None => start_wait rid key req w
  end.

(** [await ensureClientReady()] inside [try]: what [sessions[userId]],
    [sessionExists] or [createClient] throws is answered by [catch]. *)
Definition ensureClientReady (rid : ReqId) (userId : JValue) (req : SendReq)
    (w : World) : World :=
  match key_of userId with
  | None => respond rid 500 (BError to_primitive_error) w
  | Some key =>
      if has_entry key w then gate rid key req w
      else
        match sessionExists userId w with
        | inl msg => respond rid 500 (BError msg) w
        | inr found =>
            match (if found then createClient userId w
                   else createClient userId w) with
            | inr w1 => gate rid key req w1
            | inl msg => respond rid 500 (BError msg) w
            end
        end
  end.

(** [resolve(client)]: settles the promise once; the handler then resumes
    before any other callback runs. *)
Definition resolve (rid : ReqId) (c : ClientId) (w : World) : World :=
  match pending w !! rid with
  | Some (PWaitReady _ req) => proceed rid req c w
  | _ => w
  end.

(** [reject(new Error(...))]: settles the promise once; [catch] answers. *)
Definition reject (rid : ReqId) (msg : string) (w : World) : World :=
  match pending w !! rid with
  | Some (PWaitReady _ _) => respond rid 500 (BError msg) w
  | _ => w
  end.

(** One tick of the [setInterval] callback; [t] is the interval itself. *)
Definition fire_poll (t : TimerId) (rid : ReqId) (userId : string) (w : World)
    : World :=
  match sessions w !! userId with
  | Some s =>
      if ready s then resolve rid (client s) (clear_timer t w) else w
  | None => w
  end.

(** The [setTimeout] callback of the promise. *)
Definition fire_wait_timeout (rid : ReqId) (interval : TimerId) (w : World)
    : World :=
  reject rid timeout_message (clear_timer interval w).

(** ** The request handlers *)

(** The handler is an [async] function without [try]: what
    [sessions[userId]] or [createClient] throws leaves the handler, and no
    response is sent. *)
Definition start_session (rid : ReqId) (userId : JValue) (w : World)
    : Outcome :=
  if truthy userId
  then
    match key_of userId with
    | None => Thrown to_primitive_error w
    | Some key =>
        if has_entry key w
        then Done (set_timer 2000 (TGrace rid key) w)
        else
          match createClient userId w with
          | inr w1 => Done (set_timer 2000 (TGrace rid key) w1)
          | inl msg => Thrown msg w
          end
    end
  else Done (respond rid 400 (BError "UserId required") w).

(** The handler is synchronous: Express catches what [createClient] throws
    and answers 500 itself. *)
Definition check_login (rid : ReqId) (userId : string) (w : World) : World :=
  match sessions w !! userId with
  | Some s =>
      if ready s then respond rid 200 (BStatus "ready") w
      else respond rid 200 (BStatus "pending") w
  | None =>
      if proto_key userId then respond rid 200 (BStatus "pending") w
      else if auth_exists userId w
           then match createClient (JStr userId) w with
                | inr w1 => respond rid 200 (BStatus "pending") w1
                | inl msg => respond rid 500 (BUncaught msg) w
                end
           else respond rid 200 (BStatus "not_started") w
  end.

(** The [if (!userId || !number || ...)] line of each send handler. *)
Definition required_ok (userId : JValue) (req : SendReq) : bool :=
  truthy userId &&
  match req with
  | SendMessage n m => truthy n && truthy m
  | SendPdfUrl n m url => truthy n && truthy m && truthy url
  | SendPdfBase64 n m b _ => truthy n && truthy m && truthy b
  | SendImageBase64 n m i _ mt => truthy n && truthy m && truthy i && truthy mt
  end.

Definition required_error (req : SendReq) : Body :=
  match req with
  | SendMessage _ _ => BError "userId, number, and message are required"
  | SendPdfUrl _ _ _ =>
      BError "userId, number, message, and pdfUrl are required"
  | SendPdfBase64 _ _ _ _ =>
      BError "userId, number, message, and pdfBase64 are required"
  | SendImageBase64 _ _ _ _ _ =>
      BError "userId, number, message, imageBase64, and mimeType are required"
  end.

Definition send_handler (rid : ReqId) (userId : JValue) (req : SendReq)
    (w : World) : World :=
  if required_ok userId req
  then ensureClientReady rid userId req w
  else respond rid 400 (required_error req) w.

(** Express routes [/check-login/:userId] to its handler only when the
    segment is not empty, and answers 404 itself otherwise. *)
Definition handle (rid : ReqId) (r : Request) (w : World) : Outcome :=
  match r with
  | StartSession userId => start_session rid userId w
  | CheckLogin userId =>
      if String.eqb userId "" then Done (respond rid 404 BNotFound w)
      else Done (check_login rid userId w)
  | Send userId req => Done (send_handler rid userId req w)
  end.

(** ** Completions of the awaited collaborators *)

(** [axios.get] settles: [inl] the base64 text of the fetched bytes, [inr]
    the message of the error. *)
Definition fetch_done (rid : ReqId) (res : string + string) (w : World)
    : Outcome :=
  match pending w !! rid with
  | Some (PFetch c chatId message) =>
      match res with
      | inl pdfBase64 =>
          let media := mkMedia (JStr "application/pdf") (JStr pdfBase64)
                         (JStr "document.pdf") in
          Done (set_pending (<[rid := PSendText c chatId media]>)
                  (emit (ESend rid c chatId (CText message) None) w))
      | inr msg => Done (respond rid 500 (BError msg) w)
      end
  | _ => Disabled
  end.

(** [client.sendMessage] settles: [None] resolved, [Some msg] rejected. *)
Definition send_done (rid : ReqId) (res : option string) (w : World)
    : Outcome :=
  match pending w !! rid with
  | Some (PSendText c chatId media) =>
      match res with
      | None =>
          Done (set_pending
                  (<[rid := PSendLast "Message and PDF sent from URL"]>)
                  (emit (ESend rid c chatId (CMedia media) None) w))
      | Some msg => Done (respond rid 500 (BError msg) w)
      end
  | Some (PSendLast okStatus) =>
      match res with
      | None => Done (respond rid 200 (BStatus okStatus) w)
      | Some msg => Done (respond rid 500 (BError msg) w)
      end
  | _ => Disabled
  end.

(** The callback of [qrcode.toDataURL]: [Some url], or [None] on error. *)
Definition qr_done (rid : ReqId) (res : option string) (w : World) : Outcome :=
  match pending w !! rid with
  | Some PQr =>
      match res with
      | Some url => Done (respond rid 200 (BStatusQr "qr" url) w)
      | None => Done (respond rid 500 (BError "QR generation failed") w)
      end
  | _ => Disabled
  end.

(** ** The event loop

    The environment chooses what happens next: a request arrives, a client
    that was constructed emits an event, a due timer runs, time passes, an
    awaited call of a collaborator settles, or something outside the server
    creates a file or a directory. *)

Inductive Event :=
| Http (r : Request)
| Backend (c : ClientId) (ev : BackendEvent)
| Fire (t : TimerId)
| Advance (dt : Z)
| FetchDone (rid : ReqId) (res : string + string)
| SendDone (rid : ReqId) (res : option string)
| QrDone (rid : ReqId) (res : option string)
| FsCreated (p : Path) (n : Node).

Definition bump_req (w : World) : World :=
  mkWorld (sessions w) (disk w) (owner w) (nextClient w) (timers w)
          (nextTimer w) (pending w) (S (nextReq w)) (now w) (log w).

(** A timer runs once it is due; an interval is re-armed before its callback
    runs, a timeout is gone. *)
Definition fire (t : TimerId) (w : World) : Outcome :=
  match timers w !! t with
  | None => Disabled
  | Some tm =>
      if due tm <=? now w then
        match kind tm with
        | TIdle u c => fire_idle u c (clear_timer t w)
        | TGrace rid u => fire_grace rid u (clear_timer t w)
        | TPoll rid u =>
            Done (fire_poll t rid u
                    (set_timers
                       (<[t := mkTimer (due tm + poll_interval) (kind tm)]>) w))
        | TWaitTimeout rid interval =>
            Done (fire_wait_timeout rid interval (clear_timer t w))
        end
      else Disabled
  end.

(** Time passes only up to the next due timer. *)
Definition may_advance (dt : Z) (w : World) : bool :=
  (0 <? dt) &&
  forallb (λ kt, now w + dt <=? due kt.2) (map_to_list (timers w)).

(** A file or directory can appear where nothing is, inside a directory. *)
Definition may_create (p : Path) (w : World) : bool :=
  match files (disk w) !! p, files (disk w) !! removelast p with
  | None, Some Dir => negb (bool_decide (p = []))
  | _, _ => false
  end.

Definition step (w : World) (e : Event) : Outcome :=
  match e with
  | Http r => handle (nextReq w) r (bump_req w)
  | Backend c ev =>
      match owner w !! c with
      | Some userId => on_backend userId c ev w
      | None => Disabled
      end
  | Fire t => fire t w
  | Advance dt =>
      if may_advance dt w then Done (set_now (now w + dt) w) else Disabled
  | FetchDone rid res => fetch_done rid res w
  | SendDone rid res => send_done rid res w
  | QrDone rid res => qr_done rid res w
  | FsCreated p n => if may_create p w
                     then Done (set_files (<[p := n]>) w)
                     else Disabled
  end.

(** A run stops at the first callback that throws out of the loop. *)
Fixpoint run (w : World) (es : list Event) : Outcome :=
  match es with
  | [] => Done w
  | e :: es' =>
      match step w e with
      | Done w' => run w' es'
      | o => o
      end
  end.

(** The responses sent so far, oldest first. *)
Definition responses (w : World) : list (ReqId * Z * Body) :=
  omap (λ e, match e with
             | ERespond rid code b => Some (rid, code, b)
             | _ => None
             end) (log w).

(** The backend sends requested so far, oldest first. *)
Definition sends (w : World) : list Effect :=
  omap (λ e, match e with
             | ESend _ _ _ _ _ => Some e
             | _ => None
             end) (log w).

Definition world_of (o : Outcome) : World :=
  match o with
  | Done w | Thrown _ w => w
  | Disabled => initial
  end.

(** The clients constructed so far, oldest first. *)
Definition constructs (w : World) : list ClientId :=
  omap (λ e, match e with
             | EConstruct c _ => Some c
             | _ => None
             end) (log w).

(** ** Scenario building blocks *)

(** [n] seconds in which only the interval [t] runs, once per second. *)
Fixpoint ticks (n : nat) (t : TimerId) : list Event :=
  match n with
  | O => []
  | S k => Advance poll_interval :: Fire t :: ticks k t
  end.

Definition alice : string := "alice".

(** ** Notions the statements below refer to *)

(** [ensureClientReady] gets as far as looking the session up: [userId] has
    an entry already, or it is a string that [LocalAuth] accepts. *)
Definition enters_gate (userId : JValue) (key : string) (w : World) : Prop :=
  key_of userId = Some key
  ∧ (has_entry key w = true
     ∨ (userId = JStr key ∧ valid_client_id key = true)).

(** The world in which [ensureClientReady] looks the session up, when
    [createClient] does not throw. *)
Definition ensured (userId : JValue) (key : string) (w : World) : World :=
  if has_entry key w then w else install userId key w.

(** Re-arming of interval [t] by the event loop. *)
Definition rearm (t : TimerId) (tm : Timer) (w : World) : World :=
  set_timers (<[t := mkTimer (due tm + poll_interval) (kind tm)]>) w.

(** The userId a request is about. *)
Definition user_of (r : Request) : JValue :=
  match r with
  | StartSession userId => userId
  | CheckLogin userId => JStr userId
  | Send userId _ => userId
  end.

(** [new MessageMedia('application/pdf', data, filename)] *)
Definition pdf_media (pdfBase64 fname : JValue) : Media :=
  mkMedia (JStr "application/pdf") pdfBase64 fname.

(** The worlds the server can be in. *)
Inductive reachable : World → Prop :=
| reach_boot d : reachable (boot d)
| reach_step w e w' : reachable w → step w e = Done w' → reachable w'.

(** A userId for which a client was constructed: its conversion to a string
    is no inherited key and was accepted by [LocalAuth]. *)
Definition good_key (key : string) : bool :=
  negb (proto_key key) && valid_client_id key.

Definition good_id (userId : JValue) : bool :=
  match key_of userId with
  | Some key => good_key key
  | None => false
  end.

(** Client handles come from the allocator [nextClient], and neither a
    client nor an entry is ever created for an inherited key or for an id
    that [LocalAuth] refuses. *)
Record wf (w : World) : Prop := mk_wf {
  wf_owner : map_Forall (λ c _, (c < nextClient w)%nat) (owner w);
  wf_client : map_Forall (λ _ s, (client s < nextClient w)%nat) (sessions w);
  wf_own_owner : map_Forall (λ _ v, good_id v = true) (owner w);
  wf_own_entry : map_Forall (λ u _, good_key u = true) (sessions w)
}.

(** What a callback leaves alone when it neither creates nor removes. *)
Definition same_registry (w w' : World) : Prop :=
  sessions w' = sessions w ∧ owner w' = owner w
  ∧ nextClient w' = nextClient w.

(** Every entry that is ready after a step either has its [lastQR] cleared
    or is the very entry that was there before the step. *)
Definition qr_step (m m' : gmap string Session) : Prop :=
  ∀ u s', m' !! u = Some s' → ready s' = true →
          lastQR s' = None ∨ m !! u = Some s'.

Definition qr_clear (m : gmap string Session) : Prop :=
  ∀ u s, m !! u = Some s → ready s = true → lastQR s = None.


(** The same request body with another [number]. *)
Definition set_number (n : JValue) (req : SendReq) : SendReq :=
  match req with
  | SendMessage _ m => SendMessage n m
  | SendPdfUrl _ m url => SendPdfUrl n m url
  | SendPdfBase64 _ m b f => SendPdfBase64 n m b f
  | SendImageBase64 _ m i f mt => SendImageBase64 n m i f mt
  end.

(** Timers and what refers to them: timer handles are never reused; the
    handle a session stores is that of its own idle timer; the interval a
    wait's timeout cancels is that wait's interval; and a request that waits
    for readiness has its timeout pending, due within [max_wait]. *)
Record timed (w : World) : Prop := mk_timed {
  timed_fresh : ∀ t tm, timers w !! t = Some tm → (t < nextTimer w)%nat;
  timed_session :
    ∀ u s t, sessions w !! u = Some s → timeout s = Some t →
             (t < nextTimer w)%nat
             ∧ ∀ tm, timers w !! t = Some tm → kind tm = TIdle u (client s);
  timed_interval :
    ∀ t tm rid i, timers w !! t = Some tm → kind tm = TWaitTimeout rid i →
                  (i < nextTimer w)%nat
                  ∧ ∀ tm', timers w !! i = Some tm' →
                           ∃ u, kind tm' = TPoll rid u;
  timed_wait :
    ∀ rid u req, pending w !! rid = Some (PWaitReady u req) →
                 ∃ t tm i, timers w !! t = Some tm
                           ∧ kind tm = TWaitTimeout rid i
                           ∧ due tm ≤ now w + max_wait
}.

(** What a callback leaves alone when it touches no timer, no session and
    no suspended handler. *)
Definition same_timing (w w' : World) : Prop :=
  sessions w' = sessions w ∧ timers w' = timers w
  ∧ nextTimer w' = nextTimer w ∧ pending w' = pending w ∧ now w' = now w.

(** Sessions, their clients and their idle timers: an idle timer belongs to
    a client of its userId, and if that client is the one registered the
    session stores the timer's handle; a ready session stores no handle; the
    client of a registered session was constructed for that userId and has
    not been destroyed. *)
Record linked (w : World) : Prop := mk_linked {
  linked_idle_owner :
    ∀ t tm u c, timers w !! t = Some tm → kind tm = TIdle u c →
                ∃ v, owner w !! c = Some v ∧ key_of v = Some u;
  linked_idle_session :
    ∀ t tm u c s, timers w !! t = Some tm → kind tm = TIdle u c →
                  sessions w !! u = Some s → client s = c →
                  timeout s = Some t;
  linked_ready :
    ∀ u s, sessions w !! u = Some s → ready s = true → timeout s = None;
  linked_owner :
    ∀ u s, sessions w !! u = Some s →
           ∃ v, owner w !! client s = Some v ∧ key_of v = Some u;
  linked_alive :
    ∀ u s, sessions w !! u = Some s → EDestroy (client s) ∉ log w;
  linked_destroyed :
    ∀ c, EDestroy c ∈ log w → (c < nextClient w)%nat;
  linked_constructed :
    ∀ c v u, owner w !! c = Some v → key_of v = Some u →
             EConstruct c u ∈ log w
}.

(** An effect that destroys no client. *)
Definition harmless (e : Effect) : Prop :=
  match e with
  | EDestroy _ => False
  | _ => True
  end.

(** The requests answered so far, oldest first. *)
Definition answered (w : World) : list ReqId :=
  (λ r : ReqId * Z * Body, r.1.1) <$> responses w.

(** The start-session callback of request [rid] is still to run. *)
Definition in_grace (w : World) (rid : ReqId) : Prop :=
  ∃ t tm u, timers w !! t = Some tm ∧ kind tm = TGrace rid u.

(** Book-keeping of the requests. Every request received is in exactly one
    of three states: answered (once), suspended in [pending], or waiting for
    its start-session callback (one timer). [o] is the request whose handler
    is running right now and has not yet done one of the three. *)
Record once_at (o : option ReqId) (w : World) : Prop := mk_once {
  oa_nodup : NoDup (answered w);
  oa_answered :
    ∀ rid, rid ∈ answered w →
           (rid < nextReq w)%nat ∧ pending w !! rid = None
           ∧ ¬ in_grace w rid ∧ o ≠ Some rid;
  oa_pending :
    ∀ rid p, pending w !! rid = Some p →
             (rid < nextReq w)%nat ∧ ¬ in_grace w rid ∧ o ≠ Some rid;
  oa_grace :
    ∀ t tm rid u, timers w !! t = Some tm → kind tm = TGrace rid u →
                  (rid < nextReq w)%nat ∧ o ≠ Some rid
                  ∧ ∀ t' tm' u', timers w !! t' = Some tm' →
                                 kind tm' = TGrace rid u' → t' = t;
  oa_open : ∀ rid, o = Some rid → (rid < nextReq w)%nat;
  oa_progress :
    ∀ rid, (rid < nextReq w)%nat → o ≠ Some rid →
           rid ∈ answered w ∨ is_Some (pending w !! rid) ∨ in_grace w rid
}.

(** The timers of start-session callbacks are the same in both maps. *)
Definition same_grace (m m' : gmap nat Timer) : Prop :=
  ∀ t rid u, (∃ tm, m' !! t = Some tm ∧ kind tm = TGrace rid u)
             ↔ (∃ tm, m !! t = Some tm ∧ kind tm = TGrace rid u).

(** What a callback leaves alone when it neither answers nor suspends nor
    schedules a start-session callback. *)
Definition same_requests (w w' : World) : Prop :=
  answered w' = answered w ∧ pending w' = pending w
  ∧ nextReq w' = nextReq w ∧ same_grace (timers w) (timers w').

(** The handler of [rid] may act: it is the running one, or it is
    suspended. *)
Definition live (o : option ReqId) (w : World) (rid : ReqId) : Prop :=
  o = Some rid ∨ (o = None ∧ is_Some (pending w !! rid)).

(** Deadlines: the idle timer a session stores the handle of is pending and
    due within [idle_window]; a start-session callback is due within the
    2-second grace delay. *)
Record armed (w : World) : Prop := mk_armed {
  armed_idle :
    ∀ u s t, sessions w !! u = Some s → timeout s = Some t →
             ∃ tm, timers w !! t = Some tm ∧ due tm ≤ now w + idle_window;
  armed_grace :
    ∀ t tm rid u, timers w !! t = Some tm → kind tm = TGrace rid u →
                  due tm ≤ now w + 2000
}.

(** What request [rid] holds for its later sends is the chat id [chat], and
    it is not waiting for readiness. *)
Definition ok_pending (chat : string) (p : option Pending) : Prop :=
  match p with
  | Some (PFetch _ chat' _) | Some (PSendText _ chat' _) => chat' = chat
  | Some (PWaitReady _ _) => False
  | _ => True
  end.

(** Request [rid] was received and can send to [chat] only. *)
Definition bound_to (rid : ReqId) (chat : string) (w : World) : Prop :=
  (rid < nextReq w)%nat ∧ ok_pending chat (pending w !! rid).

(** Every send of request [rid] in [l] goes to [chat]. *)
Definition sends_to (rid : ReqId) (chat : string) (l : list Effect) : Prop :=
  ∀ c chat' content caption,
    ESend rid c chat' content caption ∈ l → chat' = chat.

(** From [w] to [w'] request [rid] stays bound to [chat] and sends to it
    only. *)
Definition keeps (rid : ReqId) (chat : string) (w w' : World) : Prop :=
  (nextReq w ≤ nextReq w')%nat
  ∧ (ok_pending chat (pending w !! rid) →
     ok_pending chat (pending w' !! rid))
  ∧ ∃ new, sends w' = sends w ++ new ∧ sends_to rid chat new.

(** ** Runs

    Each run starts in [initial] at 0 ms. The first [createClient] makes
    client 0 and timer 0, its idle timer, due at 120000 ms; requests are
    numbered from 0 and every later timer takes the next number. *)

Definition short_number_request : Request :=
  Send (JStr alice) (SendMessage (JStr "12345") (JStr "hi")).

Definition good_number_request : Request :=
  Send (JStr alice) (SendMessage (JStr "+91 98765 43210") (JStr "hi")).

(** A send-message with a five-digit number for a user without a session:
    interval 1 ticks fourteen times, then timer 2, the 15-second timer,
    runs. *)
Definition never_ready_run : list Event :=
  Http short_number_request :: ticks 14 1%nat ++ [Advance 1000; Fire 2%nat].

Definition waiting_world : World :=
  world_of (run initial [Http short_number_request]).

(** A session created at 0 s by start-session (grace timer 1) and never
    scanned; a send-message at 110 s starts waiting with interval 2 and
    timer 3; at 120 s, after the tenth tick, idle timer 0 removes the
    entry. *)
Definition vanish_prefix : list Event :=
  [Http (StartSession (JStr alice)); Advance 2000; Fire 1%nat;
   Advance 108000; Http good_number_request]
  ++ ticks 10 2%nat ++ [Fire 0%nat].

(** The five seconds that remain of the wait. *)
Definition vanish_suffix : list Event :=
  ticks 4 2%nat ++ [Advance 1000; Fire 2%nat; Fire 3%nat].

Definition vanished_world : World := world_of (run initial vanish_prefix).

Definition vanished_due_world : World :=
  world_of (run vanished_world [Advance 1000]).

(** A send-message for a user without a session; the backend reports ready
    at 5 s and the tick at 6 s sees it. *)
Definition ready_at_5s_run : list Event :=
  Http good_number_request :: ticks 5 1%nat
  ++ [Backend 0%nat EvReady; Advance 1000; Fire 1%nat; SendDone 0%nat None].

(** The same request; the backend reports ready only at 20 s. *)
Definition ready_at_20s_run : list Event :=
  Http good_number_request :: ticks 14 1%nat
  ++ [Advance 1000; Fire 1%nat; Fire 2%nat; Advance 5000;
      Backend 0%nat EvReady].

(** A session that shows its QR and is not scanned yet. *)
Definition scanned_world : World :=
  world_of (run initial [Http (StartSession (JStr alice));
                         Backend 0%nat (EvQr "2@qr-payload")]).

(** A session that was scanned and is ready, with auth artifacts on disk. *)
Definition ready_run : list Event :=
  [Http (StartSession (JStr alice)); Backend 0%nat (EvQr "2@qr-payload");
   FsCreated (auth_root initial) Dir;
   FsCreated (auth_path alice initial) Dir; Backend 0%nat EvReady].

Definition ready_world : World := world_of (run initial ready_run).

(** A session started at 0 s that shows its QR and is never scanned, up to
    the run of its idle timer at 120 s. *)
Definition never_scanned_run : list Event :=
  [Http (StartSession (JStr alice)); Advance 2000; Fire 1%nat;
   Backend 0%nat (EvQr "2@qr-payload"); Advance 118000; Fire 0%nat].

Definition before_deadline_world : World :=
  world_of (run initial (take 5 never_scanned_run)).

(** A session started with the JSON number 123 as [userId] and scanned. *)
Definition numeric_id_run : list Event :=
  [Http (StartSession (JNum 123)); Backend 0%nat EvReady].

(** A session that is disconnected at 60 s, before it was ever ready: the
    idle timer of the first [createClient] call is still pending when the
    replacement (client 1, idle timer 2) is registered. *)
Definition early_disconnect_run : list Event :=
  [Http (StartSession (JStr alice)); Advance 2000; Fire 1%nat;
   Advance 58000; Backend 0%nat (EvDisconnected "LOGOUT")].

Definition replaced_world : World :=
  world_of (run initial early_disconnect_run).

Definition stale_timer_world : World :=
  world_of (run replaced_world [Advance 60000; Fire 0%nat]).

(** A start-session whose session is disconnected 1 s into the grace
    delay. *)
Definition grace_after_disconnect_run : list Event :=
  [Http (StartSession (JStr alice)); Advance 1000;
   Backend 0%nat (EvDisconnected "LOGOUT"); Advance 1000; Fire 1%nat].

(** A second start-session at 119 s (grace timer 2) for a session created
    at 0 s: idle timer 0 removes the entry at 120 s, the grace timer runs at
    121 s. *)
Definition grace_after_idle_run : list Event :=
  [Http (StartSession (JStr alice)); Advance 2000; Fire 1%nat;
   Advance 117000; Http (StartSession (JStr alice)); Advance 1000;
   Fire 0%nat; Advance 1000; Fire 2%nat].

Definition absent_at_grace_world : World :=
  world_of (run initial (take 8 grace_after_idle_run)).

(** ** Elementary facts about effects *)

Section Projections.
Context (w : World).

Lemma responses_emit e :
  responses (emit e w) =
  responses w ++ match e with
                 | ERespond rid code b => [(rid, code, b)]
                 | _ => []
                 end.
Proof.
  unfold responses; cbn [log emit]. rewrite omap_app.
  by destruct e.
Qed.

Lemma sends_emit e :
  sends (emit e w) =
  sends w ++ match e with
             | ESend _ _ _ _ _ => [e]
             | _ => []
             end.
Proof.
  unfold sends; cbn [log emit]. rewrite omap_app.
  by destruct e.
Qed.

Lemma constructs_emit e :
  constructs (emit e w) =
  constructs w ++ match e with
                  | EConstruct c _ => [c]
                  | _ => []
                  end.
Proof.
  unfold constructs; cbn [log emit]. rewrite omap_app.
  by destruct e.
Qed.

End Projections.

Lemma sends_respond w rid code b : sends (respond rid code b w) = sends w.
Proof. unfold respond. rewrite sends_emit. by rewrite app_nil_r. Qed.

Lemma constructs_respond w rid code b :
  constructs (respond rid code b w) = constructs w.
Proof. unfold respond. rewrite constructs_emit. by rewrite app_nil_r. Qed.

Lemma responses_respond w rid code b :
  responses (respond rid code b w) = responses w ++ [(rid, code, b)].
Proof. unfold respond. by rewrite responses_emit. Qed.

(** ** Required fields *)

Lemma truthy_empty_string : truthy (JStr "") = false.
Proof. reflexivity. Qed.

Lemma truthy_zero : truthy (JNum 0) = false.
Proof. reflexivity. Qed.

Lemma send_handler_missing rid userId req w :
  required_ok userId req = false →
  send_handler rid userId req w = respond rid 400 (required_error req) w.
Proof.
  intros H. unfold send_handler. by rewrite H.
Qed.

(** C10: the required-field test of the send handlers is a truthiness test.
    A send-message body whose [message] is the empty string or whose
    [number] is the number 0 is answered 400 "... are required" although
    the field is present, and nothing is sent to the backend. The same
    holds for the other three send endpoints. *)
Theorem C10_falsy_field_is_missing :
  ∀ (w : World) (rid : ReqId) (userId : JValue) (req : SendReq),
    message_of req = JStr "" ∨ number_of req = JNum 0 →
    send_handler rid userId req w = respond rid 400 (required_error req) w
    ∧ (∀ n m, req = SendMessage n m →
              required_error req
              = BError "userId, number, and message are required")
    ∧ responses (send_handler rid userId req w)
      = responses w ++ [(rid, 400, required_error req)]
    ∧ sends (send_handler rid userId req w) = sends w
    ∧ constructs (send_handler rid userId req w) = constructs w
    ∧ sessions (send_handler rid userId req w) = sessions w.
Proof.
  intros w rid userId req Hfalsy.
  assert (Hreq : required_ok userId req = false).
  { unfold required_ok.
    destruct req; cbn [message_of number_of] in Hfalsy;
      destruct Hfalsy as [-> | ->]; cbn [truthy String.eqb negb Z.eqb];
      rewrite ?andb_false_r; reflexivity. }
  rewrite (send_handler_missing _ _ _ _ Hreq).
  rewrite responses_respond, sends_respond, constructs_respond.
  repeat split; try reflexivity. by intros n m ->.
Qed.

Lemma C10_falsy_field_is_missing_witness :
  (message_of (SendMessage (JStr "919876543210") (JStr "")) = JStr ""
   ∨ number_of (SendMessage (JStr "919876543210") (JStr "")) = JNum 0)
  ∧ send_handler 0%nat (JStr alice)
      (SendMessage (JStr "919876543210") (JStr "")) initial
    = respond 0%nat 400
        (BError "userId, number, and message are required") initial.
Proof.
  split; [left; reflexivity|].
  apply (C10_falsy_field_is_missing initial 0%nat (JStr alice)
           (SendMessage (JStr "919876543210") (JStr ""))).
  left; reflexivity.
Defined.

(** ** The number check sits behind the readiness gate *)

Lemma send_handler_ok rid v req w :
  required_ok v req = true →
  send_handler rid v req w = ensureClientReady rid v req w.
Proof. intros H. unfold send_handler. by rewrite H. Qed.

Lemma ensureClientReady_entry rid v u req w s :
  key_of v = Some u → sessions w !! u = Some s →
  ensureClientReady rid v req w =
  if ready s then proceed rid req (client s) w else start_wait rid u req w.
Proof.
  intros Hk H. unfold ensureClientReady, has_entry, gate. by rewrite Hk, H.
Qed.

Lemma proceed_short_number rid req c w n :
  number_of req = JStr n →
  (String.length (strip_non_digits n) < 10)%nat →
  proceed rid req c w = respond rid 400 invalid_phone w.
Proof.
  intros Hn Hlen. unfold proceed. rewrite Hn. cbn zeta.
  by apply Nat.ltb_lt in Hlen as ->.
Qed.

Lemma fire_wait_timeout_waiting rid i w u req :
  pending w !! rid = Some (PWaitReady u req) →
  fire_wait_timeout rid i w =
  respond rid 500 (BError timeout_message) (clear_timer i w).
Proof.
  intros H. unfold fire_wait_timeout, reject.
  cbn [pending clear_timer set_timers]. by rewrite H.
Qed.

Lemma fire_poll_ready t rid u w s req :
  sessions w !! u = Some s → ready s = true →
  pending w !! rid = Some (PWaitReady u req) →
  fire_poll t rid u w = proceed rid req (client s) (clear_timer t w).
Proof.
  intros Hs Hr Hp. unfold fire_poll. rewrite Hs, Hr. unfold resolve.
  cbn [pending clear_timer set_timers]. by rewrite Hp.
Qed.

(** C1, as stated, fails: with a number of five digits and a session that
    never becomes ready the handler answers 500 with the timeout message,
    not 400 "Invalid phone number". *)
Lemma C1_counterexample :
  (String.length (strip_non_digits "12345") < 10)%nat
  ∧ ∃ w, run initial never_ready_run = Done w
         ∧ now w = 15000
         ∧ responses w = [(0%nat, 500, BError timeout_message)].
Proof.
  split; [vm_compute; lia|].
  eexists. split; [vm_compute; reflexivity|].
  split; reflexivity.
Qed.

(** C1 (amended): the digit count is checked once the readiness gate has
    produced a client. For a send-message request whose [number] is a string
    with fewer than 10 digits after stripping: if the session is ready when
    the request arrives, or is found ready by a poll of the wait, the answer
    is 400 "Invalid phone number" and nothing is sent; if the session is not
    ready the handler waits without answering; and if the 15-second timer
    fires while it still waits, the answer is 500 with the timeout
    message. *)
Theorem C1_invalid_number_after_gate :
  ∀ (w : World) (rid : ReqId) (userId : JValue) (u n : string) (m : JValue)
    (s : Session),
    key_of userId = Some u →
    required_ok userId (SendMessage (JStr n) m) = true →
    (String.length (strip_non_digits n) < 10)%nat →
    let req := SendMessage (JStr n) m in
    (sessions w !! u = Some s → ready s = true →
       send_handler rid userId req w = respond rid 400 invalid_phone w
       ∧ sends (send_handler rid userId req w) = sends w)
    ∧ (∀ t, pending w !! rid = Some (PWaitReady u req) →
          sessions w !! u = Some s → ready s = true →
          fire_poll t rid u w = respond rid 400 invalid_phone (clear_timer t w)
          ∧ sends (fire_poll t rid u w) = sends w)
    ∧ (sessions w !! u = Some s → ready s = false →
       send_handler rid userId req w = start_wait rid u req w
       ∧ responses (send_handler rid userId req w) = responses w)
    ∧ (∀ i, pending w !! rid = Some (PWaitReady u req) →
          fire_wait_timeout rid i w =
          respond rid 500 (BError timeout_message) (clear_timer i w)).
Proof.
  intros w rid userId u n m s Hk Hreq Hlen req.
  assert (Hshort : ∀ c w0, proceed rid req c w0 = respond rid 400 invalid_phone w0)
    by (intros; by apply proceed_short_number with n).
  split; [|split; [|split]].
  - intros Hs Hr.
    rewrite (send_handler_ok _ _ _ _ Hreq).
    rewrite (ensureClientReady_entry _ _ _ _ _ _ Hk Hs), Hr, Hshort.
    split; [done | apply sends_respond].
  - intros t Hp Hs Hr.
    rewrite (fire_poll_ready _ _ _ _ _ _ Hs Hr Hp), Hshort.
    split; [done | by rewrite sends_respond].
  - intros Hs Hr.
    rewrite (send_handler_ok _ _ _ _ Hreq).
    by rewrite (ensureClientReady_entry _ _ _ _ _ _ Hk Hs), Hr.
  - intros i Hp. by eapply fire_wait_timeout_waiting.
Qed.

Lemma C1_invalid_number_after_gate_witness :
  required_ok (JStr alice) (SendMessage (JStr "12345") (JStr "hi")) = true
  ∧ (String.length (strip_non_digits "12345") < 10)%nat
  ∧ fire_wait_timeout 0%nat 1%nat waiting_world
    = respond 0%nat 500 (BError timeout_message)
        (clear_timer 1%nat waiting_world).
Proof.
  split; [reflexivity|]. split; [vm_compute; lia|].
  apply (C1_invalid_number_after_gate waiting_world 0%nat (JStr alice) alice
           "12345" (JStr "hi") (mkSession 0%nat false None true None)).
  - reflexivity.
  - reflexivity.
  - vm_compute; lia.
  - vm_compute; reflexivity.
Defined.

(** ** The readiness wait *)

Lemma install_entry v u w :
  sessions (install v u w) !! u
  = Some (mkSession (nextClient w) false None true (Some (nextTimer w))).
Proof. unfold install; cbn. apply lookup_insert_eq. Qed.

Lemma createClient_ok v u w :
  key_of v = Some u → valid_client_id u = true →
  createClient v w = inr (install v u w).
Proof.
  intros Hk Hv. unfold createClient. rewrite Hk, Hv.
  by rewrite andb_false_r.
Qed.

Lemma createClient_inr v u w w1 :
  key_of v = Some u → createClient v w = inr w1 → w1 = install v u w.
Proof.
  intros Hk. unfold createClient. rewrite Hk.
  destruct (truthy v && negb (valid_client_id u)); [done|]. by intros [= <-].
Qed.

Lemma createClient_invalid v u w :
  key_of v = Some u → truthy v = true → valid_client_id u = false →
  createClient v w = inl invalid_client_id.
Proof. intros Hk Ht Hv. unfold createClient. by rewrite Hk, Ht, Hv. Qed.

(** [createClient] registers the session or throws and changes nothing. *)
Lemma createClient_cases v w :
  (∃ msg, createClient v w = inl msg)
  ∨ (∃ u, key_of v = Some u ∧ createClient v w = inr (install v u w)
          ∧ (truthy v = true → valid_client_id u = true)).
Proof.
  unfold createClient. destruct (key_of v) as [u|]; [|left; by eexists].
  destruct (truthy v) eqn:Ht; cbn.
  - destruct (valid_client_id u) eqn:Hv; cbn.
    + right. by exists u.
    + left. by eexists.
  - right. exists u. by repeat split.
Qed.

Lemma ensureClientReady_not_ready rid v u req w :
  enters_gate v u w →
  (∀ s, sessions w !! u = Some s → ready s = false) →
  ensureClientReady rid v req w = start_wait rid u req (ensured v u w).
Proof.
  intros [Hk Hin] Hnr. unfold ensureClientReady, ensured, gate. rewrite Hk.
  destruct (has_entry u w) eqn:He.
  - destruct (sessions w !! u) as [s|] eqn:Hs; [|done].
    by rewrite (Hnr s eq_refl).
  - destruct Hin as [?|[-> Hv]]; [done|]. cbn [sessionExists].
    rewrite (createClient_ok _ u) by done.
    destruct (auth_exists u w); by rewrite install_entry.
Qed.

Lemma clear_rearm t tm w : clear_timer t (rearm t tm w) = clear_timer t w.
Proof.
  unfold clear_timer, rearm, set_timers; cbn. f_equal. apply delete_insert_eq.
Qed.

Lemma fire_due t tm w :
  timers w !! t = Some tm → due tm ≤ now w →
  fire t w =
  match kind tm with
  | TIdle u c => fire_idle u c (clear_timer t w)
  | TGrace rid u => fire_grace rid u (clear_timer t w)
  | TPoll rid u => Done (fire_poll t rid u (rearm t tm w))
  | TWaitTimeout rid interval =>
      Done (fire_wait_timeout rid interval (clear_timer t w))
  end.
Proof.
  intros Ht Hd. unfold fire. rewrite Ht.
  by apply Z.leb_le in Hd as ->.
Qed.

Lemma fire_poll_not_ready t rid u w :
  (∀ s, sessions w !! u = Some s → ready s = false) →
  fire_poll t rid u w = w.
Proof.
  intros Hnr. unfold fire_poll.
  destruct (sessions w !! u) as [s|] eqn:Hs; [|done].
  by rewrite (Hnr s eq_refl).
Qed.

(** Time cannot pass a pending timer: it can only advance up to it. *)
Lemma advance_respects_timers w dt t tm :
  may_advance dt w = true → timers w !! t = Some tm → now w + dt ≤ due tm.
Proof.
  unfold may_advance. intros [_ Hall]%andb_prop Ht.
  rewrite forallb_forall in Hall.
  specialize (Hall (t, tm)). apply Z.leb_le, Hall.
  apply list_elem_of_In. by apply elem_of_map_to_list.
Qed.

(** C2, as stated, fails: after the idle timer has removed the entry in the
    middle of a wait the request is still waiting, the interval keeps
    ticking, and the wait ends at 15 s with the generic timeout error. *)
Lemma C2_counterexample :
  run initial vanish_prefix = Done vanished_world
  ∧ now vanished_world = 120000
  ∧ sessions vanished_world !! alice = None
  ∧ pending vanished_world !! 1%nat
    = Some (PWaitReady alice
              (SendMessage (JStr "+91 98765 43210") (JStr "hi")))
  ∧ ∃ w, run vanished_world vanish_suffix = Done w
         ∧ now w = 125000
         ∧ responses w = [(0%nat, 200, BStatus "pending");
                          (1%nat, 500, BError timeout_message)].
Proof.
  split; [vm_compute; reflexivity|].
  split; [vm_compute; reflexivity|].
  split; [vm_compute; reflexivity|].
  split; [vm_compute; reflexivity|].
  eexists. split; [vm_compute; reflexivity|].
  split; reflexivity.
Qed.

(** C2 (amended): there is no separate error for a vanished session. While
    the registry has no entry for the userId, a poll of the wait changes
    nothing but the interval's next due time: the request keeps waiting and
    no response is sent. The wait is rejected only by its 15-second timer,
    with the timeout message. *)
Theorem C2_vanished_entry_polls_on :
  ∀ (w : World) (t : TimerId) (tm : Timer) (rid : ReqId) (u : string)
    (req : SendReq),
    sessions w !! u = None →
    pending w !! rid = Some (PWaitReady u req) →
    timers w !! t = Some tm → kind tm = TPoll rid u → due tm ≤ now w →
    step w (Fire t) = Done (rearm t tm w)
    ∧ pending (rearm t tm w) !! rid = Some (PWaitReady u req)
    ∧ responses (rearm t tm w) = responses w
    ∧ timers (rearm t tm w) !! t
      = Some (mkTimer (due tm + 1000) (TPoll rid u))
    ∧ ∀ t' tm',
        timers w !! t' = Some tm' → kind tm' = TWaitTimeout rid t →
        due tm' ≤ now w →
        ∃ w', step w (Fire t') = Done w'
              ∧ responses w' = responses w ++ [(rid, 500, BError timeout_message)]
              ∧ pending w' !! rid = None.
Proof.
  intros w t tm rid u req Hs Hp Ht Hk Hd.
  split; [|split; [|split; [|split]]].
  - cbn [step]. rewrite (fire_due _ _ _ Ht Hd), Hk.
    rewrite fire_poll_not_ready; [done|].
    cbn [rearm set_timers sessions]. intros s; by rewrite Hs.
  - exact Hp.
  - reflexivity.
  - cbn [rearm set_timers timers]. rewrite lookup_insert_eq, Hk. reflexivity.
  - intros t' tm' Ht' Hk' Hd'. eexists. split.
    + cbn [step]. rewrite (fire_due _ _ _ Ht' Hd'), Hk'.
      rewrite (fire_wait_timeout_waiting _ _ _ u req); [reflexivity|exact Hp].
    + split; [by rewrite responses_respond|].
      cbn. apply lookup_delete_eq.
Qed.

Lemma C2_vanished_entry_polls_on_witness :
  sessions vanished_due_world !! alice = None
  ∧ due (mkTimer 121000 (TPoll 1%nat alice)) ≤ now vanished_due_world
  ∧ step vanished_due_world (Fire 2%nat)
    = Done (rearm 2%nat
              (mkTimer 121000 (TPoll 1%nat alice)) vanished_due_world).
Proof.
  split; [vm_compute; reflexivity|].
  split; [vm_compute; discriminate|].
  apply (C2_vanished_entry_polls_on vanished_due_world 2%nat
           (mkTimer 121000 (TPoll 1%nat alice)) 1%nat alice
           (SendMessage (JStr "+91 98765 43210") (JStr "hi"))).
  - vm_compute; reflexivity.
  - vm_compute; reflexivity.
  - vm_compute; reflexivity.
  - reflexivity.
  - vm_compute. discriminate.
Defined.

Lemma install_log v u w :
  log (install v u w)
  = log w ++ [EConstruct (nextClient w) u; EInitialize (nextClient w)].
Proof. unfold install; cbn. by rewrite <- app_assoc. Qed.

Lemma ensured_quiet v u w :
  responses (ensured v u w) = responses w
  ∧ sends (ensured v u w) = sends w
  ∧ now (ensured v u w) = now w.
Proof.
  unfold ensured. destruct (has_entry u w); [done|].
  unfold responses, sends. rewrite install_log, !omap_app; cbn.
  by rewrite !app_nil_r.
Qed.

Lemma start_wait_shape rid u req w :
  pending (start_wait rid u req w) !! rid = Some (PWaitReady u req)
  ∧ timers (start_wait rid u req w) !! nextTimer w
    = Some (mkTimer (now w + poll_interval) (TPoll rid u))
  ∧ timers (start_wait rid u req w) !! S (nextTimer w)
    = Some (mkTimer (now w + max_wait) (TWaitTimeout rid (nextTimer w)))
  ∧ log (start_wait rid u req w) = log w
  ∧ sessions (start_wait rid u req w) = sessions w.
Proof.
  unfold start_wait; cbn. split; [apply lookup_insert_eq|].
  split; [|split; [apply lookup_insert_eq|done]].
  rewrite lookup_insert_ne by lia. apply lookup_insert_eq.
Qed.

Lemma ready_at_5s_outcome :
  ∃ w5, run initial ready_at_5s_run = Done w5
        ∧ now w5 = 6000
        ∧ sends w5 = [ESend 0%nat 0%nat "919876543210@c.us"
                        (CText (JStr "hi")) None]
        ∧ responses w5 = [(0%nat, 200, BStatus "Message sent")].
Proof. eexists. split; [vm_compute; reflexivity|]. repeat split. Qed.

Lemma ready_at_20s_outcome :
  ∃ w20, run initial ready_at_20s_run = Done w20
         ∧ now w20 = 20000
         ∧ sends w20 = []
         ∧ responses w20 = [(0%nat, 500, BError timeout_message)].
Proof. eexists. split; [vm_compute; reflexivity|]. repeat split. Qed.

(** C4: a send request for a session that is not ready (an entry that is
    not ready, or no entry and a userId for which [createClient] makes one)
    does not answer: it leaves the handler suspended with an interval due
    every second and a timer due after 15 seconds. A poll that finds the session not ready (or
    finds no entry) only re-arms the interval; a poll that finds it ready
    cancels the interval and resumes the handler with the client of the
    entry found at that moment; the 15-second timer, when the handler still
    waits, answers 500 with the timeout message; and time cannot pass that
    timer. With a backend that turns ready at 5 s the message is sent and the
    answer is "Message sent"; with one that turns ready at 20 s the answer is
    the timeout error and nothing is sent. *)
Theorem C4_readiness_wait :
  ∀ (w : World) (rid : ReqId) (userId : JValue) (u : string) (req : SendReq),
    enters_gate userId u w →
    required_ok userId req = true →
    (∀ s, sessions w !! u = Some s → ready s = false) →
    let w0 := ensured userId u w in
    let w1 := send_handler rid userId req w in
    (responses w1 = responses w ∧ sends w1 = sends w
     ∧ pending w1 !! rid = Some (PWaitReady u req)
     ∧ timers w1 !! nextTimer w0
       = Some (mkTimer (now w + 1000) (TPoll rid u))
     ∧ timers w1 !! S (nextTimer w0)
       = Some (mkTimer (now w + 15000) (TWaitTimeout rid (nextTimer w0))))
    ∧ (∀ w2 t tm,
         pending w2 !! rid = Some (PWaitReady u req) →
         timers w2 !! t = Some tm → kind tm = TPoll rid u → due tm ≤ now w2 →
         step w2 (Fire t) =
         match sessions w2 !! u with
         | Some s2 =>
             if ready s2
             then Done (proceed rid req (client s2) (clear_timer t w2))
             else Done (rearm t tm w2)
         | None => Done (rearm t tm w2)
         end)
    ∧ (∀ w2 t tm,
         pending w2 !! rid = Some (PWaitReady u req) →
         timers w2 !! t = Some tm → kind tm = TWaitTimeout rid (nextTimer w0) →
         (∀ dt, step w2 (Advance dt) ≠ Disabled → now w2 + dt ≤ due tm)
         ∧ (due tm ≤ now w2 →
            step w2 (Fire t)
            = Done (respond rid 500 (BError timeout_message)
                      (clear_timer (nextTimer w0) (clear_timer t w2)))))
    ∧ (∃ w5, run initial ready_at_5s_run = Done w5
             ∧ now w5 = 6000
             ∧ sends w5 = [ESend 0%nat 0%nat "919876543210@c.us"
                             (CText (JStr "hi")) None]
             ∧ responses w5 = [(0%nat, 200, BStatus "Message sent")])
    ∧ (∃ w20, run initial ready_at_20s_run = Done w20
              ∧ now w20 = 20000
              ∧ sends w20 = []
              ∧ responses w20 = [(0%nat, 500, BError timeout_message)]).
Proof.
  intros w rid userId u req Hin Hreq Hnr w0 w1.
  assert (Hw1 : w1 = start_wait rid u req w0).
  { unfold w1. rewrite (send_handler_ok _ _ _ _ Hreq).
    by apply ensureClientReady_not_ready. }
  assert (Hnow : now w0 = now w).
  { unfold w0, ensured. by destruct (has_entry u w). }
  split; [|split; [|split; [|split]]].
  - rewrite Hw1.
    destruct (start_wait_shape rid u req w0) as (Hp & Ht1 & Ht2 & Hl & _).
    destruct (ensured_quiet userId u w) as (Hr & Hs & _). fold w0 in Hr, Hs.
    rewrite Hp, Ht1, Ht2, Hnow. unfold responses, sends in *.
    by rewrite Hl, Hr, Hs.
  - intros w2 t tm Hp Ht Hk Hd. cbn [step].
    rewrite (fire_due _ _ _ Ht Hd), Hk. unfold fire_poll.
    cbn [rearm set_timers sessions].
    destruct (sessions w2 !! u) as [s2|]; [|done].
    destruct (ready s2); [|done].
    fold (rearm t tm w2). rewrite clear_rearm. unfold resolve.
    cbn [clear_timer set_timers pending]. by rewrite Hp.
  - intros w2 t tm Hp Ht Hk. split.
    + intros dt Hen. cbn [step] in Hen.
      destruct (may_advance dt w2) eqn:Hadv; [|done].
      by eapply advance_respects_timers.
    + intros Hd. cbn [step]. rewrite (fire_due _ _ _ Ht Hd), Hk.
      rewrite (fire_wait_timeout_waiting _ _ _ u req); [done|exact Hp].
  - exact ready_at_5s_outcome.
  - exact ready_at_20s_outcome.
Qed.

Lemma C4_readiness_wait_witness :
  enters_gate (JStr alice) alice initial
  ∧ required_ok (JStr alice)
      (SendMessage (JStr "+91 98765 43210") (JStr "hi")) = true
  ∧ (∀ s, sessions initial !! alice = Some s → ready s = false)
  ∧ pending (send_handler 0%nat (JStr alice)
               (SendMessage (JStr "+91 98765 43210") (JStr "hi")) initial)
      !! 0%nat
    = Some (PWaitReady alice
              (SendMessage (JStr "+91 98765 43210") (JStr "hi"))).
Proof.
  split; [split; [reflexivity|right; split; reflexivity]|].
  split; [reflexivity|]. split; [intros s Hs; inversion Hs|].
  apply (C4_readiness_wait initial 0%nat (JStr alice) alice
           (SendMessage (JStr "+91 98765 43210") (JStr "hi"))).
  - split; [reflexivity|right; split; reflexivity].
  - reflexivity.
  - intros s Hs; inversion Hs.
Defined.

(** ** Invariants of the worlds the server can reach *)

Lemma run_reachable es : ∀ w w', reachable w → run w es = Done w' → reachable w'.
Proof.
  induction es as [|e es IH]; intros w w' Hw Hrun; cbn in Hrun.
  - by inversion Hrun; subst.
  - destruct (step w e) as [w1| |] eqn:Hstep; try discriminate.
    eapply IH; [|exact Hrun]. by eapply reach_step.
Qed.

Lemma wf_frame w w' : same_registry w w' → wf w → wf w'.
Proof.
  intros (Hs & Ho & Hn) [? ? ? ?]. split; by rewrite ?Hs, ?Ho, ?Hn.
Qed.

Lemma same_registry_trans w1 w2 w3 :
  same_registry w1 w2 → same_registry w2 w3 → same_registry w1 w3.
Proof. intros (? & ? & ?) (? & ? & ?). repeat split; congruence. Qed.

Lemma proceed_same_registry rid req c w : same_registry w (proceed rid req c w).
Proof. unfold proceed. repeat case_match; by repeat split. Qed.

Lemma start_wait_same_registry rid u req w :
  same_registry w (start_wait rid u req w).
Proof. by repeat split. Qed.

Lemma wf_install v u w :
  key_of v = Some u → good_key u = true → wf w → wf (install v u w).
Proof.
  intros Hk Hu [Ho Hc Hpo Hpe]. split; unfold install; cbn.
  - apply map_Forall_insert_2; [lia|].
    eapply map_Forall_impl; [exact Ho|]. cbn; intros; lia.
  - do 2 (apply map_Forall_insert_2; [cbn; lia|]).
    eapply map_Forall_impl; [exact Hc|]. cbn; intros; lia.
  - apply map_Forall_insert_2; [|done]. unfold good_id. by rewrite Hk.
  - by do 2 (apply map_Forall_insert_2; [done|]).
Qed.

Lemma wf_delete u w : wf w → wf (set_sessions (delete u) w).
Proof.
  intros [Ho Hc Hpo Hpe]. split; cbn; [done| |done|];
    by apply map_Forall_delete.
Qed.

Lemma wf_update u s s' w :
  wf w → sessions w !! u = Some s → client s' = client s →
  wf (set_sessions (<[u := s']>) w).
Proof.
  intros [Ho Hc Hpo Hpe] Hs Hcl. split; cbn; [done| |done|].
  - apply map_Forall_insert_2; [|done]. rewrite Hcl. by apply (Hc u s).
  - apply map_Forall_insert_2; [|done]. by apply (Hpe u s).
Qed.

Lemma no_entry_own u w : has_entry u w = false → proto_key u = false.
Proof. unfold has_entry. by destruct (sessions w !! u). Qed.

Lemma no_entry_none u w : has_entry u w = false → sessions w !! u = None.
Proof. unfold has_entry. by destruct (sessions w !! u). Qed.

Lemma wf_ensured v u w :
  key_of v = Some u → (has_entry u w = false → valid_client_id u = true) →
  wf w → wf (ensured v u w).
Proof.
  intros Hk Hv Hw. unfold ensured. destruct (has_entry u w) eqn:He; [done|].
  apply wf_install; [done| |done].
  unfold good_key. by rewrite (no_entry_own u w He), Hv.
Qed.

(** ** The ways a handler can go *)

(** [ensureClientReady]: [catch] answers 500 at once, or the session is
    looked up in the world [ensured] and the handler goes on or waits. *)
Lemma ensureClientReady_cases rid v req w :
  truthy v = true →
  (∃ msg, ensureClientReady rid v req w = respond rid 500 (BError msg) w)
  ∨ ∃ u, key_of v = Some u
         ∧ (has_entry u w = false → v = JStr u ∧ valid_client_id u = true)
         ∧ ((∃ c, ensureClientReady rid v req w
                  = proceed rid req c (ensured v u w))
            ∨ ensureClientReady rid v req w
              = start_wait rid u req (ensured v u w)).
Proof.
  intros Ht. unfold ensureClientReady.
  destruct (key_of v) as [u|] eqn:Hk; [|left; by eexists].
  destruct (has_entry u w) eqn:He.
  - right. exists u. unfold ensured. rewrite He.
    split; [done|]. split; [done|]. unfold gate.
    destruct (sessions w !! u) as [s|]; [|by right].
    destruct (ready s); [left; by eexists|by right].
  - destruct v; cbn [sessionExists]; try (left; by eexists).
    injection Hk as ->.
    assert (Heq : (if auth_exists u w then createClient (JStr u) w
                   else createClient (JStr u) w) = createClient (JStr u) w)
      by (by destruct (auth_exists u w)).
    rewrite Heq. unfold createClient. cbn [key_of]. rewrite Ht.
    destruct (valid_client_id u) eqn:Hv; [|left; by eexists].
    right. exists u. unfold ensured. rewrite He.
    split; [done|]. split; [done|].
    unfold gate. cbn [andb negb]. rewrite install_entry. by right.
Qed.

(** [start-session]: 400 for a falsy [userId]; an exception that leaves the
    handler; or the grace timer, set in the world [ensured]. *)
Lemma start_session_cases rid v w :
  (truthy v = false
   ∧ start_session rid v w
     = Done (respond rid 400 (BError "UserId required") w))
  ∨ (∃ msg, start_session rid v w = Thrown msg w)
  ∨ ∃ u, key_of v = Some u ∧ truthy v = true
         ∧ (has_entry u w = false → valid_client_id u = true)
         ∧ start_session rid v w
           = Done (set_timer 2000 (TGrace rid u) (ensured v u w)).
Proof.
  unfold start_session. destruct (truthy v) eqn:Ht; [|by left].
  right. destruct (key_of v) as [u|] eqn:Hk; [|left; by eexists].
  destruct (has_entry u w) eqn:He.
  - right. exists u. unfold ensured. rewrite He. by repeat split.
  - unfold createClient. rewrite Hk, Ht. cbn.
    destruct (valid_client_id u) eqn:Hv; cbn; [|left; by eexists].
    right. exists u. unfold ensured. rewrite He. by repeat split.
Qed.

(** [check-login]: a response in the world as it is, or "pending" after the
    session was created. *)
Lemma check_login_cases rid u w :
  u ≠ "" →
  (∃ code b, check_login rid u w = respond rid code b w)
  ∨ (sessions w !! u = None ∧ proto_key u = false
     ∧ valid_client_id u = true ∧ auth_exists u w = true
     ∧ check_login rid u w
       = respond rid 200 (BStatus "pending") (install (JStr u) u w)).
Proof.
  intros Hne. unfold check_login. destruct (sessions w !! u) as [s|].
  { left. destruct (ready s); by do 2 eexists. }
  destruct (proto_key u); [left; by do 2 eexists|].
  destruct (auth_exists u w); [|left; by do 2 eexists].
  unfold createClient. cbn [key_of].
  assert (Ht : truthy (JStr u) = true).
  { cbn. apply negb_true_iff. by apply String.eqb_neq. }
  rewrite Ht.
  destruct (valid_client_id u) eqn:Hv; [|left; by do 2 eexists].
  right. by repeat split.
Qed.

(** The ['disconnected'] callback returns only for a string [userId] that
    [LocalAuth] accepts; when it throws it has changed nothing, or set the
    flags and destroyed the client, or gone on to delete the entry. *)
Lemma on_disconnected_cases v u c w :
  key_of v = Some u →
  match on_disconnected v u c w with
  | Done w' =>
      ∃ s, sessions w !! u = Some s ∧ v = JStr u
           ∧ w' = install v u
                    (disc_delete u
                       (disc_rm_auth u (disc_destroy c (disc_flags u s w))))
  | Thrown _ w' =>
      w' = w
      ∨ ∃ s, sessions w !! u = Some s
             ∧ (w' = disc_destroy c (disc_flags u s w)
                ∨ w' = disc_delete u
                         (disc_rm_auth u
                            (disc_destroy c (disc_flags u s w))))
  | Disabled => False
  end.
Proof.
  intros Hk. unfold on_disconnected.
  destruct (sessions w !! u) as [s|] eqn:Hs; [|by left].
  destruct v; try (right; exists s; split; [done|by left]).
  injection Hk as ->.
  destruct (createClient_cases (JStr u)
              (disc_delete u
                 (disc_rm_auth u (disc_destroy c (disc_flags u s w)))))
    as [[msg ->]|(k & Hk & -> & _)].
  - right. exists s. split; [done|by right].
  - injection Hk as <-. by exists s.
Qed.

Lemma ensured_same_registry rid v u req w :
  key_of v = Some u →
  ensureClientReady rid v req w = start_wait rid u req (ensured v u w)
  ∨ (∃ c, ensureClientReady rid v req w = proceed rid req c (ensured v u w)) →
  same_registry (ensured v u w) (ensureClientReady rid v req w).
Proof.
  intros _ [->|[c ->]];
    [apply start_wait_same_registry|apply proceed_same_registry].
Qed.

Lemma required_truthy v req : required_ok v req = true → truthy v = true.
Proof. unfold required_ok. by intros [? _]%andb_prop. Qed.

(** In a disabled step [world_of] is the initial world, which starts every
    induction below. *)
Lemma wf_boot d : wf (boot d).
Proof. split; cbn; apply map_Forall_empty. Qed.

Lemma wf_initial : wf initial.
Proof. apply wf_boot. Qed.

Lemma reach_initial : reachable initial.
Proof. apply reach_boot. Qed.

Lemma wf_handle rid r w : wf w → wf (world_of (handle rid r w)).
Proof.
  intros Hw. destruct r as [v|u|v req]; cbn [handle].
  - destruct (start_session_cases rid v w)
      as [[_ ->]|[[msg ->]|(u & Hk & _ & Hv & ->)]]; cbn [world_of];
      [by apply (wf_frame w)|done|].
    apply (wf_frame (ensured v u w)); [by repeat split|by apply wf_ensured].
  - destruct (String.eqb_spec u "") as [->|Hne];
      [cbn [world_of]; by apply (wf_frame w)|].
    cbn [world_of]. destruct (check_login_cases rid u w Hne)
      as [(code & b & ->)|(Hs & Hp & Hv & _ & ->)]; [by apply (wf_frame w)|].
    apply (wf_frame (install (JStr u) u w)); [by repeat split|].
    apply wf_install; [done| |done]. unfold good_key. by rewrite Hp, Hv.
  - cbn [world_of]. unfold send_handler.
    destruct (required_ok v req) eqn:Hreq; [|by apply (wf_frame w)].
    destruct (ensureClientReady_cases rid v req w (required_truthy _ _ Hreq))
      as [[msg ->]|(u & Hk & Hv & Hgo)]; [by apply (wf_frame w)|].
    apply (wf_frame (ensured v u w)).
    + apply ensured_same_registry; [done|]. destruct Hgo; [by right|by left].
    + apply wf_ensured; [done| |done]. intros He. by apply Hv.
Qed.

Lemma wf_disc_flags u s c w :
  wf w → sessions w !! u = Some s → wf (disc_destroy c (disc_flags u s w)).
Proof.
  intros Hw Hs. unfold disc_destroy.
  apply (wf_frame (disc_flags u s w)); [done|].
  unfold disc_flags. by eapply wf_update.
Qed.

Lemma wf_disc_delete u s c w :
  wf w → sessions w !! u = Some s →
  wf (disc_delete u (disc_rm_auth u (disc_destroy c (disc_flags u s w)))).
Proof.
  intros Hw Hs. unfold disc_delete. apply wf_delete.
  apply (wf_frame (disc_destroy c (disc_flags u s w))).
  { unfold disc_rm_auth. case_match; by repeat split. }
  by apply wf_disc_flags.
Qed.

Lemma wf_on_backend v c ev w o :
  wf w → owner w !! c = Some v →
  on_backend v c ev w = o → wf (world_of o) ∨ o = Disabled.
Proof.
  intros Hw Hcv <-. left. unfold on_backend.
  pose proof (wf_own_owner w Hw c v Hcv) as Hgood. unfold good_id in Hgood.
  destruct (key_of v) as [u|] eqn:Hk; [|done].
  destruct ev; [| | done | |].
  - unfold on_qr. destruct (sessions w !! u) as [s|] eqn:Hs; [|done].
    by eapply wf_update.
  - unfold on_ready. destruct (sessions w !! u) as [s|] eqn:Hs; [|done].
    destruct (timeout s); cbn [world_of].
    + eapply (wf_update u s); [by apply (wf_frame w)|done..].
    + by eapply wf_update.
  - unfold on_auth_failure.
    destruct (sessions w !! u) as [s|] eqn:Hs; [|done].
    by eapply wf_update.
  - pose proof (on_disconnected_cases v u c w Hk) as Hd.
    destruct (on_disconnected v u c w) as [w'|msg w'|]; cbn [world_of];
      [| |done].
    + destruct Hd as (s & Hs & _ & ->).
      apply wf_install; [done..|]. by apply wf_disc_delete.
    + destruct Hd as [->|(s & Hs & [->| ->])];
        [done|by apply wf_disc_flags|by apply wf_disc_delete].
Qed.

Lemma wf_fire t w o : wf w → fire t w = o → wf (world_of o) ∨ o = Disabled.
Proof.
  intros Hw <-. unfold fire.
  destruct (timers w !! t) as [tm|]; [|by right].
  destruct (due tm <=? now w); [|by right]. left.
  destruct (kind tm) as [u c|rid u|rid u|rid i].
  - unfold fire_idle; cbn [clear_timer set_timers sessions].
    destruct (sessions w !! u) as [s|]; [|by apply (wf_frame w)].
    destruct (ready s); cbn [world_of]; [by apply (wf_frame w)|].
    apply wf_delete. by apply (wf_frame w).
  - unfold fire_grace; cbn [clear_timer set_timers sessions].
    repeat case_match; cbn [world_of]; by apply (wf_frame w).
  - cbn [world_of]. apply (wf_frame w); [|exact Hw].
    unfold fire_poll, resolve; cbn [set_timers sessions].
    repeat case_match; try by repeat split.
    eapply same_registry_trans; [|apply proceed_same_registry].
    by repeat split.
  - cbn [world_of]. apply (wf_frame w); [|exact Hw].
    unfold fire_wait_timeout, reject. repeat case_match; by repeat split.
Qed.

Lemma wf_step w e o : wf w → step w e = o → wf (world_of o) ∨ o = Disabled.
Proof.
  intros Hw Hstep. destruct e; cbn [step] in Hstep.
  - subst o. left. cbn [world_of]. apply wf_handle. by apply (wf_frame w).
  - destruct (owner w !! c) as [u|] eqn:Hcu; [|by right].
    by eapply wf_on_backend.
  - by eapply wf_fire.
  - destruct (may_advance dt w); subst o; [left|by right].
    by apply (wf_frame w).
  - subst o. unfold fetch_done. repeat case_match; try by right.
    all: left; by apply (wf_frame w).
  - subst o. unfold send_done. repeat case_match; try by right.
    all: left; by apply (wf_frame w).
  - subst o. unfold qr_done. repeat case_match; try by right.
    all: left; by apply (wf_frame w).
  - destruct (may_create p w); subst o; [left|by right].
    by apply (wf_frame w).
Qed.

Lemma reachable_wf w : reachable w → wf w.
Proof.
  induction 1 as [d|w e w' _ IH Hstep]; [apply wf_boot|].
  destruct (wf_step w e _ IH Hstep) as [Hw|]; [exact Hw|discriminate].
Qed.

(** ** Ready sessions carry no QR payload *)

Lemma qr_step_refl m : qr_step m m.
Proof. intros u s' Hs _. by right. Qed.

Lemma qr_step_same w w' :
  same_registry w w' → qr_step (sessions w) (sessions w').
Proof. intros (-> & _). apply qr_step_refl. Qed.

Lemma qr_step_trans m1 m2 m3 : qr_step m1 m2 → qr_step m2 m3 → qr_step m1 m3.
Proof.
  intros H12 H23 u s' Hs Hr.
  destruct (H23 u s' Hs Hr) as [?|Hs2]; [by left|]. by apply H12.
Qed.

Lemma qr_step_insert m m1 u s :
  qr_step m m1 → (ready s = true → lastQR s = None) →
  qr_step m (<[u := s]> m1).
Proof.
  intros Hm Hs v s' Hv Hr. destruct (decide (u = v)) as [->|Hne].
  - rewrite lookup_insert_eq in Hv. inversion Hv; subst. left. by apply Hs.
  - rewrite lookup_insert_ne in Hv by done. by apply Hm.
Qed.

Lemma qr_step_delete m m1 u : qr_step m m1 → qr_step m (delete u m1).
Proof.
  intros Hm v s' Hv Hr. apply lookup_delete_Some in Hv as [_ Hv].
  by apply Hm.
Qed.

Lemma qr_clear_step m m' : qr_clear m → qr_step m m' → qr_clear m'.
Proof.
  intros Hc Hst u s Hs Hr. destruct (Hst u s Hs Hr) as [?|Hm]; [done|].
  by apply (Hc u s).
Qed.

Lemma qr_step_install v u w :
  qr_step (sessions w) (sessions (install v u w)).
Proof.
  unfold install; cbn.
  do 2 (apply qr_step_insert; [|cbn; discriminate]). apply qr_step_refl.
Qed.

Lemma qr_step_ensured v u w :
  qr_step (sessions w) (sessions (ensured v u w)).
Proof.
  unfold ensured. destruct (has_entry u w);
    [apply qr_step_refl | apply qr_step_install].
Qed.

Lemma qr_step_handle rid r w :
  qr_step (sessions w) (sessions (world_of (handle rid r w))).
Proof.
  destruct r as [v|u|v req]; cbn [handle].
  - destruct (start_session_cases rid v w)
      as [[_ ->]|[[msg ->]|(u & Hk & _ & Hv & ->)]]; cbn [world_of];
      [apply qr_step_refl..|].
    apply (qr_step_ensured v u w).
  - destruct (String.eqb_spec u "") as [->|Hne];
      [cbn [world_of]; apply qr_step_refl|].
    cbn [world_of]. destruct (check_login_cases rid u w Hne)
      as [(code & b & ->)|(Hs & Hp & Hv & _ & ->)]; [apply qr_step_refl|].
    apply (qr_step_install (JStr u) u w).
  - cbn [world_of]. unfold send_handler.
    destruct (required_ok v req) eqn:Hreq; [|apply qr_step_refl].
    destruct (ensureClientReady_cases rid v req w (required_truthy _ _ Hreq))
      as [[msg ->]|(u & Hk & Hv & Hgo)]; [apply qr_step_refl|].
    eapply qr_step_trans; [apply (qr_step_ensured v u)|].
    apply qr_step_same, ensured_same_registry; [done|].
    destruct Hgo; [by right|by left].
Qed.

Lemma disc_flags_sessions u s c w :
  sessions (disc_destroy c (disc_flags u s w))
  = <[u := mkSession (client s) false (lastQR s) false (timeout s)]>
      (sessions w).
Proof. done. Qed.

Lemma disc_delete_sessions u s c w :
  sessions (disc_delete u (disc_rm_auth u (disc_destroy c (disc_flags u s w))))
  = delete u (sessions w).
Proof.
  unfold disc_delete, disc_rm_auth.
  case_match; cbn; apply delete_insert_eq.
Qed.

Lemma qr_step_on_backend v c ev w :
  qr_step (sessions w) (sessions (world_of (on_backend v c ev w))).
Proof.
  unfold on_backend. destruct (key_of v) as [u|] eqn:Hk; [|apply qr_step_refl].
  destruct ev; [| | apply qr_step_refl | |].
  - unfold on_qr. destruct (sessions w !! u) as [s|]; [|apply qr_step_refl].
    apply qr_step_insert; [apply qr_step_refl|cbn; discriminate].
  - unfold on_ready. destruct (sessions w !! u) as [s|]; [|apply qr_step_refl].
    destruct (timeout s); cbn;
      (apply qr_step_insert; [apply qr_step_refl|done]).
  - unfold on_auth_failure.
    destruct (sessions w !! u) as [s|]; [|apply qr_step_refl].
    apply qr_step_insert; [apply qr_step_refl|cbn; discriminate].
  - pose proof (on_disconnected_cases v u c w Hk) as Hd.
    destruct (on_disconnected v u c w) as [w'|msg w'|]; cbn [world_of];
      [| |done].
    + destruct Hd as (s & Hs & _ & ->).
      eapply qr_step_trans; [|apply qr_step_install].
      rewrite disc_delete_sessions. apply qr_step_delete, qr_step_refl.
    + destruct Hd as [->|(s & Hs & [->| ->])]; [apply qr_step_refl| |].
      * rewrite disc_flags_sessions.
        apply qr_step_insert; [apply qr_step_refl|cbn; discriminate].
      * rewrite disc_delete_sessions. apply qr_step_delete, qr_step_refl.
Qed.

Lemma qr_step_fire t w : qr_step (sessions w) (sessions (world_of (fire t w))).
Proof.
  unfold fire.
  destruct (timers w !! t) as [tm|]; [|intros ? ? Hs; inversion Hs].
  destruct (due tm <=? now w); [|intros ? ? Hs; inversion Hs].
  destruct (kind tm) as [u c|rid u|rid u|rid i].
  - unfold fire_idle; cbn [clear_timer set_timers sessions].
    destruct (sessions w !! u) as [s|]; [|apply qr_step_refl].
    destruct (ready s); cbn; [apply qr_step_refl|].
    apply qr_step_delete, qr_step_refl.
  - unfold fire_grace; cbn [clear_timer set_timers sessions].
    repeat case_match; apply qr_step_refl.
  - cbn [world_of]. apply qr_step_same.
    unfold fire_poll, resolve; cbn [set_timers sessions].
    repeat case_match; try by repeat split.
    eapply same_registry_trans; [|apply proceed_same_registry].
    by repeat split.
  - cbn [world_of]. apply qr_step_same.
    unfold fire_wait_timeout, reject. repeat case_match; by repeat split.
Qed.

(** In a disabled step [world_of] is the initial world, whose registry is
    empty. *)
Lemma qr_step_step w e : qr_step (sessions w) (sessions (world_of (step w e))).
Proof.
  destruct e; cbn [step].
  - apply (qr_step_handle (nextReq w) r (bump_req w)).
  - destruct (owner w !! c) as [u|]; [apply qr_step_on_backend|].
    intros ? ? Hs; inversion Hs.
  - apply qr_step_fire.
  - destruct (may_advance dt w); [apply qr_step_refl|].
    intros ? ? Hs; inversion Hs.
  - unfold fetch_done. repeat case_match; try apply qr_step_refl;
      intros ? ? Hs; inversion Hs.
  - unfold send_done. repeat case_match; try apply qr_step_refl;
      intros ? ? Hs; inversion Hs.
  - unfold qr_done. repeat case_match; try apply qr_step_refl;
      intros ? ? Hs; inversion Hs.
  - destruct (may_create p w); [apply qr_step_refl|].
    intros ? ? Hs; inversion Hs.
Qed.

Lemma qr_clear_run es : ∀ w,
  qr_clear (sessions w) → qr_clear (sessions (world_of (run w es))).
Proof.
  induction es as [|e es IH]; intros w Hw; [done|]. cbn [run].
  pose proof (qr_step_step w e) as Hst.
  destruct (step w e) as [w1|msg w1|]; cbn [world_of] in *.
  - apply IH. by eapply qr_clear_step.
  - by eapply qr_clear_step.
  - intros ? ? Hs; inversion Hs.
Qed.

(** C7: the ['ready'] callback sets [ready] and clears [lastQR] in the same
    call; no step of the server turns an entry ready without its [lastQR]
    being null afterwards; hence in every world a run from the initial
    world reaches (also one in which a callback threw) every ready session
    has [lastQR] null. *)
Theorem C7_ready_clears_lastQR :
  (∀ (w : World) (c : ClientId) (userId : JValue) (u : string) (s : Session),
     owner w !! c = Some userId → key_of userId = Some u →
     sessions w !! u = Some s →
     ∃ w', step w (Backend c EvReady) = Done w'
           ∧ sessions w' !! u = Some (mkSession (client s) true None false None))
  ∧ (∀ (w : World) (e : Event) (w' : World) (u : string) (s' : Session),
       step w e = Done w' →
       (∀ s, sessions w !! u = Some s → ready s = false) →
       sessions w' !! u = Some s' → ready s' = true → lastQR s' = None)
  ∧ (∀ (d : Path) (es : list Event) (u : string) (s : Session),
       sessions (world_of (run (boot d) es)) !! u = Some s →
       ready s = true → lastQR s = None).
Proof.
  split; [|split].
  - intros w c v u s Ho Hk Hs. cbn [step]. rewrite Ho. unfold on_backend.
    rewrite Hk. unfold on_ready. rewrite Hs.
    destruct (timeout s); eexists; (split; [reflexivity|]);
      cbn; apply lookup_insert_eq.
  - intros w e w' u s' Hstep Hnr Hs' Hr'.
    pose proof (qr_step_step w e) as Hst. rewrite Hstep in Hst.
    destruct (Hst u s' Hs' Hr') as [?|Hold]; [done|].
    rewrite (Hnr s' Hold) in Hr'. discriminate.
  - intros d es u s. apply (qr_clear_run es (boot d)).
    intros v s0 Hv. inversion Hv.
Qed.

Lemma C7_ready_clears_lastQR_witness :
  owner scanned_world !! 0%nat = Some (JStr alice)
  ∧ sessions scanned_world !! alice
    = Some (mkSession 0%nat false (Some "2@qr-payload") true (Some 0%nat))
  ∧ ∃ w', step scanned_world (Backend 0%nat EvReady) = Done w'
          ∧ sessions w' !! alice
            = Some (mkSession 0%nat true None false None).
Proof.
  split; [vm_compute; reflexivity|]. split; [vm_compute; reflexivity|].
  apply (proj1 C7_ready_clears_lastQR scanned_world 0%nat (JStr alice) alice
           (mkSession 0%nat false (Some "2@qr-payload") true (Some 0%nat)));
    vm_compute; reflexivity.
Defined.

(** ** Paths of accepted ids *)

Lemma all_word_segments s : all_word s = true → segments s = [s].
Proof.
  induction s as [|a r IH]; cbn; [done|]. intros [Ha Hr]%andb_prop.
  destruct (Ascii.eqb_spec a slash) as [->|_]; [discriminate Ha|].
  by rewrite (IH Hr).
Qed.

Lemma valid_walk u stack :
  valid_client_id u = true → walk stack u = u :: stack.
Proof.
  unfold valid_client_id, walk. intros [Hne Hw]%andb_prop.
  destruct u as [|a r]; [discriminate Hne|]. cbn in Hw.
  apply andb_prop in Hw as [Ha Hr].
  destruct (Ascii.eqb_spec a ".") as [->|Hdot]; [discriminate Ha|].
  assert (E1 : String.eqb (String a r) "." = false).
  { apply String.eqb_neq. intros [= ? _]. done. }
  assert (E2 : String.eqb (String a r) ".." = false).
  { apply String.eqb_neq. intros [= ? _]. done. }
  by rewrite E1, E2.
Qed.

(** For an id that [LocalAuth] accepts, [path.join] has nothing to
    normalise: the path is the directory of that name in the auth store. *)
Lemma valid_auth_path u w :
  valid_client_id u = true → auth_path u w = auth_root w ++ [u].
Proof.
  intros Hv. unfold auth_path, normalize.
  pose proof Hv as [_ Hw]%andb_prop. rewrite (all_word_segments u Hw).
  cbn [fold_left]. rewrite (valid_walk u _ Hv). cbn [rev].
  by rewrite rev_involutive.
Qed.

(** ** Disconnects *)

Lemma auth_exists_rm_rf u w : auth_exists u (rm_rf (auth_path u w) w) = false.
Proof.
  unfold auth_exists, rm_rf, auth_path, auth_root; cbn.
  match goal with
  | |- _ && match ?l with _ => _ end = _ =>
      assert (Hnone : l = None); [|by rewrite Hnone, andb_false_r]
  end.
  apply map_lookup_filter_None. right. intros x _ Hnot. by apply Hnot.
Qed.

Lemma disc_rm_auth_spec u w :
  auth_exists u (disc_rm_auth u w) = false
  ∧ log (disc_rm_auth u w)
    = log w ++ (if auth_exists u w then [ERmAuth u] else [])
  ∧ nextTimer (disc_rm_auth u w) = nextTimer w
  ∧ same_registry w (disc_rm_auth u w).
Proof.
  unfold disc_rm_auth. destruct (auth_exists u w) eqn:Hin.
  - split; [|by repeat split]. apply (auth_exists_rm_rf u w).
  - split; [done|]. rewrite app_nil_r. by repeat split.
Qed.

Lemma check_login_pending rid u w s :
  sessions w !! u = Some s → ready s = false →
  check_login rid u w = respond rid 200 (BStatus "pending") w.
Proof. intros Hs Hr. unfold check_login. by rewrite Hs, Hr. Qed.

Lemma reachable_valid_owner w c v :
  reachable w → owner w !! c = Some v →
  ∃ u, key_of v = Some u ∧ proto_key u = false ∧ valid_client_id u = true.
Proof.
  intros Hreach Ho. pose proof (reachable_wf w Hreach) as [_ _ Hgood _].
  specialize (Hgood c v Ho). cbn in Hgood. unfold good_id in Hgood.
  destruct (key_of v) as [u|]; [|done]. exists u.
  unfold good_key in Hgood. apply andb_prop in Hgood as [Hp Hv].
  by apply negb_true_iff in Hp.
Qed.

(** C3 fails for a [userId] that is not a string. [POST /start-session]
    with the JSON number 123 registers a session under the key "123"; when
    its client is disconnected the callback sets the flags and destroys the
    client, and then [path.join] throws: the entry is not removed, no new
    client is constructed, and the registry keeps a session whose client is
    destroyed. *)
Theorem C3_disconnect_of_a_numeric_userId :
  ∃ w1 w',
    run initial numeric_id_run = Done w1
    ∧ owner w1 !! 0%nat = Some (JNum 123)
    ∧ sessions w1 !! "123" = Some (mkSession 0%nat true None false None)
    ∧ step w1 (Backend 0%nat (EvDisconnected "LOGOUT"))
      = Thrown (path_type_error (JNum 123)) w'
    ∧ log w' = log w1 ++ [EDestroy 0%nat]
    ∧ sessions w' !! "123" = Some (mkSession 0%nat false None false None)
    ∧ constructs w' = [0%nat]
    ∧ files (disk w') = files (disk w1).
Proof.
  do 2 eexists. split; [vm_compute; reflexivity|].
  split; [vm_compute; reflexivity|]. split; [vm_compute; reflexivity|].
  split; [vm_compute; reflexivity|]. by vm_compute.
Qed.

(** X17: the ['disconnected'] callback of a session whose [userId] is a
    string runs, in this order: [client.destroy()] on the session's handle;
    removal of the directory [.wwebjs_auth/<userId>] when it exists; removal
    of the registry entry; [createClient] for the same userId. Afterwards
    the directory is absent and the registry holds a new entry for the
    userId, not ready, without QR, with a client that did not exist before.
    A status check then answers "pending", and once the new client has
    emitted its QR the start-session callback renders that QR. *)
Theorem X17_disconnect_of_a_string_userId :
  ∀ (w : World) (u : string) (c : ClientId) (s : Session) (reason : string),
    reachable w →
    owner w !! c = Some (JStr u) → sessions w !! u = Some s → client s = c →
    let w1 := disc_destroy c (disc_flags u s w) in
    let w2 := disc_rm_auth u w1 in
    let w3 := disc_delete u w2 in
    let w4 := install (JStr u) u w3 in
    let c' := nextClient w in
    step w (Backend c (EvDisconnected reason)) = Done w4
    ∧ log w1 = log w ++ [EDestroy (client s)]
    ∧ (log w2 = log w1 ++ (if auth_exists u w then [ERmAuth u] else [])
       ∧ auth_exists u w2 = false ∧ is_Some (sessions w2 !! u))
    ∧ (log w3 = log w2 ∧ sessions w3 !! u = None)
    ∧ (log w4 = log w3 ++ [EConstruct c' u; EInitialize c']
       ∧ sessions w4 !! u = Some (mkSession c' false None true (Some (nextTimer w)))
       ∧ c' ≠ c ∧ owner w !! c' = None ∧ owner w4 !! c' = Some (JStr u)
       ∧ auth_exists u w4 = false)
    ∧ (∀ v, v ≠ u → sessions w4 !! v = sessions w !! v)
    ∧ (∀ rid, check_login rid u w4 = respond rid 200 (BStatus "pending") w4)
    ∧ (∀ rid qr, qr ≠ "" →
         ∃ w5, step w4 (Backend c' (EvQr qr)) = Done w5
               ∧ fire_grace rid u w5
                 = Done (set_pending (<[rid := PQr]>)
                           (emit (EQrRender rid qr) w5))).
Proof.
  intros w u c s reason Hreach Ho Hs Hc w1 w2 w3 w4 c'.
  destruct (disc_rm_auth_spec u w1) as (Hnot & Hlog2 & Ht2 & Hs2 & Ho2 & Hn2).
  fold w2 in Hnot, Hlog2, Ht2, Hs2, Ho2, Hn2.
  pose proof (reachable_wf w Hreach) as [Hwo _ _ _].
  destruct (reachable_valid_owner w c _ Hreach Ho) as (k & [= <-] & _ & Hvalid).
  assert (Hw4 : sessions w4 !! u
                = Some (mkSession c' false None true (Some (nextTimer w)))).
  { unfold w4. rewrite install_entry. unfold w3, disc_delete; cbn.
    by rewrite Hn2, Ht2. }
  split; [|split; [|split; [|split; [|split; [|split; [|split]]]]]].
  - cbn [step]. rewrite Ho. unfold on_backend. cbn [key_of].
    unfold on_disconnected. rewrite Hs. fold w1 w2 w3.
    by rewrite (createClient_ok (JStr u) u).
  - unfold w1; cbn. by rewrite Hc.
  - split; [exact Hlog2|]. split; [exact Hnot|].
    rewrite Hs2. unfold w1; cbn. rewrite lookup_insert_eq. by eexists.
  - split; [done|]. unfold w3, disc_delete; cbn. apply lookup_delete_eq.
  - split.
    { unfold w4. rewrite install_log. unfold w3, disc_delete; cbn.
      by rewrite Hn2. }
    split; [exact Hw4|].
    split.
    { intros Heq. specialize (Hwo c _ Ho). cbn in Hwo. unfold c' in Heq. lia. }
    split.
    { destruct (owner w !! c') as [v|] eqn:Hv; [|done].
      specialize (Hwo c' v Hv). cbn in Hwo. unfold c' in Hwo. lia. }
    split.
    { unfold w4, install; cbn. rewrite Hn2. apply lookup_insert_eq. }
    exact Hnot.
  - intros v Hv. unfold w4, install; cbn.
    rewrite !lookup_insert_ne by done. unfold w3, disc_delete; cbn.
    rewrite lookup_delete_ne by done. rewrite Hs2. unfold w1; cbn.
    by rewrite lookup_insert_ne.
  - intros rid. by eapply check_login_pending.
  - intros rid qr Hqr. eexists. split.
    + cbn [step].
      assert (Ho4 : owner w4 !! c' = Some (JStr u)).
      { unfold w4, install; cbn. rewrite Hn2. apply lookup_insert_eq. }
      rewrite Ho4. unfold on_backend. cbn [key_of]. unfold on_qr.
      by rewrite Hw4.
    + unfold fire_grace; cbn [set_sessions sessions].
      rewrite lookup_insert_eq. cbn [ready lastQR].
      apply String.eqb_neq in Hqr. by rewrite Hqr.
Qed.

Lemma ready_world_reachable : reachable ready_world.
Proof.
  apply (run_reachable ready_run initial); [apply reach_initial|].
  vm_compute. reflexivity.
Qed.

Lemma X17_disconnect_of_a_string_userId_witness :
  owner ready_world !! 0%nat = Some (JStr alice)
  ∧ sessions ready_world !! alice
    = Some (mkSession 0%nat true None false None)
  ∧ auth_exists alice ready_world = true
  ∧ ∃ w4, step ready_world (Backend 0%nat (EvDisconnected "LOGOUT")) = Done w4
          ∧ sessions w4 !! alice
            = Some (mkSession 1%nat false None true (Some 2%nat))
          ∧ auth_exists alice w4 = false.
Proof.
  split; [vm_compute; reflexivity|]. split; [vm_compute; reflexivity|].
  split; [vm_compute; reflexivity|].
  destruct (X17_disconnect_of_a_string_userId ready_world alice 0%nat
              (mkSession 0%nat true None false None) "LOGOUT"
              ready_world_reachable)
    as (Hstep & _ & _ & _ & (_ & Hnew & _ & _ & _ & Hauth) & _).
  - vm_compute; reflexivity.
  - vm_compute; reflexivity.
  - reflexivity.
  - eexists. split; [exact Hstep|]. split; [exact Hnew|exact Hauth].
Defined.

(** ** Creation is guarded by its callers *)

Lemma constructs_proceed rid req c w :
  constructs (proceed rid req c w) = constructs w.
Proof.
  unfold proceed, respond, constructs.
  repeat case_match; cbn; rewrite omap_app; cbn; by rewrite app_nil_r.
Qed.

(** [createClient] itself does not look at the registry: called for a
    userId that has an entry it would replace the entry and construct
    another client. No caller does so. *)
Lemma createClient_unguarded v u w s :
  key_of v = Some u → valid_client_id u = true →
  sessions w !! u = Some s →
  ∃ w1, createClient v w = inr w1
        ∧ sessions w1 !! u
          = Some (mkSession (nextClient w) false None true
                    (Some (nextTimer w)))
        ∧ constructs w1 = constructs w ++ [nextClient w].
Proof.
  intros Hk Hv _. exists (install v u w).
  split; [by apply createClient_ok|]. split; [apply install_entry|].
  unfold constructs. rewrite install_log, omap_app. reflexivity.
Qed.

(** C5: the registry maps a userId to at most one session, and a request
    for a userId that already has an entry (start-session, check-login or
    any send, whatever JSON value the userId is) leaves the whole registry
    as it is and constructs no client: every handler calls [createClient]
    only behind [!sessions[userId]]. *)
Theorem C5_one_session_per_user :
  ∀ (w : World) (r : Request) (u : string) (s : Session),
    key_of (user_of r) = Some u →
    sessions w !! u = Some s →
    ∃ w', step w (Http r) = Done w'
          ∧ sessions w' = sessions w
          ∧ sessions w' !! u = Some s
          ∧ constructs w' = constructs w
          ∧ nextClient w' = nextClient w
          ∧ (∀ s1 s2, sessions w' !! u = Some s1 → sessions w' !! u = Some s2 →
                      s1 = s2).
Proof.
  intros w r u s Hu Hs.
  assert (Hsame : ∃ w', handle (nextReq w) r (bump_req w) = Done w'
                        ∧ sessions w' = sessions w
                        ∧ constructs w' = constructs w
                        ∧ nextClient w' = nextClient w).
  { destruct r as [v|k|v req]; cbn in Hu; cbn [handle].
    - unfold start_session. rewrite Hu.
      destruct (truthy v); [|eexists; split; [done|]];
        [|by rewrite constructs_respond].
      unfold has_entry; cbn [bump_req sessions]. rewrite Hs.
      by eexists.
    - injection Hu as ->.
      destruct (String.eqb_spec u "") as [->|_];
        [eexists; split; [done|]; by rewrite constructs_respond|].
      eexists. split; [done|].
      unfold check_login; cbn [bump_req sessions]. rewrite Hs.
      destruct (ready s); by rewrite constructs_respond.
    - eexists. split; [done|]. unfold send_handler.
      destruct (required_ok v req); [|by rewrite constructs_respond].
      rewrite (ensureClientReady_entry _ _ u _ _ s) by done.
      destruct (ready s); [|done].
      rewrite constructs_proceed.
      by destruct (proceed_same_registry (nextReq w) req (client s)
                     (bump_req w)) as (-> & _ & ->). }
  destruct Hsame as (w' & Hstep & Hsess & Hcon & Hnext).
  exists w'. split; [exact Hstep|].
  rewrite Hsess. repeat split; try done. congruence.
Qed.

Lemma C5_one_session_per_user_witness :
  key_of (user_of (StartSession (JStr alice))) = Some alice
  ∧ sessions ready_world !! alice = Some (mkSession 0%nat true None false None)
  ∧ ∃ w', step ready_world (Http (StartSession (JStr alice))) = Done w'
          ∧ sessions w' = sessions ready_world.
Proof.
  split; [reflexivity|]. split; [vm_compute; reflexivity|].
  destruct (C5_one_session_per_user ready_world (StartSession (JStr alice))
              alice (mkSession 0%nat true None false None))
    as (w' & Hstep & Hsess & _).
  - reflexivity.
  - vm_compute; reflexivity.
  - exists w'. by split.
Defined.

(** ** The idle timer *)

Lemma never_scanned_outcome :
  ∃ w', run initial never_scanned_run = Done w'
        ∧ now w' = 120000
        ∧ sessions w' = ∅
        ∧ log w' = [EConstruct 0%nat alice; EInitialize 0%nat;
                    ERespond 0%nat 200 (BStatus "pending");
                    EDestroy 0%nat].
Proof. eexists. split; [vm_compute; reflexivity|]. repeat split. Qed.

(** C6 (amended): [createClient] arms a timer that is due 2 minutes later
    and closes over the userId and the new client. Whenever that timer is
    pending while the userId's entry still holds that client and is not
    ready, time cannot pass the deadline without the timer running, and when
    it runs the client is destroyed, the entry of the userId is removed and
    no client is constructed. A session started and never scanned is gone at
    120 s, its client destroyed once. *)
Theorem C6_idle_timeout :
  ∀ (w : World) (u : string),
    let c := nextClient w in
    let t := nextTimer w in
    let deadline := now w + 2 * 60 * 1000 in
    (∀ (userId : JValue) (w1 : World),
       key_of userId = Some u → createClient userId w = inr w1 →
       timers w1 !! t = Some (mkTimer deadline (TIdle u c))
       ∧ sessions w1 !! u = Some (mkSession c false None true (Some t)))
    ∧ (∀ (w2 : World) (s : Session),
         timers w2 !! t = Some (mkTimer deadline (TIdle u c)) →
         sessions w2 !! u = Some s → client s = c → ready s = false →
         (∀ dt, step w2 (Advance dt) ≠ Disabled → now w2 + dt ≤ deadline)
         ∧ (deadline ≤ now w2 →
            ∃ w3, step w2 (Fire t) = Done w3
                  ∧ log w3 = log w2 ++ [EDestroy (client s)]
                  ∧ sessions w3 = delete u (sessions w2)
                  ∧ sessions w3 !! u = None
                  ∧ constructs w3 = constructs w2
                  ∧ nextClient w3 = nextClient w2
                  ∧ timers w3 = delete t (timers w2)))
    ∧ (∃ w', run initial never_scanned_run = Done w'
             ∧ now w' = 120000
             ∧ sessions w' = ∅
             ∧ log w' = [EConstruct 0%nat alice; EInitialize 0%nat;
                         ERespond 0%nat 200 (BStatus "pending");
                         EDestroy 0%nat]).
Proof.
  intros w u c t deadline. split; [|split].
  - intros v w1 Hk Hcreate. rewrite (createClient_inr v u w w1 Hk Hcreate).
    split; [|apply install_entry].
    unfold install; cbn. apply lookup_insert_eq.
  - intros w2 s Ht Hs Hc Hr. split.
    + intros dt Hen. cbn [step] in Hen.
      destruct (may_advance dt w2) eqn:Hadv; [|done].
      apply (advance_respects_timers w2 dt t _ Hadv Ht).
    + intros Hd. eexists. split.
      * cbn [step]. rewrite (fire_due _ _ _ Ht Hd). cbn [kind].
        unfold fire_idle; cbn [clear_timer set_timers sessions].
        rewrite Hs, Hr. reflexivity.
      * cbn. rewrite Hc. repeat split; try done.
        -- apply lookup_delete_eq.
        -- unfold constructs; cbn. rewrite omap_app; cbn. apply app_nil_r.
  - exact never_scanned_outcome.
Qed.

Lemma C6_idle_timeout_witness :
  timers before_deadline_world !! 0%nat
  = Some (mkTimer 120000 (TIdle alice 0%nat))
  ∧ sessions before_deadline_world !! alice
    = Some (mkSession 0%nat false (Some "2@qr-payload") true (Some 0%nat))
  ∧ ∃ w3, step before_deadline_world (Fire 0%nat) = Done w3
          ∧ log w3 = log before_deadline_world ++ [EDestroy 0%nat]
          ∧ sessions w3 !! alice = None.
Proof.
  split; [vm_compute; reflexivity|]. split; [vm_compute; reflexivity|].
  destruct (proj1 (proj2 (C6_idle_timeout (bump_req initial) alice))
              before_deadline_world
              (mkSession 0%nat false (Some "2@qr-payload") true (Some 0%nat)))
    as [_ Hfire].
  - vm_compute; reflexivity.
  - vm_compute; reflexivity.
  - reflexivity.
  - reflexivity.
  - destruct Hfire as (w3 & Hstep & Hlog & _ & Hgone & _).
    + vm_compute. discriminate.
    + exists w3. by repeat split.
Defined.

(** C6, as stated, fails: the session created at 0 s never becomes ready,
    and at 60 s a replacement with a second client is registered for it by
    the disconnect callback. The first session's idle timer then runs at
    120 s against the replacement: it destroys client 0 once more, removes
    the replacement's entry and leaves client 1 undestroyed; the
    replacement's own timer at 180 s finds no entry and throws. *)
Lemma C6_counterexample :
  run initial early_disconnect_run = Done replaced_world
  ∧ now replaced_world = 60000
  ∧ constructs replaced_world = [0%nat; 1%nat]
  ∧ sessions replaced_world !! alice
    = Some (mkSession 1%nat false None true (Some 2%nat))
  ∧ run replaced_world [Advance 60000; Fire 0%nat] = Done stale_timer_world
  ∧ sessions stale_timer_world !! alice = None
  ∧ log stale_timer_world
    = [EConstruct 0%nat alice; EInitialize 0%nat;
       ERespond 0%nat 200 (BStatus "pending"); EDestroy 0%nat;
       EConstruct 1%nat alice; EInitialize 1%nat; EDestroy 0%nat]
  ∧ ∃ w, run stale_timer_world [Advance 60000; Fire 2%nat]
         = Thrown type_error_undefined w.
Proof.
  repeat (split; [vm_compute; reflexivity|]).
  eexists. vm_compute. reflexivity.
Qed.

(** ** The grace delay of start-session *)

(** C9, as stated, fails for a disconnect: the session of the request is
    removed during the delay, the disconnect callback registers its
    replacement at once, and the start-session callback answers
    "pending". *)
Lemma C9_counterexample :
  (∃ w1, run initial (take 3 grace_after_disconnect_run) = Done w1
         ∧ now w1 = 1000
         ∧ log w1 = [EConstruct 0%nat alice; EInitialize 0%nat;
                     EDestroy 0%nat;
                     EConstruct 1%nat alice; EInitialize 1%nat]
         ∧ sessions w1 !! alice
           = Some (mkSession 1%nat false None true (Some 2%nat)))
  ∧ ∃ w, run initial grace_after_disconnect_run = Done w
         ∧ now w = 2000
         ∧ responses w = [(0%nat, 200, BStatus "pending")].
Proof.
  split; eexists; (split; [vm_compute; reflexivity|]); repeat split.
Qed.

Lemma grace_after_idle_outcome :
  ∃ w', run initial grace_after_idle_run = Thrown type_error_undefined w'
        ∧ now w' = 121000
        ∧ sessions w' !! alice = None
        ∧ responses w' = [(0%nat, 200, BStatus "pending")].
Proof. eexists. split; [vm_compute; reflexivity|]. repeat split. Qed.

(** C9 (amended): the start-session callback reads [sessions[userId]]
    without checking it. When the registry has no entry for the userId at
    the moment the callback runs (the idle timer removed it during the
    delay) the callback throws a TypeError and no response is sent. A
    disconnect during the delay leaves an entry: for a userId that is a
    string it is the replacement, and the callback then answers
    "pending". *)
Theorem C9_grace_reads_unchecked :
  ∀ (w : World) (rid : ReqId) (u : string),
    proto_key u = false →
    (∀ (t : TimerId) (d : Z),
       timers w !! t = Some (mkTimer d (TGrace rid u)) → d ≤ now w →
       sessions w !! u = None →
       step w (Fire t) = Thrown type_error_undefined (clear_timer t w)
       ∧ responses (clear_timer t w) = responses w)
    ∧ (∀ (userId : JValue) (c : ClientId) (s : Session) (reason : string),
         key_of userId = Some u → valid_client_id u = true →
         sessions w !! u = Some s →
         is_Some (sessions (world_of (on_backend userId c
                                        (EvDisconnected reason) w)) !! u)
         ∧ (userId = JStr u →
            ∃ w1, on_backend userId c (EvDisconnected reason) w = Done w1
                  ∧ fire_grace rid u w1
                    = Done (respond rid 200 (BStatus "pending") w1)))
    ∧ (∃ w', run initial grace_after_idle_run = Thrown type_error_undefined w'
             ∧ now w' = 121000
             ∧ sessions w' !! alice = None
             ∧ responses w' = [(0%nat, 200, BStatus "pending")]).
Proof.
  intros w rid u Hproto. split; [|split].
  - intros t d Ht Hd Hs. split; [|reflexivity].
    cbn [step]. rewrite (fire_due _ _ _ Ht Hd). cbn [kind].
    unfold fire_grace; cbn [clear_timer set_timers sessions].
    by rewrite Hs, Hproto.
  - intros v c s reason Hk Hv Hs. unfold on_backend. rewrite Hk.
    unfold on_disconnected. rewrite Hs.
    destruct v; cbn [world_of];
      try (split; [by rewrite disc_flags_sessions, lookup_insert_eq|done]).
    injection Hk as ->. rewrite (createClient_ok (JStr u) u) by done.
    cbn [world_of]. rewrite install_entry. split; [by eexists|].
    intros _. eexists. split; [done|].
    unfold fire_grace. by rewrite install_entry.
  - exact grace_after_idle_outcome.
Qed.

Lemma C9_grace_reads_unchecked_witness :
  proto_key alice = false
  ∧ timers absent_at_grace_world !! 2%nat
    = Some (mkTimer 121000 (TGrace 1%nat alice))
  ∧ sessions absent_at_grace_world !! alice = None
  ∧ step absent_at_grace_world (Fire 2%nat)
    = Thrown type_error_undefined (clear_timer 2%nat absent_at_grace_world).
Proof.
  split; [reflexivity|]. split; [vm_compute; reflexivity|].
  split; [vm_compute; reflexivity|].
  apply (proj1 (C9_grace_reads_unchecked absent_at_grace_world 1%nat alice
                  eq_refl) 2%nat 121000).
  - vm_compute; reflexivity.
  - vm_compute. discriminate.
  - vm_compute; reflexivity.
Defined.

(** ** The backend calls of the send handlers *)

Lemma http_send_ready w v u s req :
  key_of v = Some u → sessions w !! u = Some s → ready s = true →
  required_ok v req = true →
  step w (Http (Send v req))
  = Done (proceed (nextReq w) req (client s) (bump_req w)).
Proof.
  intros Hk Hs Hr Hreq. cbn [step handle].
  rewrite (send_handler_ok _ _ _ _ Hreq).
  rewrite (ensureClientReady_entry _ _ u _ _ s) by done. by rewrite Hr.
Qed.

Lemma run_cons_done w e w1 es :
  step w e = Done w1 → run w (e :: es) = run w1 es.
Proof. intros H. cbn [run]. by rewrite H. Qed.

(** C8: with a ready session and a number of at least 10 digits,
    send-pdf-url asks the backend for exactly two sends to the same chat id,
    the text first and, only after that send has settled, the document; if
    the first send is rejected the document is never sent. send-pdf-base64
    and send-image-base64 ask for exactly one send, the attachment with
    [message] as its caption. *)
Theorem C8_send_calls :
  ∀ (w : World) (userId : JValue) (u n : string) (s : Session) (m : JValue),
    key_of userId = Some u →
    sessions w !! u = Some s → ready s = true →
    truthy userId = true → truthy m = true →
    (10 ≤ String.length (strip_non_digits n))%nat →
    let rid := nextReq w in
    let c := client s in
    let chatId := (strip_non_digits n ++ "@c.us")%string in
    (∀ (url : JValue) (bytes : string),
       truthy url = true →
       let doc := pdf_media (JStr bytes) (JStr "document.pdf") in
       let request := Http (Send userId (SendPdfUrl (JStr n) m url)) in
       (∃ w2, run w [request; FetchDone rid (inl bytes)] = Done w2
              ∧ log w2 = log w ++ [EFetch rid url;
                                   ESend rid c chatId (CText m) None])
       ∧ (∃ w4, run w [request; FetchDone rid (inl bytes);
                       SendDone rid None; SendDone rid None] = Done w4
                ∧ log w4 = log w ++ [EFetch rid url;
                                     ESend rid c chatId (CText m) None;
                                     ESend rid c chatId (CMedia doc) None;
                                     ERespond rid 200
                                       (BStatus "Message and PDF sent from URL")])
       ∧ (∀ err, ∃ w3, run w [request; FetchDone rid (inl bytes);
                              SendDone rid (Some err)] = Done w3
                       ∧ log w3 = log w ++ [EFetch rid url;
                                            ESend rid c chatId (CText m) None;
                                            ERespond rid 500 (BError err)]))
    ∧ (∀ (pdfBase64 fname : JValue),
         truthy pdfBase64 = true →
         ∃ w2, run w [Http (Send userId
                              (SendPdfBase64 (JStr n) m pdfBase64 fname));
                      SendDone rid None] = Done w2
               ∧ log w2 = log w ++ [ESend rid c chatId
                                      (CMedia (pdf_media pdfBase64
                                                 (js_or fname (JStr "document.pdf"))))
                                      (Some m);
                                    ERespond rid 200
                                      (BStatus "Message and PDF (base64) sent")])
    ∧ (∀ (imageBase64 fname mimeType : JValue),
         truthy imageBase64 = true → truthy mimeType = true →
         ∃ w2, run w [Http (Send userId
                              (SendImageBase64 (JStr n) m imageBase64 fname
                                 mimeType));
                      SendDone rid None] = Done w2
               ∧ log w2 = log w ++ [ESend rid c chatId
                                      (CMedia (mkMedia mimeType imageBase64
                                                 (js_or fname (JStr "image.jpg"))))
                                      (Some m);
                                    ERespond rid 200
                                      (BStatus "Image (base64) and message sent")]).
Proof.
  intros w userId u n s m Hk Hs Hr Hu Hm Hlen rid c chatId.
  assert (Hn : truthy (JStr n) = true).
  { destruct n; [cbn in Hlen; lia|reflexivity]. }
  assert (Hlt : (String.length (strip_non_digits n) <? 10)%nat = false)
    by (apply Nat.ltb_ge; lia).
  split; [|split].
  - intros url bytes Hurl doc request.
    assert (Hstep : step w request
                    = Done (set_pending (<[rid := PFetch c chatId m]>)
                              (emit (EFetch rid url) (bump_req w)))).
    { unfold request. rewrite (http_send_ready w userId u s) by
        (try done; unfold required_ok; by rewrite Hu, Hn, Hm, Hurl).
      unfold proceed; cbn [number_of]. by rewrite Hlt. }
    split; [|split]; [|..|intros err]; eexists;
      rewrite (run_cons_done _ _ _ _ Hstep); cbn [run step];
      unfold fetch_done; cbn [set_pending pending];
      rewrite lookup_insert_eq; cbn [run step];
      try (unfold send_done; cbn [set_pending pending];
           rewrite lookup_insert_eq; cbn [run step];
           try (unfold send_done; cbn [set_pending pending];
                rewrite lookup_insert_eq; cbn [run step]));
      (split; [reflexivity|]); cbn; by rewrite <- !app_assoc.
  - intros pdfBase64 fname Hb. eexists.
    rewrite (run_cons_done w _
               (proceed rid (SendPdfBase64 (JStr n) m pdfBase64 fname) c
                  (bump_req w))) by
      (apply (http_send_ready w userId u); try done;
       unfold required_ok; by rewrite Hu, Hn, Hm, Hb).
    unfold proceed; cbn [number_of]. rewrite Hlt. cbn [run step].
    unfold send_done; cbn [set_pending pending].
    rewrite lookup_insert_eq. split; [reflexivity|].
    cbn. by rewrite <- !app_assoc.
  - intros imageBase64 fname mimeType Hi Hmt. eexists.
    rewrite (run_cons_done w _
               (proceed rid
                  (SendImageBase64 (JStr n) m imageBase64 fname mimeType) c
                  (bump_req w))) by
      (apply (http_send_ready w userId u); try done;
       unfold required_ok; by rewrite Hu, Hn, Hm, Hi, Hmt).
    unfold proceed; cbn [number_of]. rewrite Hlt. cbn [run step].
    unfold send_done; cbn [set_pending pending].
    rewrite lookup_insert_eq. split; [reflexivity|].
    cbn. by rewrite <- !app_assoc.
Qed.

Lemma C8_send_calls_witness :
  sessions ready_world !! alice = Some (mkSession 0%nat true None false None)
  ∧ (10 ≤ String.length (strip_non_digits "+91 98765 43210"))%nat
  ∧ ∃ w2, run ready_world
            [Http (Send (JStr alice)
                     (SendPdfBase64 (JStr "+91 98765 43210") (JStr "invoice")
                        (JStr "JVBERi0xLjQK") JUndefined));
             SendDone (nextReq ready_world) None] = Done w2
          ∧ log w2
            = log ready_world
              ++ [ESend (nextReq ready_world) 0%nat "919876543210@c.us"
                    (CMedia (pdf_media (JStr "JVBERi0xLjQK")
                               (JStr "document.pdf")))
                    (Some (JStr "invoice"));
                  ERespond (nextReq ready_world) 200
                    (BStatus "Message and PDF (base64) sent")].
Proof.
  split; [vm_compute; reflexivity|]. split; [vm_compute; lia|].
  destruct (C8_send_calls ready_world (JStr alice) alice "+91 98765 43210"
              (mkSession 0%nat true None false None) (JStr "invoice"))
    as (_ & Hb64 & _).
  - reflexivity.
  - vm_compute; reflexivity.
  - reflexivity.
  - reflexivity.
  - reflexivity.
  - vm_compute; lia.
  - exact (Hb64 (JStr "JVBERi0xLjQK") JUndefined eq_refl).
Defined.

(** ** Digits of a phone number *)






Lemma truthy_of_digits n :
  (10 ≤ String.length (strip_non_digits n))%nat → truthy (JStr n) = true.
Proof. destruct n; [cbn; lia|done]. Qed.

Lemma required_ok_set_number u n1 n2 req :
  truthy (JStr n2) = true →
  required_ok u (set_number (JStr n1) req) = true →
  required_ok u (set_number (JStr n2) req) = true.
Proof.
  intros H2. unfold required_ok.
  destruct req; cbn [set_number]; rewrite H2;
    destruct (truthy (JStr n1)); try done; by rewrite ?andb_false_r.
Qed.

Lemma proceed_set_number rid req c w n :
  (10 ≤ String.length (strip_non_digits n))%nat →
  proceed rid (set_number (JStr n) req) c w
  = let chatId := (strip_non_digits n ++ chat_suffix)%string in
    match req with
    | SendMessage _ message =>
        set_pending (<[rid := PSendLast "Message sent"]>)
          (emit (ESend rid c chatId (CText message) None) w)
    | SendPdfUrl _ message pdfUrl =>
        set_pending (<[rid := PFetch c chatId message]>)
          (emit (EFetch rid pdfUrl) w)
    | SendPdfBase64 _ message pdfBase64 fname =>
        set_pending (<[rid := PSendLast "Message and PDF (base64) sent"]>)
          (emit (ESend rid c chatId
                   (CMedia (pdf_media pdfBase64
                              (js_or fname (JStr "document.pdf"))))
                   (Some message)) w)
    | SendImageBase64 _ message imageBase64 fname mimeType =>
        set_pending (<[rid := PSendLast "Image (base64) and message sent"]>)
          (emit (ESend rid c chatId
                   (CMedia (mkMedia mimeType imageBase64
                              (js_or fname (JStr "image.jpg"))))
                   (Some message)) w)
    end.
Proof.
  intros Hlen. apply Nat.ltb_ge in Hlen. unfold proceed.
  destruct req; cbn [set_number number_of]; by rewrite Hlen.
Qed.

(** ** A [number] that is not a string *)

Lemma proceed_non_string rid req c w :
  (∀ n, number_of req ≠ JStr n) →
  proceed rid req c w
  = respond rid 500 (BError "number.replace is not a function") w.
Proof.
  intros Hn. unfold proceed.
  destruct (number_of req) as [| | | |n| |] eqn:Hreq; try done.
  by destruct (Hn n).
Qed.

(** X3: a truthy [number] that is not a string (a JSON number, [true], an
    array or object) passes the required-field test, and the call of
    [number.replace] then throws inside [try]: once the readiness gate has
    produced a client the handler answers 500 "number.replace is not a
    function", whatever the digits of the number, and sends nothing. *)
Theorem X3_non_string_number :
  ∀ (w : World) (userId : JValue) (u : string) (s : Session) (req : SendReq),
    key_of userId = Some u →
    sessions w !! u = Some s → ready s = true →
    required_ok userId req = true →
    (∀ n, number_of req ≠ JStr n) →
    step w (Http (Send userId req))
    = Done (respond (nextReq w) 500
              (BError "number.replace is not a function") (bump_req w))
    ∧ sends (world_of (step w (Http (Send userId req)))) = sends w
    ∧ ∀ t rid, pending w !! rid = Some (PWaitReady u req) →
               fire_poll t rid u w
               = respond rid 500 (BError "number.replace is not a function")
                   (clear_timer t w).
Proof.
  intros w userId u s req Hk Hs Hr Hreq Hn.
  rewrite (http_send_ready w userId u s req Hk Hs Hr Hreq).
  rewrite proceed_non_string by done. split; [done|].
  split; [cbn [world_of]; by rewrite sends_respond|].
  intros t rid Hp. rewrite (fire_poll_ready _ _ _ _ _ _ Hs Hr Hp).
  by apply proceed_non_string.
Qed.

Lemma X3_non_string_number_witness :
  sessions ready_world !! alice = Some (mkSession 0%nat true None false None)
  ∧ required_ok (JStr alice)
      (SendMessage (JNum 919876543210) (JStr "hi")) = true
  ∧ step ready_world
      (Http (Send (JStr alice) (SendMessage (JNum 919876543210) (JStr "hi"))))
    = Done (respond (nextReq ready_world) 500
              (BError "number.replace is not a function")
              (bump_req ready_world)).
Proof.
  split; [vm_compute; reflexivity|]. split; [reflexivity|].
  apply (X3_non_string_number ready_world (JStr alice) alice
           (mkSession 0%nat true None false None)
           (SendMessage (JNum 919876543210) (JStr "hi"))).
  - reflexivity.
  - vm_compute; reflexivity.
  - reflexivity.
  - reflexivity.
  - intros n Hn. discriminate Hn.
Defined.

(** ** Uncaught exceptions *)

Lemma on_backend_thrown v k c ev w msg w' :
  key_of v = Some k → valid_client_id k = true →
  on_backend v c ev w = Thrown msg w' ↔
  (sessions w !! k = None ∧ ev ≠ EvAuthenticated
   ∧ msg = type_error_undefined ∧ w' = w)
  ∨ (∃ s reason, ev = EvDisconnected reason ∧ sessions w !! k = Some s
                 ∧ (∀ u, v ≠ JStr u) ∧ msg = path_type_error v
                 ∧ w' = disc_destroy c (disc_flags k s w)).
Proof.
  intros Hk Hv. unfold on_backend. rewrite Hk. split.
  - destruct ev as [qr| | |m|reason];
      unfold on_qr, on_ready, on_auth_failure, on_disconnected;
      try discriminate;
      (destruct (sessions w !! k) as [s|] eqn:Hs;
       [|intros [= <- <-]; left; repeat split; discriminate]);
      try discriminate; try (destruct (timeout s); discriminate).
    destruct v; try (intros [= <- <-]; right; exists s, reason;
                     repeat split; intros u; discriminate).
    injection Hk as ->. by rewrite (createClient_ok (JStr k) k).
  - intros [(Hs & Hev & -> & ->)|(s & reason & -> & Hs & Hns & -> & ->)].
    + destruct ev; unfold on_qr, on_ready, on_auth_failure, on_disconnected;
        rewrite ?Hs; try reflexivity. by destruct Hev.
    + unfold on_disconnected. rewrite Hs.
      destruct v; try reflexivity. by destruct (Hns s0).
Qed.

Lemma start_session_thrown rid v w msg w' :
  start_session rid v w = Thrown msg w' ↔
  truthy v = true ∧ w' = w
  ∧ ((key_of v = None ∧ msg = to_primitive_error)
     ∨ ∃ k, key_of v = Some k ∧ has_entry k w = false
            ∧ valid_client_id k = false ∧ msg = invalid_client_id).
Proof.
  unfold start_session, createClient. split.
  - destruct (truthy v) eqn:Ht; [|done].
    destruct (key_of v) as [k|] eqn:Hk;
      [|intros [= <- <-]; split; [done|]; split; [done|by left]].
    destruct (has_entry k w) eqn:He; [done|]. cbn [andb].
    destruct (valid_client_id k) eqn:Hv; [done|]. cbn [negb].
    intros [= <- <-]. split; [done|]. split; [done|]. right. by exists k.
  - intros (-> & -> & [[-> ->]|(k & -> & -> & -> & ->)]); reflexivity.
Qed.

(** X4: the exceptions that escape a callback or an [async] handler. In a
    world the server can reach a step throws exactly in these cases: a
    start-session request whose truthy [userId] cannot be converted to a
    string, or has no entry and is refused by [LocalAuth]; a client's 'qr',
    'ready', 'auth_failure' or 'disconnected' callback while its userId has
    no entry; the 'disconnected' callback of a client whose [userId] is not
    a string, in [path.join], after the client was destroyed; an idle timer
    while its userId has no entry; and the start-session callback while its
    userId has no entry (and is not an inherited key). The send handlers,
    check-login, downloads, sends, QR renderings, the polls of the wait and
    its timeout never throw out of the event loop. *)
Theorem X4_uncaught_exceptions :
  ∀ (w : World) (e : Event) (msg : string) (w' : World),
    reachable w →
    (step w e = Thrown msg w' ↔
     (∃ v, e = Http (StartSession v) ∧ truthy v = true ∧ w' = bump_req w
           ∧ ((key_of v = None ∧ msg = to_primitive_error)
              ∨ ∃ k, key_of v = Some k ∧ has_entry k w = false
                     ∧ valid_client_id k = false
                     ∧ msg = invalid_client_id))
     ∨ (∃ c v k ev,
          e = Backend c ev ∧ owner w !! c = Some v ∧ key_of v = Some k
          ∧ ((sessions w !! k = None ∧ ev ≠ EvAuthenticated
              ∧ msg = type_error_undefined ∧ w' = w)
             ∨ ∃ s reason,
                 ev = EvDisconnected reason ∧ sessions w !! k = Some s
                 ∧ (∀ u, v ≠ JStr u) ∧ msg = path_type_error v
                 ∧ w' = disc_destroy c (disc_flags k s w)))
     ∨ (∃ t tm u, e = Fire t ∧ timers w !! t = Some tm ∧ due tm ≤ now w
                  ∧ sessions w !! u = None ∧ w' = clear_timer t w
                  ∧ msg = type_error_undefined
                  ∧ ((∃ c, kind tm = TIdle u c)
                     ∨ (∃ rid, kind tm = TGrace rid u
                               ∧ proto_key u = false)))).
Proof.
  intros w e msg w' Hreach. split.
  - destruct e as [r|c ev|t|dt|rid res|rid res|rid res|p n]; cbn [step].
    + destruct r as [v|u|v req]; cbn [handle];
        [|by destruct (String.eqb u "")|done].
      intros (Ht & -> & Hcase)%start_session_thrown.
      left. exists v. by repeat split.
    + destruct (owner w !! c) as [v|] eqn:Ho; [|done].
      destruct (reachable_valid_owner w c v Hreach Ho) as (k & Hk & _ & Hv).
      intros Hthrown%(on_backend_thrown v k); [|done..].
      right. left. by exists c, v, k, ev.
    + unfold fire. destruct (timers w !! t) as [tm|] eqn:Ht; [|done].
      destruct (due tm <=? now w) eqn:Hd; [|done].
      apply Z.leb_le in Hd.
      destruct (kind tm) as [u c|rid u|rid u|rid i] eqn:Hk; [| |done..].
      * unfold fire_idle; cbn [clear_timer set_timers sessions].
        destruct (sessions w !! u) as [s|] eqn:Hs; [by destruct (ready s)|].
        intros H; inversion H; subst. right. right.
        exists t, tm, u. repeat split; try done. left. by exists c.
      * unfold fire_grace; cbn [clear_timer set_timers sessions].
        destruct (sessions w !! u) as [s|] eqn:Hs.
        { destruct (ready s); [done|].
          destruct (lastQR s) as [qr|]; [|done]. by destruct (String.eqb qr ""). }
        destruct (proto_key u) eqn:Hp; [done|].
        intros H; inversion H; subst. right. right.
        exists t, tm, u. repeat split; try done. right. by exists rid.
    + by destruct (may_advance dt w).
    + unfold fetch_done. by repeat case_match.
    + unfold send_done. by repeat case_match.
    + unfold qr_done. by repeat case_match.
    + by destruct (may_create p w).
  - intros [(v & -> & Ht & -> & Hcase)
           |[(c & v & k & ev & -> & Ho & Hk & Hcase)
            |(t & tm & u & -> & Ht & Hd & Hs & -> & -> & Hk)]].
    + cbn [step handle]. apply start_session_thrown. by repeat split.
    + cbn [step]. rewrite Ho.
      destruct (reachable_valid_owner w c v Hreach Ho) as (k' & Hk' & _ & Hv).
      rewrite Hk in Hk'. injection Hk' as <-.
      by apply (on_backend_thrown v k).
    + cbn [step]. rewrite (fire_due _ _ _ Ht Hd).
      destruct Hk as [(c & ->)|(rid & -> & Hp)].
      * unfold fire_idle; cbn [clear_timer set_timers sessions].
        by rewrite Hs.
      * unfold fire_grace; cbn [clear_timer set_timers sessions].
        by rewrite Hs, Hp.
Qed.

Lemma numeric_world_reachable :
  reachable (world_of (run initial numeric_id_run)).
Proof.
  apply (run_reachable numeric_id_run initial); [apply reach_initial|].
  vm_compute. reflexivity.
Qed.

Lemma X4_uncaught_exceptions_witness :
  step (world_of (run initial numeric_id_run))
    (Backend 0%nat (EvDisconnected "LOGOUT"))
  = Thrown (path_type_error (JNum 123))
      (disc_destroy 0%nat
         (disc_flags "123" (mkSession 0%nat true None false None)
            (world_of (run initial numeric_id_run)))).
Proof.
  apply (X4_uncaught_exceptions (world_of (run initial numeric_id_run))
           (Backend 0%nat (EvDisconnected "LOGOUT"))
           (path_type_error (JNum 123)) _ numeric_world_reachable).
  right. left.
  exists 0%nat, (JNum 123), "123"%string, (EvDisconnected "LOGOUT").
  split; [reflexivity|]. split; [vm_compute; reflexivity|].
  split; [reflexivity|]. right.
  exists (mkSession 0%nat true None false None), "LOGOUT"%string.
  split; [reflexivity|]. split; [vm_compute; reflexivity|].
  split; [intros u; discriminate|]. split; reflexivity.
Defined.

(** ** Failures of the collaborators *)

(** X5: when the download of send-pdf-url fails, the request ends with 500
    and the message of the error, and nothing has been sent: the download
    precedes both sends. When the backend rejects the send of
    send-pdf-base64 or send-image-base64 the request ends with 500 and the
    backend's message after that one send. *)
Theorem X5_collaborator_failure :
  ∀ (w : World) (userId : JValue) (u n : string) (s : Session) (m : JValue)
    (err : string),
    key_of userId = Some u →
    sessions w !! u = Some s → ready s = true →
    truthy userId = true → truthy m = true →
    (10 ≤ String.length (strip_non_digits n))%nat →
    let rid := nextReq w in
    let c := client s in
    let chatId := (strip_non_digits n ++ "@c.us")%string in
    (∀ url : JValue,
       truthy url = true →
       ∃ w2, run w [Http (Send userId (SendPdfUrl (JStr n) m url));
                    FetchDone rid (inr err)] = Done w2
             ∧ log w2 = log w ++ [EFetch rid url; ERespond rid 500 (BError err)]
             ∧ sends w2 = sends w
             ∧ pending w2 !! rid = None)
    ∧ (∀ req : SendReq,
         (∃ b f, req = SendPdfBase64 (JStr n) m b f ∧ truthy b = true)
         ∨ (∃ i f mt, req = SendImageBase64 (JStr n) m i f mt
                      ∧ truthy i = true ∧ truthy mt = true)
         ∨ req = SendMessage (JStr n) m →
         ∃ w2 content caption,
           run w [Http (Send userId req); SendDone rid (Some err)] = Done w2
           ∧ log w2 = log w ++ [ESend rid c chatId content caption;
                                ERespond rid 500 (BError err)]
           ∧ pending w2 !! rid = None).
Proof.
  intros w userId u n s m err Hk Hs Hr Hu Hm Hlen rid c chatId.
  pose proof (truthy_of_digits n Hlen) as Hn.
  split.
  - intros url Hurl. eexists.
    rewrite (run_cons_done w _
               (proceed rid (set_number (JStr n) (SendPdfUrl (JStr n) m url)) c
                  (bump_req w))) by
      (apply (http_send_ready w userId u); try done;
       unfold required_ok; cbn [set_number]; by rewrite Hu, Hn, Hm, Hurl).
    rewrite proceed_set_number by done. cbn [run step].
    unfold fetch_done; cbn [set_pending pending]. rewrite lookup_insert_eq.
    split; [reflexivity|]. split; [cbn; by rewrite <- app_assoc|].
    split; [|cbn; apply lookup_delete_eq].
    rewrite sends_respond. unfold sends; cbn [log set_pending emit bump_req].
    rewrite omap_app. cbn. by rewrite app_nil_r.
  - intros req Hreq.
    assert (Hok : required_ok userId req = true ∧ req = set_number (JStr n) req).
    { destruct Hreq as [(b & f & -> & Hb)|[(i & f & mt & -> & Hi & Hmt)| ->]];
        unfold required_ok; cbn [set_number];
        by rewrite ?Hu, ?Hn, ?Hm, ?Hb, ?Hi, ?Hmt. }
    destruct Hok as [Hok Hset].
    rewrite (run_cons_done w _ (proceed rid req c (bump_req w))) by
      (by apply (http_send_ready w userId u)).
    rewrite Hset, proceed_set_number by done.
    destruct Hreq as [(b & f & -> & Hb)|[(i & f & mt & -> & Hi & Hmt)| ->]];
      cbn [run step set_number]; cbn zeta;
      unfold send_done; cbn [set_pending pending];
      rewrite lookup_insert_eq; do 3 eexists;
      (split; [reflexivity|]);
      (split; [cbn; by rewrite <- app_assoc|cbn; apply lookup_delete_eq]).
Qed.

Lemma X5_collaborator_failure_witness :
  sessions ready_world !! alice = Some (mkSession 0%nat true None false None)
  ∧ (10 ≤ String.length (strip_non_digits "+91 98765 43210"))%nat
  ∧ ∃ w2, run ready_world
            [Http (Send (JStr alice)
                     (SendPdfUrl (JStr "+91 98765 43210") (JStr "invoice")
                        (JStr "https://example.org/a.pdf")));
             FetchDone (nextReq ready_world) (inr "Request failed")] = Done w2
          ∧ log w2
            = log ready_world
              ++ [EFetch (nextReq ready_world)
                    (JStr "https://example.org/a.pdf");
                  ERespond (nextReq ready_world) 500
                    (BError "Request failed")]
          ∧ sends w2 = sends ready_world
          ∧ pending w2 !! nextReq ready_world = None.
Proof.
  split; [vm_compute; reflexivity|]. split; [vm_compute; lia|].
  destruct (X5_collaborator_failure ready_world (JStr alice) alice
              "+91 98765 43210"
              (mkSession 0%nat true None false None) (JStr "invoice")
              "Request failed")
    as (Hurl & _).
  - reflexivity.
  - vm_compute; reflexivity.
  - reflexivity.
  - reflexivity.
  - reflexivity.
  - vm_compute; lia.
  - exact (Hurl (JStr "https://example.org/a.pdf") eq_refl).
Defined.

(** ** The QR code that start-session shows *)

(** X7: each 'qr' event replaces the stored payload and turns the session
    not ready, whatever it was before. After two such events the
    start-session callback renders the later payload and answers with the
    rendered image, and check-login answers "pending". *)
Theorem X7_latest_qr_is_shown :
  ∀ (w : World) (c : ClientId) (userId : JValue) (u : string) (s : Session)
    (q1 q2 : string) (rid : ReqId),
    owner w !! c = Some userId → key_of userId = Some u →
    sessions w !! u = Some s → q2 ≠ "" →
    ∃ w2, run w [Backend c (EvQr q1); Backend c (EvQr q2)] = Done w2
          ∧ sessions w2 !! u
            = Some (mkSession (client s) false (Some q2) (initializing s)
                      (timeout s))
          ∧ check_login rid u w2 = respond rid 200 (BStatus "pending") w2
          ∧ ∃ w3, fire_grace rid u w2 = Done w3
                  ∧ log w3 = log w2 ++ [EQrRender rid q2]
                  ∧ ∀ url, ∃ w4, step w3 (QrDone rid (Some url)) = Done w4
                                 ∧ responses w4
                                   = responses w2
                                     ++ [(rid, 200, BStatusQr "qr" url)].
Proof.
  intros w c v u s q1 q2 rid Ho Hk Hs Hq. eexists. split.
  { cbn [run step]. rewrite Ho. unfold on_backend at 1. rewrite Hk.
    unfold on_qr at 1. rewrite Hs. cbn [step set_sessions owner].
    rewrite Ho. unfold on_backend. rewrite Hk.
    unfold on_qr. cbn [sessions set_sessions]. rewrite lookup_insert_eq.
    reflexivity. }
  cbn [sessions set_sessions client initializing timeout].
  rewrite insert_insert_eq.
  split; [apply lookup_insert_eq|].
  split.
  { unfold check_login; cbn [sessions set_sessions].
    by rewrite lookup_insert_eq. }
  eexists. split.
  { unfold fire_grace; cbn [sessions set_sessions].
    rewrite lookup_insert_eq. cbn [ready lastQR].
    apply String.eqb_neq in Hq. rewrite Hq. reflexivity. }
  split; [reflexivity|].
  intros url. eexists. split.
  { cbn [step]. unfold qr_done; cbn [pending set_pending].
    rewrite lookup_insert_eq. reflexivity. }
  rewrite responses_respond. f_equal.
  unfold responses; cbn. rewrite omap_app. cbn. apply app_nil_r.
Qed.

Lemma X7_latest_qr_is_shown_witness :
  owner ready_world !! 0%nat = Some (JStr alice)
  ∧ sessions ready_world !! alice
    = Some (mkSession 0%nat true None false None)
  ∧ ∃ w2, run ready_world [Backend 0%nat (EvQr "2@first");
                           Backend 0%nat (EvQr "2@second")] = Done w2
          ∧ sessions w2 !! alice
            = Some (mkSession 0%nat false (Some "2@second") false None).
Proof.
  split; [vm_compute; reflexivity|]. split; [vm_compute; reflexivity|].
  destruct (X7_latest_qr_is_shown ready_world 0%nat (JStr alice) alice
              (mkSession 0%nat true None false None) "2@first" "2@second"
              7%nat)
    as (w2 & Hrun & Hsess & _).
  - vm_compute; reflexivity.
  - reflexivity.
  - vm_compute; reflexivity.
  - discriminate.
  - exists w2. by split.
Defined.

(** ** Timers of the reachable worlds *)

(** From [H : f = Done w'] to a goal about [world_of f]. *)
Ltac to_world H :=
  match type of H with
  | ?f = Done ?w' => replace w' with (world_of f) by (by rewrite H)
  end.

(** Two lookups of the same key give the same value. *)
Ltac same_lookup Ha Hb :=
  let E := fresh "E" in
  pose proof (eq_trans (eq_sym Ha) Hb) as E; inversion E; subst; clear E.

Lemma timed_frame w w' : same_timing w w' → timed w → timed w'.
Proof.
  intros (Hs & Ht & Hn & Hp & Hnow) [? ? ? ?].
  split; rewrite ?Hs, ?Ht, ?Hn, ?Hp, ?Hnow; done.
Qed.

Lemma timed_respond rid code b w : timed w → timed (respond rid code b w).
Proof.
  intros [H1 H2 H3 H4]. split; cbn; try done.
  intros rid' u req [_ Hp]%lookup_delete_Some. by eapply H4.
Qed.

Lemma timed_set_pending rid p w :
  (∀ u req, p ≠ PWaitReady u req) →
  timed w → timed (set_pending (<[rid := p]>) w).
Proof.
  intros Hp [H1 H2 H3 H4]. split; cbn; try done.
  intros rid' u req Hl. destruct (decide (rid = rid')) as [->|Hne].
  - rewrite lookup_insert_eq in Hl. inversion Hl; subst. exfalso. by eapply Hp.
  - rewrite lookup_insert_ne in Hl by done. by eapply H4.
Qed.

Lemma timed_set_timer d k w :
  (∀ rid i, k ≠ TWaitTimeout rid i) →
  timed w → timed (set_timer d k w).
Proof.
  intros Hk [H1 H2 H3 H4]. split; cbn.
  - intros t tm [[<- _]|[_ Ht]]%lookup_insert_Some; [lia|].
    specialize (H1 t tm Ht). lia.
  - intros u s t Hs Ht. destruct (H2 u s t Hs Ht) as [Hlt Hkind].
    split; [lia|]. intros tm. rewrite lookup_insert_ne by lia. apply Hkind.
  - intros t tm rid i [[<- <-]|[_ Ht]]%lookup_insert_Some Hkind.
    { cbn in Hkind. exfalso. by eapply Hk. }
    destruct (H3 t tm rid i Ht Hkind) as [Hlt Hpoll].
    split; [lia|]. intros tm'. rewrite lookup_insert_ne by lia. apply Hpoll.
  - intros rid u req Hp.
    destruct (H4 rid u req Hp) as (t & tm & i & Ht & Hk' & Hd).
    exists t, tm, i. split; [|done]. rewrite lookup_insert_ne; [done|].
    specialize (H1 t tm Ht). lia.
Qed.

Lemma timed_start_wait rid u req w : timed w → timed (start_wait rid u req w).
Proof.
  intros [H1 H2 H3 H4]. unfold start_wait. split; cbn.
  - intros t tm Hl. apply lookup_insert_Some in Hl as [[<- _]|[_ Hl]]; [lia|].
    apply lookup_insert_Some in Hl as [[<- _]|[_ Hl]]; [lia|].
    specialize (H1 t tm Hl). lia.
  - intros v s t Hs Ht. destruct (H2 v s t Hs Ht) as [Hlt Hkind].
    split; [lia|]. intros tm. rewrite !lookup_insert_ne by lia. apply Hkind.
  - intros t tm rid' i Hl Hkind.
    apply lookup_insert_Some in Hl as [[<- <-]|[_ Hl]].
    { cbn in Hkind. inversion Hkind; subst. split; [lia|].
      intros tm'. rewrite lookup_insert_ne by lia. rewrite lookup_insert_eq.
      intros H; inversion H; subst. by exists u. }
    apply lookup_insert_Some in Hl as [[<- <-]|[_ Hl]]; [discriminate Hkind|].
    destruct (H3 t tm rid' i Hl Hkind) as [Hlt Hpoll].
    split; [lia|]. intros tm'. rewrite !lookup_insert_ne by lia. apply Hpoll.
  - intros rid' v req' Hp. destruct (decide (rid = rid')) as [->|Hne].
    + exists (S (nextTimer w)),
        (mkTimer (now w + max_wait) (TWaitTimeout rid' (nextTimer w))),
        (nextTimer w).
      split; [apply lookup_insert_eq|]. split; [done|]. cbn. lia.
    + rewrite lookup_insert_ne in Hp by done.
      destruct (H4 rid' v req' Hp) as (t & tm & i & Ht & Hk' & Hd).
      exists t, tm, i. split; [|done]. specialize (H1 t tm Ht).
      rewrite !lookup_insert_ne by lia. done.
Qed.

Lemma timed_clear_timer t w :
  (∀ tm rid i u req, timers w !! t = Some tm → kind tm = TWaitTimeout rid i →
                     pending w !! rid ≠ Some (PWaitReady u req)) →
  timed w → timed (clear_timer t w).
Proof.
  intros Hsafe [H1 H2 H3 H4]. split; cbn.
  - intros t' tm [_ Ht]%lookup_delete_Some. by apply (H1 t' tm).
  - intros u s t' Hs Ht. destruct (H2 u s t' Hs Ht) as [Hlt Hkind].
    split; [done|]. intros tm [_ Hl]%lookup_delete_Some. by apply Hkind.
  - intros t' tm rid i [_ Ht]%lookup_delete_Some Hkind.
    destruct (H3 t' tm rid i Ht Hkind) as [Hlt Hpoll].
    split; [done|]. intros tm' [_ Hl]%lookup_delete_Some. by apply Hpoll.
  - intros rid u req Hp.
    destruct (H4 rid u req Hp) as (t' & tm & i & Ht & Hk & Hd).
    exists t', tm, i. split; [|done]. apply lookup_delete_Some. split; [|done].
    intros <-. by apply (Hsafe tm rid i u req).
Qed.

Lemma timed_rearm t tm w :
  timers w !! t = Some tm → (∀ rid i, kind tm ≠ TWaitTimeout rid i) →
  timed w → timed (rearm t tm w).
Proof.
  intros Ht Hk [H1 H2 H3 H4]. split; cbn.
  - intros t' tm' [[<- _]|[_ Hl]]%lookup_insert_Some; [by apply (H1 t tm)|].
    by apply (H1 t' tm').
  - intros u s t' Hs Hto. destruct (H2 u s t' Hs Hto) as [Hlt Hkind].
    split; [done|]. intros tm' [[<- <-]|[_ Hl]]%lookup_insert_Some.
    + cbn. by apply Hkind.
    + by apply Hkind.
  - intros t' tm' rid i [[<- <-]|[_ Hl]]%lookup_insert_Some Hkind.
    { cbn in Hkind. exfalso. by eapply Hk. }
    destruct (H3 t' tm' rid i Hl Hkind) as [Hlt Hpoll].
    split; [done|]. intros tm2 [[<- <-]|[_ Hl2]]%lookup_insert_Some.
    + cbn. by apply Hpoll.
    + by apply Hpoll.
  - intros rid u req Hp.
    destruct (H4 rid u req Hp) as (t' & tm' & i & Hl & Hk' & Hd).
    exists t', tm', i. split; [|done]. rewrite lookup_insert_ne; [done|].
    intros ?. simplify_eq. same_lookup Ht Hl. by eapply Hk.
Qed.

Lemma timed_update u s s' w :
  sessions w !! u = Some s → client s' = client s →
  (timeout s' = timeout s ∨ timeout s' = None) →
  timed w → timed (set_sessions (<[u := s']>) w).
Proof.
  intros Hs Hc Hto [H1 H2 H3 H4]. split; cbn; try done.
  intros v s0 t [[<- <-]|[_ Hl]]%lookup_insert_Some Ht; [|by apply H2].
  destruct Hto as [Heq|Hnone]; [|congruence].
  rewrite Heq in Ht. rewrite Hc. by apply H2.
Qed.

Lemma timed_delete u w : timed w → timed (set_sessions (delete u) w).
Proof.
  intros [H1 H2 H3 H4]. split; cbn; try done.
  intros v s t [_ Hl]%lookup_delete_Some. by apply H2.
Qed.

Lemma timed_install v u w : timed w → timed (install v u w).
Proof.
  intros [H1 H2 H3 H4]. unfold install. split; cbn.
  - intros t tm [[<- _]|[_ Ht]]%lookup_insert_Some; [lia|].
    specialize (H1 t tm Ht). lia.
  - intros k s t. rewrite insert_insert_eq.
    intros [[<- <-]|[Hne Hl]]%lookup_insert_Some Ht.
    + cbn in Ht. inversion Ht; subst. split; [lia|].
      intros tm. rewrite lookup_insert_eq. intros H; by inversion H.
    + destruct (H2 k s t Hl Ht) as [Hlt Hkind]. split; [lia|].
      intros tm. rewrite lookup_insert_ne by lia. apply Hkind.
  - intros t tm rid i [[<- <-]|[_ Ht]]%lookup_insert_Some Hkind;
      [discriminate Hkind|].
    destruct (H3 t tm rid i Ht Hkind) as [Hlt Hpoll].
    split; [lia|]. intros tm'. rewrite lookup_insert_ne by lia. apply Hpoll.
  - intros rid k req Hp.
    destruct (H4 rid k req Hp) as (t & tm & i & Ht & Hk & Hd).
    exists t, tm, i. split; [|done]. rewrite lookup_insert_ne; [done|].
    specialize (H1 t tm Ht). lia.
Qed.

Lemma timed_advance dt w : 0 < dt → timed w → timed (set_now (now w + dt) w).
Proof.
  intros Hdt [H1 H2 H3 H4]. split; cbn; try done.
  intros rid u req Hp.
  destruct (H4 rid u req Hp) as (t & tm & i & Ht & Hk & Hd).
  exists t, tm, i. repeat split; try done. lia.
Qed.

Lemma timed_proceed rid req c w : timed w → timed (proceed rid req c w).
Proof.
  intros Hw. unfold proceed.
  repeat case_match; try (by apply timed_respond);
    (apply timed_set_pending; [discriminate|]);
    by apply (timed_frame w).
Qed.

Lemma timed_ensured v u w : timed w → timed (ensured v u w).
Proof.
  intros Hw. unfold ensured. destruct (has_entry u w); [done|].
  by apply timed_install.
Qed.

Lemma timed_boot d : timed (boot d).
Proof. split; cbn; intros; by rewrite lookup_empty in *. Qed.

Lemma timed_initial : timed initial.
Proof. apply timed_boot. Qed.

Lemma timed_handle rid r w : timed w → timed (world_of (handle rid r w)).
Proof.
  intros Hw. destruct r as [v|u|v req]; cbn [handle].
  - destruct (start_session_cases rid v w)
      as [[_ ->]|[[msg ->]|(u & Hk & _ & Hv & ->)]]; cbn [world_of];
      [by apply timed_respond|done|].
    apply timed_set_timer; [discriminate|]. by apply timed_ensured.
  - destruct (String.eqb_spec u "") as [->|Hne];
      [cbn [world_of]; by apply timed_respond|].
    cbn [world_of]. destruct (check_login_cases rid u w Hne)
      as [(code & b & ->)|(Hs & Hp & Hv & _ & ->)];
      apply timed_respond; [done|]. by apply timed_install.
  - cbn [world_of]. unfold send_handler.
    destruct (required_ok v req) eqn:Hreq; [|by apply timed_respond].
    destruct (ensureClientReady_cases rid v req w (required_truthy _ _ Hreq))
      as [[msg ->]|(u & Hk & Hv & [[c ->]| ->])];
      [by apply timed_respond| |].
    + by apply timed_proceed, timed_ensured.
    + by apply timed_start_wait, timed_ensured.
Qed.

Lemma timed_disc_flags u s c w :
  timed w → sessions w !! u = Some s →
  timed (disc_destroy c (disc_flags u s w)).
Proof.
  intros Hw Hs. apply (timed_frame (disc_flags u s w)); [by repeat split|].
  unfold disc_flags. apply (timed_update u s); auto.
Qed.

Lemma timed_disc_delete u s c w :
  timed w → sessions w !! u = Some s →
  timed (disc_delete u (disc_rm_auth u (disc_destroy c (disc_flags u s w)))).
Proof.
  intros Hw Hs. unfold disc_delete. apply timed_delete.
  apply (timed_frame (disc_destroy c (disc_flags u s w))).
  { unfold disc_rm_auth. case_match; by repeat split. }
  by apply timed_disc_flags.
Qed.

Lemma timed_on_backend v c ev w :
  timed w → timed (world_of (on_backend v c ev w)).
Proof.
  intros Hw. unfold on_backend. destruct (key_of v) as [u|] eqn:Hk; [|done].
  destruct ev; [| |done| |].
  - unfold on_qr. destruct (sessions w !! u) as [s|] eqn:Hs; [|done].
    apply (timed_update u s); auto.
  - unfold on_ready. destruct (sessions w !! u) as [s|] eqn:Hs; [|done].
    destruct (timeout s) as [t|] eqn:Hto; cbn [world_of].
    + apply (timed_update u s); auto.
      apply timed_clear_timer; [|done].
      intros tm rid i v0 req Ht Hki.
      destruct (timed_session w Hw u s t Hs Hto) as [_ Hidle].
      rewrite (Hidle tm Ht) in Hki. discriminate Hki.
    + apply (timed_update u s); auto.
  - unfold on_auth_failure.
    destruct (sessions w !! u) as [s|] eqn:Hs; [|done].
    apply (timed_update u s); auto.
  - pose proof (on_disconnected_cases v u c w Hk) as Hd.
    destruct (on_disconnected v u c w) as [w'|msg w'|]; cbn [world_of];
      [| |done].
    + destruct Hd as (s & Hs & _ & ->).
      by apply timed_install, timed_disc_delete.
    + destruct Hd as [->|(s & Hs & [->| ->])];
        [done|by apply timed_disc_flags|by apply timed_disc_delete].
Qed.

Lemma timed_del_pending rid w : timed w → timed (set_pending (delete rid) w).
Proof.
  intros [H1 H2 H3 H4]. split; cbn; try done.
  intros rid' u req [_ Hp]%lookup_delete_Some. by eapply H4.
Qed.

Lemma timed_wait_timeout t tm rid i w :
  timed w → timers w !! t = Some tm → kind tm = TWaitTimeout rid i →
  timed (fire_wait_timeout rid i (clear_timer t w)).
Proof.
  intros Hw Ht Hk.
  destruct (timed_interval w Hw t tm rid i Ht Hk) as [_ Hpoll].
  assert (Hclear : ∀ w0,
             timed w0 → timers w0 = timers w → pending w0 !! rid = None
             ∨ (∀ u req, pending w0 !! rid ≠ Some (PWaitReady u req)) →
             timed (clear_timer i (clear_timer t w0))).
  { intros w0 Hw0 Htm Hp0. apply timed_clear_timer.
    - intros tm' rid' i' v req Hl Hk'. cbn in Hl.
      apply lookup_delete_Some in Hl as [_ Hl]. rewrite Htm in Hl. destruct (Hpoll tm' Hl) as [v' Hv'].
      rewrite Hv' in Hk'. discriminate Hk'.
    - apply timed_clear_timer; [|done].
      intros tm' rid' i' v req Hl Hk'. rewrite Htm in Hl.
      same_lookup Ht Hl. rewrite Hk in Hk'. inversion Hk'; subst.
      destruct Hp0 as [Hnone|Hnot]; [by rewrite Hnone|apply Hnot]. }
  unfold fire_wait_timeout, reject. cbn [clear_timer set_timers pending].
  destruct (pending w !! rid) as [p|] eqn:Hp.
  - destruct p as [v req| | | |].
    + apply (timed_frame
               (clear_timer i (clear_timer t (set_pending (delete rid) w))));
        [by repeat split|].
      apply Hclear; [by apply timed_del_pending|done|].
      left. cbn. apply lookup_delete_eq.
    + apply (Hclear w); [done..|]. right. intros ? ?. by rewrite Hp.
    + apply (Hclear w); [done..|]. right. intros ? ?. by rewrite Hp.
    + apply (Hclear w); [done..|]. right. intros ? ?. by rewrite Hp.
    + apply (Hclear w); [done..|]. right. intros ? ?. by rewrite Hp.
  - apply (Hclear w); [done..|]. by left.
Qed.

Lemma timed_fire t w : timed w → timed (world_of (fire t w)).
Proof.
  intros Hw. unfold fire.
  destruct (timers w !! t) as [tm|] eqn:Ht; [|apply timed_initial].
  destruct (due tm <=? now w); [|apply timed_initial].
  destruct (kind tm) as [u c|rid u|rid u|rid i] eqn:Hk.
  - assert (Hc : timed (clear_timer t w)).
    { apply timed_clear_timer; [|done]. intros tm' rid i v req Ht' Hk'.
      same_lookup Ht Ht'. rewrite Hk in Hk'. discriminate Hk'. }
    unfold fire_idle; cbn [clear_timer set_timers sessions].
    destruct (sessions w !! u) as [s|]; [|done].
    destruct (ready s); cbn [world_of]; [done|].
    apply timed_delete. by apply (timed_frame (clear_timer t w)).
  - assert (Hc : timed (clear_timer t w)).
    { apply timed_clear_timer; [|done]. intros tm' rid' i v req Ht' Hk'.
      same_lookup Ht Ht'. rewrite Hk in Hk'. discriminate Hk'. }
    unfold fire_grace; cbn [clear_timer set_timers sessions].
    repeat case_match; cbn [world_of]; try done;
      try (by apply timed_respond).
    apply timed_set_pending; [discriminate|].
    by apply (timed_frame (clear_timer t w)).
  - cbn [world_of].
    assert (Hr : timed (rearm t tm w)).
    { apply timed_rearm; [done| |done]. intros rid' i. rewrite Hk.
      discriminate. }
    unfold rearm in Hr. rewrite Hk in Hr.
    unfold fire_poll. cbn [set_timers sessions].
    destruct (sessions w !! u) as [s|]; [|done].
    destruct (ready s); [|done]. unfold resolve.
    match goal with
    | |- timed (match pending ?w0 !! rid with _ => _ end) =>
        assert (Hc : timed w0)
    end.
    { apply timed_clear_timer; [|done]. intros tm' rid' i v req.
      cbn. rewrite lookup_insert_eq. intros H; inversion H; subst.
      discriminate. }
    match goal with
    | |- timed (match ?p with _ => _ end) => destruct p as [[]|]
    end; try done.
    by apply timed_proceed.
  - cbn [world_of]. by apply (timed_wait_timeout t tm).
Qed.

Lemma timed_step w e : timed w → timed (world_of (step w e)).
Proof.
  intros Hw. destruct e; cbn [step].
  - apply timed_handle. by apply (timed_frame w).
  - destruct (owner w !! c) as [u|]; [|apply timed_initial].
    by apply timed_on_backend.
  - by apply timed_fire.
  - destruct (may_advance dt w) eqn:Hadv; [|apply timed_initial].
    cbn [world_of]. apply timed_advance; [|done].
    unfold may_advance in Hadv. apply andb_prop in Hadv as [Hdt _].
    by apply Z.ltb_lt.
  - unfold fetch_done. repeat case_match; try apply timed_initial;
      cbn [world_of]; try (by apply timed_respond).
    apply timed_set_pending; [discriminate|]. by apply (timed_frame w).
  - unfold send_done. repeat case_match; try apply timed_initial;
      cbn [world_of]; try (by apply timed_respond).
    apply timed_set_pending; [discriminate|]. by apply (timed_frame w).
  - unfold qr_done. repeat case_match; try apply timed_initial;
      cbn [world_of]; by apply timed_respond.
  - destruct (may_create p w); [|apply timed_initial].
    cbn [world_of]. by apply (timed_frame w).
Qed.

Lemma reachable_timed w : reachable w → timed w.
Proof.
  induction 1 as [d|w e w' _ IH Hstep]; [apply timed_boot|].
  pose proof (timed_step w e IH) as Hw. by rewrite Hstep in Hw.
Qed.

(** X8: a request that waits for readiness cannot wait for ever. In every
    world the server can reach, a handler suspended in the wait has its
    timeout pending and due no later than 15 seconds from now; time cannot
    pass that timer, and when the timer runs the request is answered 500
    with the timeout message and stops waiting. *)
Theorem X8_wait_is_bounded :
  ∀ (w : World) (rid : ReqId) (u : string) (req : SendReq),
    reachable w → pending w !! rid = Some (PWaitReady u req) →
    ∃ t tm i,
      timers w !! t = Some tm ∧ kind tm = TWaitTimeout rid i
      ∧ due tm ≤ now w + 15000
      ∧ (∀ dt, step w (Advance dt) ≠ Disabled → now w + dt ≤ due tm)
      ∧ (due tm ≤ now w →
         ∃ w', step w (Fire t) = Done w'
               ∧ responses w'
                 = responses w ++ [(rid, 500, BError timeout_message)]
               ∧ pending w' !! rid = None).
Proof.
  intros w rid u req Hreach Hp.
  destruct (timed_wait w (reachable_timed w Hreach) rid u req Hp)
    as (t & tm & i & Ht & Hk & Hd).
  exists t, tm, i. repeat split; try done.
  - intros dt Hen. cbn [step] in Hen.
    destruct (may_advance dt w) eqn:Hadv; [|done].
    by eapply advance_respects_timers.
  - intros Hdue. eexists. split.
    + cbn [step]. rewrite (fire_due _ _ _ Ht Hdue), Hk.
      rewrite (fire_wait_timeout_waiting _ _ _ u req); [reflexivity|exact Hp].
    + split; [by rewrite responses_respond|]. cbn. apply lookup_delete_eq.
Qed.

Lemma waiting_world_reachable : reachable waiting_world.
Proof.
  apply (run_reachable [Http short_number_request] initial);
    [apply reach_initial|].
  vm_compute. reflexivity.
Qed.

Lemma X8_wait_is_bounded_witness :
  pending waiting_world !! 0%nat
  = Some (PWaitReady alice (SendMessage (JStr "12345") (JStr "hi")))
  ∧ ∃ t tm i, timers waiting_world !! t = Some tm
              ∧ kind tm = TWaitTimeout 0%nat i
              ∧ due tm ≤ now waiting_world + 15000.
Proof.
  split; [vm_compute; reflexivity|].
  destruct (X8_wait_is_bounded waiting_world 0%nat alice
              (SendMessage (JStr "12345") (JStr "hi"))
              waiting_world_reachable)
    as (t & tm & i & Ht & Hk & Hd & _).
  - vm_compute; reflexivity.
  - by exists t, tm, i.
Defined.

(** ** Sessions, clients and idle timers of the reachable worlds *)

Lemma linked_emit e w : harmless e → linked w → linked (emit e w).
Proof.
  intros He [H1 H2 H3 H4 H5 H6 H7]. split; cbn; try done.
  - intros u s Hs [Hin|Hin%list_elem_of_singleton]%elem_of_app.
    + by apply (H5 u s).
    + by subst e.
  - intros c [Hin|Hin%list_elem_of_singleton]%elem_of_app; [by apply H6|].
    by subst e.
  - intros c v u Ho Hk. apply elem_of_app. left. by eapply H7.
Qed.

Lemma linked_set_pending f w : linked w → linked (set_pending f w).
Proof. by intros [H1 H2 H3 H4 H5 H6 H7]. Qed.

Lemma linked_respond rid code b w : linked w → linked (respond rid code b w).
Proof. intros Hw. unfold respond. by apply linked_emit, linked_set_pending. Qed.

Lemma linked_set_timer d k w :
  (∀ u c, k ≠ TIdle u c) → linked w → linked (set_timer d k w).
Proof.
  intros Hk [H1 H2 H3 H4 H5 H6 H7]. split; cbn; try done.
  - intros t tm u c [[<- <-]|[_ Ht]]%lookup_insert_Some Hkind.
    + cbn in Hkind. exfalso. by eapply Hk.
    + by eapply H1.
  - intros t tm u c s [[<- <-]|[_ Ht]]%lookup_insert_Some Hkind.
    + cbn in Hkind. exfalso. by eapply Hk.
    + by eapply H2.
Qed.

Lemma linked_clear_timer t w : linked w → linked (clear_timer t w).
Proof.
  intros [H1 H2 H3 H4 H5 H6 H7]. split; cbn; try done.
  - intros t' tm u c [_ Ht]%lookup_delete_Some. by eapply H1.
  - intros t' tm u c s [_ Ht]%lookup_delete_Some. by eapply H2.
Qed.

Lemma linked_rearm t tm w :
  timers w !! t = Some tm → linked w → linked (rearm t tm w).
Proof.
  intros Ht [H1 H2 H3 H4 H5 H6 H7]. split; cbn; try done.
  - intros t' tm' u c [[<- <-]|[_ Hl]]%lookup_insert_Some Hkind.
    + cbn in Hkind. by eapply H1.
    + by eapply H1.
  - intros t' tm' u c s [[<- <-]|[_ Hl]]%lookup_insert_Some Hkind.
    + cbn in Hkind. by eapply H2.
    + by eapply H2.
Qed.

Lemma linked_now t w : linked w → linked (set_now t w).
Proof. by intros [H1 H2 H3 H4 H5 H6 H7]. Qed.

Lemma linked_bump w : linked w → linked (bump_req w).
Proof. by intros [H1 H2 H3 H4 H5 H6 H7]. Qed.

Lemma linked_files f w : linked w → linked (set_files f w).
Proof. by intros [H1 H2 H3 H4 H5 H6 H7]. Qed.

(** A write to the fields of an entry that keeps its client and timer
    handle and leaves it not ready. *)
Lemma linked_update u s s' w :
  sessions w !! u = Some s → client s' = client s →
  timeout s' = timeout s → ready s' = false →
  linked w → linked (set_sessions (<[u := s']>) w).
Proof.
  intros Hs Hc Hto Hr [H1 H2 H3 H4 H5 H6 H7]. split; cbn; try done.
  - intros t tm v c s0 Ht Hk [[<- <-]|[_ Hl]]%lookup_insert_Some Hcl.
    + rewrite Hto. rewrite Hc in Hcl. by eapply H2.
    + by eapply H2.
  - intros v s0 [[<- <-]|[_ Hl]]%lookup_insert_Some Hrd; [congruence|].
    by eapply H3.
  - intros v s0 [[<- <-]|[_ Hl]]%lookup_insert_Some.
    + rewrite Hc. by apply H4.
    + by apply H4.
  - intros v s0 [[<- <-]|[_ Hl]]%lookup_insert_Some.
    + rewrite Hc. by apply (H5 u s).
    + by apply (H5 v s0).
Qed.

(** The ['ready'] callback: the stored timer is cleared and forgotten. *)
Lemma linked_on_ready u s w :
  sessions w !! u = Some s → linked w →
  linked (world_of (on_ready u w)).
Proof.
  intros Hs [H1 H2 H3 H4 H5 H6 H7]. unfold on_ready. rewrite Hs.
  assert (Hgone : ∀ t tm, timers w !! t = Some tm →
                          kind tm = TIdle u (client s) →
                          timeout s = Some t)
    by (intros t tm Ht Hk; by eapply H2).
  destruct (timeout s) as [t0|] eqn:Hto; cbn [world_of]; split; cbn;
    try done.
  - intros t tm v c [_ Ht]%lookup_delete_Some. by eapply H1.
  - intros t tm v c s0 [Hne Ht]%lookup_delete_Some Hk
      [[<- <-]|[_ Hl]]%lookup_insert_Some Hcl.
    + cbn in Hcl. subst c. specialize (Hgone t tm Ht Hk). congruence.
    + by eapply H2.
  - intros v s0 [[<- <-]|[_ Hl]]%lookup_insert_Some Hrd; [done|].
    by eapply H3.
  - intros v s0 [[<- <-]|[_ Hl]]%lookup_insert_Some; [cbn; by apply H4|].
    by apply H4.
  - intros v s0 [[<- <-]|[_ Hl]]%lookup_insert_Some.
    + by apply (H5 u s).
    + by apply (H5 v s0).
  - intros t tm v c s0 Ht Hk [[<- <-]|[_ Hl]]%lookup_insert_Some Hcl.
    + cbn in Hcl. subst c. specialize (Hgone t tm Ht Hk). congruence.
    + by eapply H2.
  - intros v s0 [[<- <-]|[_ Hl]]%lookup_insert_Some Hrd; [done|].
    by eapply H3.
  - intros v s0 [[<- <-]|[_ Hl]]%lookup_insert_Some; [cbn; by apply H4|].
    by apply H4.
  - intros v s0 [[<- <-]|[_ Hl]]%lookup_insert_Some.
    + by apply (H5 u s).
    + by apply (H5 v s0).
Qed.

Lemma linked_delete u w : linked w → linked (set_sessions (delete u) w).
Proof.
  intros [H1 H2 H3 H4 H5 H6 H7]. split; cbn; try done.
  - intros t tm v c s Ht Hk [_ Hl]%lookup_delete_Some. by eapply H2.
  - intros v s [_ Hl]%lookup_delete_Some. by eapply H3.
  - intros v s [_ Hl]%lookup_delete_Some. by apply H4.
  - intros v s [_ Hl]%lookup_delete_Some. by apply (H5 v s).
Qed.

(** [client.destroy()] followed by [delete sessions[userId]], for a client
    of that userId. *)
Lemma linked_destroy_delete u c w :
  (∃ v, owner w !! c = Some v ∧ key_of v = Some u) → wf w → linked w →
  linked (set_sessions (delete u) (emit (EDestroy c) w)).
Proof.
  intros (v0 & Ho & Hk0) Hwf [H1 H2 H3 H4 H5 H6 H7]. split; cbn; try done.
  - intros t tm v c0 s Ht Hk [_ Hl]%lookup_delete_Some. by eapply H2.
  - intros v s [_ Hl]%lookup_delete_Some. by eapply H3.
  - intros v s [_ Hl]%lookup_delete_Some. by apply H4.
  - intros v s [Hne Hl]%lookup_delete_Some
      [Hin|Hin%list_elem_of_singleton]%elem_of_app.
    + by apply (H5 v s).
    + inversion Hin as [Hcl]. destruct (H4 v s Hl) as (v1 & Ho1 & Hk1).
      rewrite Hcl in Ho1. congruence.
  - intros c0 [Hin|Hin%list_elem_of_singleton]%elem_of_app; [by apply H6|].
    inversion Hin; subst. by apply (wf_owner w Hwf c v0).
  - intros c0 v k Hv Hk. apply elem_of_app. left. by eapply H7.
Qed.

Lemma linked_install v u w :
  key_of v = Some u → wf w → linked w → linked (install v u w).
Proof.
  intros Hkey [Hwo Hwc _ _] [H1 H2 H3 H4 H5 H6 H7]. unfold install.
  split; cbn; rewrite ?insert_insert_eq.
  - intros t tm k c [[<- <-]|[_ Ht]]%lookup_insert_Some Hk.
    + cbn in Hk. inversion Hk; subst. exists v.
      split; [apply lookup_insert_eq|done].
    + destruct (H1 t tm k c Ht Hk) as (v0 & Ho & Hk0). exists v0.
      split; [|done]. rewrite lookup_insert_ne; [done|].
      specialize (Hwo c v0 Ho). cbn in Hwo. lia.
  - intros t tm k c s [[<- <-]|[Hne Ht]]%lookup_insert_Some Hk.
    + cbn in Hk. inversion Hk; subst. rewrite lookup_insert_eq.
      intros Hs; by inversion Hs.
    + intros [[<- <-]|[_ Hl]]%lookup_insert_Some Hcl.
      * cbn in Hcl. subst c.
        destruct (H1 t tm _ _ Ht Hk) as (v0 & Ho & _).
        specialize (Hwo _ _ Ho). cbn in Hwo. lia.
      * by eapply H2.
  - intros k s [[<- <-]|[_ Hl]]%lookup_insert_Some Hr; [done|]. by eapply H3.
  - intros k s [[<- <-]|[_ Hl]]%lookup_insert_Some.
    + cbn. exists v. split; [apply lookup_insert_eq|done].
    + destruct (H4 k s Hl) as (v0 & Ho & Hk0). exists v0. split; [|done].
      rewrite lookup_insert_ne; [done|].
      specialize (Hwc k s Hl). cbn in Hwc. lia.
  - intros k s Hl Hin.
    assert (Hold : EDestroy (client s) ∈ log w).
    { apply elem_of_app in Hin as [Hin|Hin%list_elem_of_singleton];
        [|discriminate Hin].
      apply elem_of_app in Hin as [Hin|Hin%list_elem_of_singleton];
        [done|discriminate Hin]. }
    apply lookup_insert_Some in Hl as [[<- <-]|[_ Hl]].
    + cbn in Hold. specialize (H6 _ Hold). lia.
    + by apply (H5 k s).
  - intros c Hin.
    assert (Hold : EDestroy c ∈ log w).
    { apply elem_of_app in Hin as [Hin|Hin%list_elem_of_singleton];
        [|discriminate Hin].
      apply elem_of_app in Hin as [Hin|Hin%list_elem_of_singleton];
        [done|discriminate Hin]. }
    specialize (H6 c Hold). lia.
  - intros c v0 k [[<- <-]|[_ Ho]]%lookup_insert_Some Hk0.
    + apply elem_of_app. left. apply elem_of_app. right.
      apply list_elem_of_singleton. congruence.
    + apply elem_of_app. left. apply elem_of_app. left. by eapply H7.
Qed.

Lemma linked_proceed rid req c w : linked w → linked (proceed rid req c w).
Proof.
  intros Hw. unfold proceed.
  repeat case_match; try (by apply linked_respond);
    by apply linked_set_pending, linked_emit.
Qed.

Lemma linked_start_wait rid u req w :
  linked w → linked (start_wait rid u req w).
Proof.
  intros Hw. unfold start_wait. apply linked_set_pending.
  apply linked_set_timer; [discriminate|].
  by apply linked_set_timer; [discriminate|].
Qed.

Lemma linked_ensured v u w :
  key_of v = Some u → wf w → linked w → linked (ensured v u w).
Proof.
  intros Hk Hwf Hw. unfold ensured. destruct (has_entry u w); [done|].
  by apply linked_install.
Qed.

Lemma linked_boot d : linked (boot d).
Proof.
  split; cbn; intros; try (by rewrite lookup_empty in *).
  by apply not_elem_of_nil in H.
Qed.

Lemma linked_initial : linked initial.
Proof. apply linked_boot. Qed.

Lemma linked_handle rid r w :
  wf w → linked w → linked (world_of (handle rid r w)).
Proof.
  intros Hwf Hw. destruct r as [v|u|v req]; cbn [handle].
  - destruct (start_session_cases rid v w)
      as [[_ ->]|[[msg ->]|(u & Hk & _ & Hv & ->)]]; cbn [world_of];
      [by apply linked_respond|done|].
    apply linked_set_timer; [discriminate|]. by apply linked_ensured.
  - destruct (String.eqb_spec u "") as [->|Hne];
      [cbn [world_of]; by apply linked_respond|].
    cbn [world_of]. destruct (check_login_cases rid u w Hne)
      as [(code & b & ->)|(Hs & Hp & Hv & _ & ->)];
      apply linked_respond; [done|]. by apply linked_install.
  - cbn [world_of]. unfold send_handler.
    destruct (required_ok v req) eqn:Hreq; [|by apply linked_respond].
    destruct (ensureClientReady_cases rid v req w (required_truthy _ _ Hreq))
      as [[msg ->]|(u & Hk & Hv & [[c ->]| ->])];
      [by apply linked_respond| |].
    + by apply linked_proceed, linked_ensured.
    + by apply linked_start_wait, linked_ensured.
Qed.

(** An exception in the ['disconnected'] callback leaves a destroyed client
    registered: the statement is about the callbacks that return. *)
Lemma linked_on_backend v c ev w w' :
  owner w !! c = Some v → wf w → linked w →
  on_backend v c ev w = Done w' → linked w'.
Proof.
  intros Ho Hwf Hw. unfold on_backend.
  destruct (key_of v) as [u|] eqn:Hk; [|done].
  destruct ev.
  - unfold on_qr. destruct (sessions w !! u) as [s|] eqn:Hs; [|done].
    intros [= <-]. by apply (linked_update u s).
  - intros Hr. to_world Hr.
    destruct (sessions w !! u) as [s|] eqn:Hs.
    + by apply (linked_on_ready u s).
    + unfold on_ready in Hr. by rewrite Hs in Hr.
  - by intros [= <-].
  - unfold on_auth_failure.
    destruct (sessions w !! u) as [s|] eqn:Hs; [|done].
    intros [= <-]. by apply (linked_update u s).
  - intros Hd. pose proof (on_disconnected_cases v u c w Hk) as Hc.
    rewrite Hd in Hc. destruct Hc as (s & Hs & -> & ->).
    set (w1 := disc_flags u s w).
    assert (Hw1 : linked w1) by (by apply (linked_update u s)).
    assert (Hwf1 : wf w1) by (by apply (wf_update u s)).
    assert (Hdd : linked (set_sessions (delete u) (emit (EDestroy c) w1))).
    { apply linked_destroy_delete; [|done..]. by exists (JStr u). }
    assert (Hwfdd : wf (set_sessions (delete u) (emit (EDestroy c) w1))).
    { apply wf_delete. by apply (wf_frame w1). }
    unfold disc_delete, disc_rm_auth, disc_destroy. fold w1.
    destruct (auth_exists u (emit (EDestroy c) w1)).
    + apply linked_install; [done| |].
      { apply wf_delete. apply (wf_frame w1); [by repeat split|done]. }
      destruct Hdd as [H1 H2 H3 H4 H5 H6 H7]. split; cbn in *; try done.
      * intros k s0 Hl
          [Hin|Hin%list_elem_of_singleton]%elem_of_app;
          [by apply (H5 k s0)|discriminate Hin].
      * intros c0 [Hin|Hin%list_elem_of_singleton]%elem_of_app;
          [by apply H6|discriminate Hin].
      * intros c0 v0 k Hv Hk0. apply elem_of_app. left. by eapply H7.
    + by apply linked_install.
Qed.

Lemma linked_fire t w : wf w → linked w → linked (world_of (fire t w)).
Proof.
  intros Hwf Hw. unfold fire.
  destruct (timers w !! t) as [tm|] eqn:Ht; [|apply linked_initial].
  destruct (due tm <=? now w); [|apply linked_initial].
  destruct (kind tm) as [u c|rid u|rid u|rid i] eqn:Hk.
  - unfold fire_idle; cbn [clear_timer set_timers sessions].
    destruct (sessions w !! u) as [s|]; [|by apply linked_clear_timer].
    destruct (ready s); cbn [world_of]; [by apply linked_clear_timer|].
    apply (linked_destroy_delete u c (clear_timer t w)).
    + cbn. by apply (linked_idle_owner w Hw t tm u c).
    + by apply (wf_frame w).
    + by apply linked_clear_timer.
  - unfold fire_grace; cbn [clear_timer set_timers sessions].
    repeat case_match; cbn [world_of];
      try (by apply linked_clear_timer);
      try (by apply linked_respond, linked_clear_timer).
    by apply linked_set_pending, linked_emit, linked_clear_timer.
  - cbn [world_of].
    assert (Hr : linked (rearm t tm w)) by (by apply linked_rearm).
    unfold rearm in Hr. rewrite Hk in Hr.
    unfold fire_poll. cbn [set_timers sessions].
    destruct (sessions w !! u) as [s|]; [|done].
    destruct (ready s); [|done]. unfold resolve.
    match goal with
    | |- linked (match pending ?w0 !! rid with _ => _ end) =>
        assert (Hc : linked w0) by (by apply linked_clear_timer)
    end.
    match goal with
    | |- linked (match ?p with _ => _ end) => destruct p as [[]|]
    end; try done.
    by apply linked_proceed.
  - cbn [world_of]. unfold fire_wait_timeout, reject.
    cbn [clear_timer set_timers pending].
    assert (Hc : linked (clear_timer i (clear_timer t w)))
      by (by do 2 apply linked_clear_timer).
    destruct (pending w !! rid) as [[]|]; try done.
    by apply linked_respond.
Qed.

Lemma linked_step w e w' :
  wf w → linked w → step w e = Done w' → linked w'.
Proof.
  intros Hwf Hw Hstep.
  destruct e as [r|c ev| | | | | |]; cbn [step] in Hstep.
  2:{ destruct (owner w !! c) as [v|] eqn:Ho; [|done].
      by apply (linked_on_backend v c ev w). }
  all: to_world Hstep.
  - apply linked_handle; [by apply (wf_frame w)|]. by apply linked_bump.
  - by apply linked_fire.
  - destruct (may_advance dt w); [|apply linked_initial].
    by apply linked_now.
  - unfold fetch_done. repeat case_match; try apply linked_initial;
      cbn [world_of]; try (by apply linked_respond).
    by apply linked_set_pending, linked_emit.
  - unfold send_done. repeat case_match; try apply linked_initial;
      cbn [world_of]; try (by apply linked_respond).
    by apply linked_set_pending, linked_emit.
  - unfold qr_done. repeat case_match; try apply linked_initial;
      cbn [world_of]; by apply linked_respond.
  - destruct (may_create p w); [|apply linked_initial].
    cbn [world_of]. by apply linked_files.
Qed.

Lemma reachable_linked w : reachable w → linked w.
Proof.
  induction 1 as [d|w e w' Hreach IH Hstep]; [apply linked_boot|].
  by apply (linked_step w e w' (reachable_wf w Hreach) IH).
Qed.

(** X9: the handle a session stores is that of its own idle timer, and the
    'ready' callback cancels that timer for good. In every world the server
    can reach, a ready session stores no timer handle, and a session that
    stores none (it was ready once, whatever 'qr' or 'auth_failure' made of
    it since) has no idle timer of its own pending: the only idle timer
    that can still remove its entry is one left behind by an earlier client
    of the same userId, and only while the session is not ready. *)
Theorem X9_idle_timer_of_a_session :
  ∀ (w : World) (u : string) (s : Session),
    reachable w → sessions w !! u = Some s →
    (ready s = true → timeout s = None)
    ∧ (∀ t tm, timeout s = Some t → timers w !! t = Some tm →
               kind tm = TIdle u (client s))
    ∧ (timeout s = None →
       (∀ t tm, timers w !! t = Some tm → kind tm ≠ TIdle u (client s))
       ∧ ∀ t w', step w (Fire t) = Done w' → sessions w' !! u = None →
                 ready s = false
                 ∧ ∃ tm c, timers w !! t = Some tm ∧ kind tm = TIdle u c
                           ∧ c ≠ client s).
Proof.
  intros w u s Hreach Hs.
  pose proof (reachable_linked w Hreach) as Hl.
  pose proof (reachable_timed w Hreach) as Ht.
  split; [by apply (linked_ready w Hl u s)|].
  split.
  { intros t tm Hto Htm.
    by destruct (timed_session w Ht u s t Hs Hto) as [_ ->]. }
  intros Hto.
  assert (Hnone : ∀ t tm, timers w !! t = Some tm →
                          kind tm ≠ TIdle u (client s)).
  { intros t tm Htm Hk.
    pose proof (linked_idle_session w Hl t tm u (client s) s Htm Hk Hs eq_refl).
    congruence. }
  split; [exact Hnone|].
  intros t w' Hstep Hgone. cbn [step] in Hstep. unfold fire in Hstep.
  destruct (timers w !! t) as [tm|] eqn:Htm; [|done].
  destruct (due tm <=? now w); [|done].
  destruct (kind tm) as [v c|rid v|rid v|rid i] eqn:Hk.
  - unfold fire_idle in Hstep; cbn [clear_timer set_timers sessions] in Hstep.
    destruct (sessions w !! v) as [s0|] eqn:Hv; [|done].
    destruct (ready s0) eqn:Hr0; inversion Hstep; subst w'.
    + cbn in Hgone. congruence.
    + cbn in Hgone. destruct (decide (v = u)) as [->|Hne].
      * same_lookup Hs Hv. split; [done|]. exists tm, c.
        repeat split; try done. intros ->. by apply (Hnone t tm).
      * rewrite lookup_delete_ne in Hgone by done. congruence.
  - exfalso. unfold fire_grace in Hstep.
    cbn [clear_timer set_timers sessions] in Hstep.
    repeat case_match; inversion Hstep; subst w'; cbn in Hgone; congruence.
  - exfalso. inversion Hstep; subst w'. clear Hstep.
    unfold fire_poll, resolve in Hgone. cbn [set_timers sessions] in Hgone.
    repeat case_match; cbn in Hgone; try congruence.
    match type of Hgone with
    | sessions (proceed ?r ?q ?c ?w0) !! _ = _ =>
        destruct (proceed_same_registry r q c w0) as (Heq & _)
    end.
    rewrite Heq in Hgone. cbn in Hgone. congruence.
  - exfalso. inversion Hstep; subst w'. clear Hstep.
    unfold fire_wait_timeout, reject in Hgone.
    repeat case_match; cbn in Hgone; congruence.
Qed.

Lemma X9_idle_timer_of_a_session_witness :
  sessions ready_world !! alice = Some (mkSession 0%nat true None false None)
  ∧ ∀ t tm, timers ready_world !! t = Some tm →
            kind tm ≠ TIdle alice 0%nat.
Proof.
  split; [vm_compute; reflexivity|].
  destruct (X9_idle_timer_of_a_session ready_world alice
              (mkSession 0%nat true None false None) ready_world_reachable)
    as (_ & _ & Hnone).
  - vm_compute; reflexivity.
  - exact (proj1 (Hnone eq_refl)).
Defined.



(** X11: the wait does not keep the client it saw when the request
    arrived. If, while a send request waits, the session's client (of a
    userId that is a string) disconnects and the replacement that the disconnect callback creates
    becomes ready, the next poll resumes the handler with the replacement,
    a client that did not exist when the wait began. *)
Theorem X11_wait_follows_the_replacement :
  ∀ (w : World) (rid : ReqId) (u : string) (req : SendReq) (c : ClientId)
    (s : Session) (t : TimerId) (tm : Timer) (reason : string),
    reachable w →
    owner w !! c = Some (JStr u) → sessions w !! u = Some s →
    pending w !! rid = Some (PWaitReady u req) →
    timers w !! t = Some tm → kind tm = TPoll rid u → due tm ≤ now w →
    let c' := nextClient w in
    ∃ w2, run w [Backend c (EvDisconnected reason); Backend c' EvReady]
          = Done w2
          ∧ sessions w2 !! u = Some (mkSession c' true None false None)
          ∧ c' ≠ c ∧ c' ≠ client s ∧ owner w !! c' = None
          ∧ step w2 (Fire t)
            = Done (proceed rid req c' (clear_timer t w2)).
Proof.
  intros w rid u req c s t tm reason Hreach Ho Hs Hp Ht Hk Hd c'.
  pose proof (reachable_wf w Hreach) as [Hwo Hwc _ _].
  destruct (reachable_valid_owner w c _ Hreach Ho) as (k & [= <-] & _ & Hvalid).
  pose proof (timed_fresh w (reachable_timed w Hreach) t tm Ht) as Hfresh.
  set (w0 := disc_delete u (disc_rm_auth u
               (disc_destroy c (disc_flags u s w)))).
  assert (Hw0 : nextClient w0 = nextClient w ∧ nextTimer w0 = nextTimer w
                ∧ timers w0 = timers w ∧ pending w0 = pending w
                ∧ now w0 = now w ∧ owner w0 = owner w).
  { unfold w0, disc_rm_auth. by case_match. }
  destruct Hw0 as (Hn0 & Ht0 & Htm0 & Hp0 & Hnow0 & Ho0).
  assert (Hstep1 : step w (Backend c (EvDisconnected reason))
                   = Done (install (JStr u) u w0)).
  { cbn [step]. rewrite Ho. unfold on_backend. cbn [key_of].
    unfold on_disconnected. rewrite Hs. fold w0.
    by rewrite (createClient_ok (JStr u) u). }
  clearbody w0.
  assert (Hw1 : ∃ w1, w1 = install (JStr u) u w0
                ∧ sessions w1 !! u
                  = Some (mkSession c' false None true (Some (nextTimer w)))
                ∧ owner w1 !! c' = Some (JStr u)
                ∧ timers w1 = <[nextTimer w := mkTimer (now w + idle_window)
                                                 (TIdle u c')]> (timers w)
                ∧ pending w1 = pending w ∧ now w1 = now w).
  { eexists. split; [reflexivity|]. rewrite install_entry.
    unfold install; cbn. rewrite Hn0, Ht0, Htm0, Hp0, Hnow0.
    repeat split. apply lookup_insert_eq. }
  destruct Hw1 as (w1 & Hw1 & Hs1 & Ho1 & Htm1 & Hp1 & Hnow1).
  rewrite <- Hw1 in Hstep1. clear Hw1.
  set (w2 := set_sessions (<[u := mkSession c' true None false None]>)
               (clear_timer (nextTimer w) w1)).
  assert (Hstep2 : step w1 (Backend c' EvReady) = Done w2).
  { cbn [step]. rewrite Ho1. unfold on_backend. cbn [key_of].
    unfold on_ready. by rewrite Hs1. }
  assert (Ht2 : timers w2 !! t = Some tm).
  { unfold w2; cbn. rewrite Htm1.
    rewrite lookup_delete_ne by lia. by rewrite lookup_insert_ne by lia. }
  assert (Hp2 : pending w2 !! rid = Some (PWaitReady u req)).
  { unfold w2; cbn. by rewrite Hp1. }
  assert (Hnow2 : now w2 = now w) by (unfold w2; cbn; exact Hnow1).
  exists w2. split.
  { rewrite (run_cons_done _ _ _ _ Hstep1).
    by rewrite (run_cons_done _ _ _ _ Hstep2). }
  assert (Hs2 : sessions w2 !! u = Some (mkSession c' true None false None)).
  { unfold w2; cbn. apply lookup_insert_eq. }
  split; [exact Hs2|].
  split; [specialize (Hwo c _ Ho); cbn in Hwo; unfold c'; lia|].
  split; [specialize (Hwc u s Hs); cbn in Hwc; unfold c'; lia|].
  split.
  { destruct (owner w !! c') as [v|] eqn:Hv; [|done].
    specialize (Hwo c' v Hv). cbn in Hwo. unfold c' in Hwo. lia. }
  cbn [step]. rewrite (fire_due _ _ _ Ht2) by (by rewrite Hnow2).
  rewrite Hk.
  rewrite (fire_poll_ready t rid u (rearm t tm w2)
             (mkSession c' true None false None) req); try done.
  by rewrite clear_rearm.
Qed.

Lemma X11_wait_follows_the_replacement_witness :
  pending (world_of (run waiting_world [Advance 1000])) !! 0%nat
  = Some (PWaitReady alice (SendMessage (JStr "12345") (JStr "hi")))
  ∧ ∃ w2, run (world_of (run waiting_world [Advance 1000]))
            [Backend 0%nat (EvDisconnected "LOGOUT"); Backend 1%nat EvReady]
          = Done w2
          ∧ sessions w2 !! alice = Some (mkSession 1%nat true None false None).
Proof.
  split; [vm_compute; reflexivity|].
  destruct (X11_wait_follows_the_replacement
              (world_of (run waiting_world [Advance 1000])) 0%nat alice
              (SendMessage (JStr "12345") (JStr "hi")) 0%nat
              (mkSession 0%nat false None true (Some 0%nat)) 1%nat
              (mkTimer 1000 (TPoll 0%nat alice)) "LOGOUT")
    as (w2 & Hrun & Hs2 & _).
  - apply (run_reachable [Http short_number_request; Advance 1000] initial);
      [apply reach_initial|]. vm_compute. reflexivity.
  - vm_compute; reflexivity.
  - vm_compute; reflexivity.
  - vm_compute; reflexivity.
  - vm_compute; reflexivity.
  - reflexivity.
  - vm_compute. discriminate.
  - exists w2. split; [exact Hrun|]. exact Hs2.
Defined.

(** ** Requests and their responses in the reachable worlds *)

Lemma answered_emit e w :
  answered (emit e w)
  = answered w ++ match e with ERespond rid _ _ => [rid] | _ => [] end.
Proof.
  unfold answered. rewrite responses_emit, fmap_app. by destruct e.
Qed.

Lemma same_grace_refl m : same_grace m m.
Proof. by intros t rid u. Qed.

Lemma same_grace_trans m1 m2 m3 :
  same_grace m1 m2 → same_grace m2 m3 → same_grace m1 m3.
Proof. intros H12 H23 t rid u. etrans; [apply H23|apply H12]. Qed.

Lemma same_grace_insert (m : gmap nat Timer) t tm :
  (∀ rid u, kind tm ≠ TGrace rid u) →
  (∀ tm0 rid u, m !! t = Some tm0 → kind tm0 ≠ TGrace rid u) →
  same_grace m (<[t := tm]> m).
Proof.
  intros Hk Hold t' rid u. split.
  - intros (tm' & [[<- <-]|[_ Hl]]%lookup_insert_Some & Hkind).
    + exfalso. by eapply Hk.
    + by exists tm'.
  - intros (tm' & Hl & Hkind). exists tm'. split; [|done].
    rewrite lookup_insert_ne; [done|]. intros <-. by eapply Hold.
Qed.

Lemma same_grace_delete (m : gmap nat Timer) t :
  (∀ tm0 rid u, m !! t = Some tm0 → kind tm0 ≠ TGrace rid u) →
  same_grace m (delete t m).
Proof.
  intros Hold t' rid u. split.
  - intros (tm' & [_ Hl]%lookup_delete_Some & Hkind). by exists tm'.
  - intros (tm' & Hl & Hkind). exists tm'. split; [|done].
    apply lookup_delete_Some. split; [|done]. intros <-. by eapply Hold.
Qed.

Lemma in_grace_same w w' rid :
  same_grace (timers w) (timers w') → in_grace w' rid ↔ in_grace w rid.
Proof.
  intros Hg. unfold in_grace. split.
  - intros (t & tm & u & Ht & Hk).
    destruct (proj1 (Hg t rid u)) as (tm0 & H0 & Hk0); [by exists tm|].
    by exists t, tm0, u.
  - intros (t & tm & u & Ht & Hk).
    destruct (proj2 (Hg t rid u)) as (tm0 & H0 & Hk0); [by exists tm|].
    by exists t, tm0, u.
Qed.

Lemma same_requests_intro w w' :
  answered w' = answered w → pending w' = pending w →
  nextReq w' = nextReq w → same_grace (timers w) (timers w') →
  same_requests w w'.
Proof. by intros; split; [|split; [|split]]. Qed.

Lemma once_frame o w w' : same_requests w w' → once_at o w → once_at o w'.
Proof.
  intros (Ha & Hp & Hn & Hg) [H1 H2 H3 H4 H5 H6].
  split; rewrite ?Ha, ?Hp, ?Hn; try done.
  - intros rid Hin. destruct (H2 rid Hin) as (? & ? & ? & ?).
    repeat split; try done. by rewrite (in_grace_same w w').
  - intros rid p Hl. destruct (H3 rid p Hl) as (? & ? & ?).
    repeat split; try done. by rewrite (in_grace_same w w').
  - intros t tm rid u Ht Hk.
    destruct (proj1 (Hg t rid u)) as (tm0 & H0 & Hk0); [by exists tm|].
    destruct (H4 t tm0 rid u H0 Hk0) as (? & ? & Huniq).
    repeat split; try done. intros t' tm' u' Ht' Hk'.
    destruct (proj1 (Hg t' rid u')) as (tm1 & H1' & Hk1); [by exists tm'|].
    by eapply Huniq.
  - intros rid Hlt Ho. destruct (H6 rid Hlt Ho) as [?|[?|?]]; auto.
    right; right. by rewrite (in_grace_same w w').
Qed.

Lemma live_frame o w w' rid :
  pending w' = pending w → live o w rid → live o w' rid.
Proof. intros Hp. unfold live. by rewrite Hp. Qed.

Lemma once_open w :
  once_at None w → once_at (Some (nextReq w)) (bump_req w).
Proof.
  intros [H1 H2 H3 H4 H5 H6]. split; cbn; try done.
  - intros rid Hin. destruct (H2 rid Hin) as (? & ? & ? & ?).
    repeat split; try done; [lia|]. intros [= <-]. lia.
  - intros rid p Hl. destruct (H3 rid p Hl) as (? & ? & ?).
    repeat split; try done; [lia|]. intros [= <-]. lia.
  - intros t tm rid u Ht Hk. destruct (H4 t tm rid u Ht Hk) as (? & ? & ?).
    repeat split; try done; [lia|]. intros [= <-]. lia.
  - intros rid [= <-]. lia.
  - intros rid Hlt Ho. apply H6; [|done].
    destruct (decide (rid = nextReq w)) as [->|]; [done|lia].
Qed.

(** The state of a request whose handler may act. *)
Lemma live_state o w rid :
  once_at o w → live o w rid →
  (rid < nextReq w)%nat ∧ (rid ∉ answered w) ∧ ¬ in_grace w rid.
Proof.
  intros [H1 H2 H3 H4 H5 H6] [->|[-> [p Hp]]].
  - split; [by apply H5|]. split.
    + intros Hin. by destruct (H2 rid Hin) as (_ & _ & _ & []).
    + intros (t & tm & u & Ht & Hk).
      by destruct (H4 t tm rid u Ht Hk) as (_ & [] & _).
  - destruct (H3 rid p Hp) as (? & ? & _). repeat split; try done.
    intros Hin. destruct (H2 rid Hin) as (_ & Hnone & _).
    same_lookup Hp Hnone.
Qed.

Lemma once_respond o w rid code b :
  once_at o w → live o w rid → once_at None (respond rid code b w).
Proof.
  intros Hw Hlive. destruct (live_state o w rid Hw Hlive) as (Hlt & Hna & Hng).
  destruct Hw as [H1 H2 H3 H4 H5 H6]. unfold respond.
  split; rewrite ?answered_emit; cbn.
  - apply NoDup_app. split; [done|]. split; [|apply NoDup_singleton].
    intros x Hx Hy%list_elem_of_singleton. by subst x.
  - intros rid' [Hin|Hin%list_elem_of_singleton]%elem_of_app.
    + destruct (H2 rid' Hin) as (? & ? & ? & ?). repeat split; try done.
      apply lookup_delete_None. by right.
    + subst rid'. repeat split; try done. apply lookup_delete_eq.
  - intros rid' p [Hne Hl]%lookup_delete_Some.
    destruct (H3 rid' p Hl) as (? & ? & ?). by repeat split.
  - intros t tm rid' u Ht Hk. destruct (H4 t tm rid' u Ht Hk) as (? & ? & ?).
    by repeat split.
  - done.
  - intros rid' Hlt' _. destruct (decide (rid' = rid)) as [->|Hne].
    { left. apply elem_of_app. right. by apply list_elem_of_singleton. }
    destruct (decide (o = Some rid')) as [->|Ho].
    { destruct Hlive as [[= ->]|[[=] _]]. done. }
    destruct (H6 rid' Hlt' Ho) as [?|[?|?]].
    + left. apply elem_of_app. by left.
    + right; left. by rewrite lookup_delete_ne.
    + by right; right.
Qed.

Lemma once_set_pending o w rid p :
  once_at o w → live o w rid →
  once_at None (set_pending (<[rid := p]>) w).
Proof.
  intros Hw Hlive. destruct (live_state o w rid Hw Hlive) as (Hlt & Hna & Hng).
  destruct Hw as [H1 H2 H3 H4 H5 H6].
  split; cbn; try done.
  - intros rid' Hin. destruct (H2 rid' Hin) as (? & ? & ? & ?).
    repeat split; try done. rewrite lookup_insert_ne; [done|]. by intros <-.
  - intros rid' p' [[<- <-]|[_ Hl]]%lookup_insert_Some; [done|].
    destruct (H3 rid' p' Hl) as (? & ? & ?). by repeat split.
  - intros t tm rid' u Ht Hk. destruct (H4 t tm rid' u Ht Hk) as (? & ? & ?).
    by repeat split.
  - intros rid' Hlt' _. destruct (decide (rid' = rid)) as [->|Hne].
    { right; left. rewrite lookup_insert_eq. by eexists. }
    destruct (decide (o = Some rid')) as [->|Ho].
    { destruct Hlive as [[= ->]|[[=] _]]. done. }
    destruct (H6 rid' Hlt' Ho) as [?|[?|?]]; auto.
    right; left. by rewrite lookup_insert_ne.
Qed.

Lemma once_set_grace w rid d u :
  once_at (Some rid) w → timers w !! nextTimer w = None →
  once_at None (set_timer d (TGrace rid u) w).
Proof.
  intros Hw Hfresh.
  destruct (live_state (Some rid) w rid Hw) as (Hlt & Hna & Hng); [by left|].
  destruct Hw as [H1 H2 H3 H4 H5 H6].
  assert (Hgr : ∀ rid', in_grace (set_timer d (TGrace rid u) w) rid' →
                        rid' = rid ∨ in_grace w rid').
  { intros rid' (t & tm & v & Ht & Hk). cbn in Ht.
    apply lookup_insert_Some in Ht as [[<- <-]|[_ Ht]].
    - cbn in Hk. left. by inversion Hk.
    - right. by exists t, tm, v. }
  split; cbn; try done.
  - intros rid' Hin. destruct (H2 rid' Hin) as (? & ? & ? & ?).
    repeat split; try done. intros [->|?]%Hgr; done.
  - intros rid' p Hl. destruct (H3 rid' p Hl) as (? & ? & Ho).
    repeat split; try done. intros [->|?]%Hgr; done.
  - intros t tm rid' v [[<- <-]|[Hne Ht]]%lookup_insert_Some Hk.
    + cbn in Hk. inversion Hk; subst. repeat split; try done.
      intros t' tm' u' [[<- <-]|[_ Ht']]%lookup_insert_Some Hk'; [done|].
      exfalso. apply Hng. by exists t', tm', u'.
    + destruct (H4 t tm rid' v Ht Hk) as (? & Ho & Huniq).
      repeat split; try done.
      intros t' tm' u' [[<- <-]|[_ Ht']]%lookup_insert_Some Hk'.
      * cbn in Hk'. inversion Hk'; subst. done.
      * by eapply Huniq.
  - intros rid' Hlt' _. destruct (decide (rid' = rid)) as [->|Hne].
    { right; right. exists (nextTimer w), (mkTimer (now w + d) (TGrace rid u)), u.
      split; [apply lookup_insert_eq|done]. }
    assert (Ho : Some rid ≠ Some rid') by (by intros [= ->]).
    destruct (H6 rid' Hlt' Ho) as [?|[?|(t & tm & v & Ht & Hk)]]; auto.
    right; right. exists t, tm, v. split; [|done].
    cbn. rewrite lookup_insert_ne; [done|]. intros <-.
    same_lookup Ht Hfresh.
Qed.

Lemma once_fire_grace w t tm rid u :
  once_at None w → timers w !! t = Some tm → kind tm = TGrace rid u →
  once_at (Some rid) (clear_timer t w).
Proof.
  intros [H1 H2 H3 H4 H5 H6] Ht Hk.
  destruct (H4 t tm rid u Ht Hk) as (Hlt & _ & Huniq).
  assert (Hgr : ∀ rid', in_grace (clear_timer t w) rid' →
                        rid' ≠ rid ∧ in_grace w rid').
  { intros rid' (t' & tm' & v & Ht' & Hk'). cbn in Ht'.
    apply lookup_delete_Some in Ht' as [Hne Ht'].
    split; [|by exists t', tm', v]. intros ->.
    by specialize (Huniq t' tm' v Ht' Hk'). }
  split; cbn; try done.
  - intros rid' Hin. destruct (H2 rid' Hin) as (? & ? & Hng & ?).
    repeat split; try done.
    + intros [_ ?]%Hgr. done.
    + intros [= ->]. apply Hng. by exists t, tm, u.
  - intros rid' p Hl. destruct (H3 rid' p Hl) as (? & Hng & ?).
    repeat split; try done.
    + intros [_ ?]%Hgr. done.
    + intros [= ->]. apply Hng. by exists t, tm, u.
  - intros t' tm' rid' v [Hne Ht']%lookup_delete_Some Hk'.
    destruct (H4 t' tm' rid' v Ht' Hk') as (? & _ & Huniq').
    repeat split; try done.
    + intros [= ->]. by specialize (Huniq t' tm' v Ht' Hk').
    + intros t2 tm2 u2 [_ Ht2]%lookup_delete_Some Hk2. by eapply Huniq'.
  - by intros rid' [= ->].
  - intros rid' Hlt' Ho.
    destruct (H6 rid' Hlt') as [?|[?|(t' & tm' & v & Ht' & Hk')]]; auto.
    right; right. exists t', tm', v. split; [|done]. cbn.
    apply lookup_delete_Some. split; [|done]. intros <-.
    same_lookup Ht Ht'. rewrite Hk in Hk'. inversion Hk'; subst. done.
Qed.

Lemma once_emit o e w :
  (∀ rid code b, e ≠ ERespond rid code b) →
  once_at o w → once_at o (emit e w).
Proof.
  intros He. apply once_frame.
  apply same_requests_intro; [|done..|apply same_grace_refl].
  rewrite answered_emit. destruct e; try apply app_nil_r.
  exfalso. by eapply He.
Qed.

Lemma once_timers o f w :
  same_grace (timers w) (f (timers w)) →
  once_at o w → once_at o (set_timers f w).
Proof. intros Hg. apply once_frame. by apply same_requests_intro. Qed.

Lemma once_set_timer o d k w :
  (∀ rid u, k ≠ TGrace rid u) → timers w !! nextTimer w = None →
  once_at o w → once_at o (set_timer d k w).
Proof.
  intros Hk Hfresh. apply once_frame.
  apply same_requests_intro; [done..|]. cbn.
  apply same_grace_insert; [done|]. intros tm0 rid u H.
  same_lookup H Hfresh.
Qed.

Lemma once_clear_timer o t w :
  (∀ tm rid u, timers w !! t = Some tm → kind tm ≠ TGrace rid u) →
  once_at o w → once_at o (clear_timer t w).
Proof.
  intros Hk. apply once_timers. apply same_grace_delete.
  intros tm0 rid u H. by eapply Hk.
Qed.

Lemma once_rearm o t tm w :
  timers w !! t = Some tm → (∀ rid u, kind tm ≠ TGrace rid u) →
  once_at o w → once_at o (rearm t tm w).
Proof.
  intros Ht Hk. apply once_timers. apply same_grace_insert; [done|].
  intros tm0 rid u H. same_lookup Ht H. apply Hk.
Qed.

Lemma once_sessions o f w : once_at o w → once_at o (set_sessions f w).
Proof.
  apply once_frame. apply same_requests_intro; [done..|apply same_grace_refl].
Qed.

Lemma timed_next_free w : timed w → timers w !! nextTimer w = None.
Proof.
  intros Hw. destruct (timers w !! nextTimer w) as [tm|] eqn:Ht; [|done].
  pose proof (timed_fresh w Hw _ _ Ht). lia.
Qed.

Lemma constructs_install v u w :
  constructs (install v u w) = constructs w ++ [nextClient w].
Proof. unfold constructs. rewrite install_log, omap_app. reflexivity. Qed.

Lemma responses_install v u w : responses (install v u w) = responses w.
Proof.
  unfold responses. rewrite install_log, omap_app. cbn.
  apply app_nil_r.
Qed.

Lemma once_install o v u w :
  timed w → once_at o w → once_at o (install v u w).
Proof.
  intros Ht. apply once_frame.
  apply same_requests_intro; [|done..|].
  - unfold answered. by rewrite responses_install.
  - unfold install; cbn.
    apply same_grace_insert; [done|]. intros tm0 rid k H.
    pose proof (timed_next_free w Ht) as Hfree. same_lookup H Hfree.
Qed.

Lemma once_ensured o v u w :
  timed w → once_at o w → once_at o (ensured v u w).
Proof.
  intros Ht Hw. unfold ensured. destruct (has_entry u w); [done|].
  by apply once_install.
Qed.

Lemma live_ensured o v u w rid : live o w rid → live o (ensured v u w) rid.
Proof.
  apply live_frame. unfold ensured. by destruct (has_entry u w).
Qed.

Lemma once_proceed o rid req c w :
  once_at o w → live o w rid → once_at None (proceed rid req c w).
Proof.
  intros Hw Hlive. unfold proceed.
  repeat case_match; try (by eapply once_respond);
    (eapply once_set_pending; [apply once_emit; [done|exact Hw]|]);
    by apply (live_frame o w).
Qed.

Lemma once_start_wait rid u req w :
  timed w → once_at (Some rid) w → once_at None (start_wait rid u req w).
Proof.
  intros Ht Hw. unfold start_wait.
  eapply once_set_pending; [|by left].
  apply once_set_timer; [done| |].
  { apply timed_next_free. by apply timed_set_timer. }
  apply once_set_timer; [done|by apply timed_next_free|done].
Qed.

(** A start-session that throws is left without a response: the statement
    is about the handlers that return. *)
Lemma once_handle rid r w w' :
  timed w → once_at (Some rid) w → handle rid r w = Done w' →
  once_at None w'.
Proof.
  intros Ht Hw. assert (Hlive : live (Some rid) w rid) by (by left).
  destruct r as [v|u|v req]; cbn [handle].
  - destruct (start_session_cases rid v w)
      as [[_ ->]|[[msg ->]|(u & Hk & _ & Hv & ->)]]; [|done|];
      intros [= <-]; [by eapply once_respond|].
    apply once_set_grace; [by apply once_ensured|].
    by apply timed_next_free, timed_ensured.
  - destruct (String.eqb_spec u "") as [->|Hne];
      [intros [= <-]; by eapply once_respond|]. intros [= <-].
    destruct (check_login_cases rid u w Hne)
      as [(code & b & ->)|(Hs & Hp & Hv & _ & ->)];
      [by eapply once_respond|].
    eapply once_respond; [by apply once_install|by left].
  - intros [= <-]. unfold send_handler.
    destruct (required_ok v req) eqn:Hreq; [|by eapply once_respond].
    destruct (ensureClientReady_cases rid v req w (required_truthy _ _ Hreq))
      as [[msg ->]|(u & Hk & Hv & [[c ->]| ->])];
      [by eapply once_respond| |].
    + eapply once_proceed; [by apply once_ensured|by left].
    + apply once_start_wait; [by apply timed_ensured|by apply once_ensured].
Qed.

Lemma once_on_backend v c ev w w' :
  timed w → once_at None w → on_backend v c ev w = Done w' →
  once_at None w'.
Proof.
  intros Ht Hw. unfold on_backend.
  destruct (key_of v) as [u|] eqn:Hkey; [|done].
  destruct ev; [| |by intros [= <-]| |].
  - unfold on_qr. destruct (sessions w !! u) as [s|]; [|done].
    intros [= <-]. by apply once_sessions.
  - unfold on_ready. destruct (sessions w !! u) as [s|] eqn:Hs; [|done].
    destruct (timeout s) as [t|] eqn:Hto; intros [= <-];
      apply once_sessions; [|done].
    apply once_clear_timer; [|done]. intros tm rid k Htm.
    destruct (timed_session w Ht u s t Hs Hto) as [_ Hidle].
    by rewrite (Hidle tm Htm).
  - unfold on_auth_failure. destruct (sessions w !! u) as [s|]; [|done].
    intros [= <-]. by apply once_sessions.
  - intros Hd. pose proof (on_disconnected_cases v u c w Hkey) as Hc.
    rewrite Hd in Hc. destruct Hc as (s & Hs & -> & ->).
    apply once_install; [by apply timed_disc_delete|].
    unfold disc_delete. apply once_sessions.
    apply (once_frame None (disc_flags u s w)).
    { unfold disc_rm_auth, disc_destroy. case_match.
      - apply same_requests_intro; [|done..|apply same_grace_refl].
        rewrite answered_emit. cbn [app]. rewrite app_nil_r.
        unfold answered, responses; cbn. rewrite omap_app. cbn.
        by rewrite app_nil_r.
      - apply same_requests_intro; [|done..|apply same_grace_refl].
        rewrite answered_emit. cbn. by rewrite app_nil_r. }
    by apply once_sessions.
Qed.

Lemma once_fire t w w' :
  timed w → once_at None w → fire t w = Done w' → once_at None w'.
Proof.
  intros Htd Hw. unfold fire.
  destruct (timers w !! t) as [tm|] eqn:Ht; [|done].
  destruct (due tm <=? now w); [|done].
  destruct (kind tm) as [u c|rid u|rid u|rid i] eqn:Hk.
  - assert (Hc : once_at None (clear_timer t w)).
    { apply once_clear_timer; [|done]. intros tm' rid v Ht'.
      same_lookup Ht Ht'. by rewrite Hk. }
    unfold fire_idle; cbn [clear_timer set_timers sessions].
    destruct (sessions w !! u) as [s|]; [|done].
    destruct (ready s); intros [= <-]; [done|].
    apply once_sessions. by apply once_emit.
  - pose proof (once_fire_grace w t tm rid u Hw Ht Hk) as Hc.
    assert (Hlive : live (Some rid) (clear_timer t w) rid) by (by left).
    unfold fire_grace; cbn [clear_timer set_timers sessions].
    repeat case_match; intros [= <-]; try (by eapply once_respond).
    eapply once_set_pending; [apply once_emit; [done|exact Hc]|by left].
  - intros [= <-].
    assert (Hr : once_at None (rearm t tm w)).
    { apply once_rearm; [done| |done]. intros rid' v. by rewrite Hk. }
    unfold rearm in Hr. rewrite Hk in Hr.
    unfold fire_poll. cbn [set_timers sessions].
    destruct (sessions w !! u) as [s|]; [|done].
    destruct (ready s); [|done]. unfold resolve.
    match goal with
    | |- once_at None (match pending ?w0 !! rid with _ => _ end) =>
        assert (Hc : once_at None w0)
    end.
    { apply once_clear_timer; [|done]. intros tm' rid' v.
      cbn. rewrite lookup_insert_eq. intros [= <-]. done. }
    match goal with
    | |- once_at None (match ?p with _ => _ end) =>
        destruct p as [[]|] eqn:Hp
    end; try done.
    eapply once_proceed; [exact Hc|]. right. split; [done|].
    rewrite Hp. by eexists.
  - intros [= <-]. unfold fire_wait_timeout, reject.
    assert (Hc : once_at None (clear_timer i (clear_timer t w))).
    { apply once_clear_timer.
      - intros tm' rid' v Hl. cbn in Hl.
        apply lookup_delete_Some in Hl as [_ Hl].
        destruct (timed_interval w Htd t tm rid i Ht Hk) as [_ Hpoll].
        destruct (Hpoll tm' Hl) as [v' ->]. done.
      - apply once_clear_timer; [|done]. intros tm' rid' v Ht'.
        same_lookup Ht Ht'. by rewrite Hk. }
    match goal with
    | |- once_at None (match ?p with _ => _ end) =>
        destruct p as [[]|] eqn:Hp
    end; try done.
    eapply once_respond; [exact Hc|]. right. split; [done|].
    rewrite Hp. by eexists.
Qed.

Lemma once_step w e w' :
  timed w → once_at None w → step w e = Done w' → once_at None w'.
Proof.
  intros Ht Hw. destruct e; cbn [step].
  - apply once_handle; [by apply (timed_frame w)|].
    by apply once_open.
  - destruct (owner w !! c) as [u|]; [|done]. by apply once_on_backend.
  - by apply once_fire.
  - destruct (may_advance dt w); [|done]. intros [= <-].
    apply (once_frame None w); [|done].
    apply same_requests_intro; [done..|apply same_grace_refl].
  - unfold fetch_done. destruct (pending w !! rid) as [p|] eqn:Hp; [|done].
    assert (Hlive : live None w rid) by (right; split; [done|by eexists]).
    destruct p; try done. destruct res; intros [= <-].
    + eapply once_set_pending; [by apply once_emit|].
      by apply (live_frame None w).
    + by eapply once_respond.
  - unfold send_done. destruct (pending w !! rid) as [p|] eqn:Hp; [|done].
    assert (Hlive : live None w rid) by (right; split; [done|by eexists]).
    destruct p; try done; destruct res; intros [= <-];
      try (by eapply once_respond).
    eapply once_set_pending; [by apply once_emit|].
    by apply (live_frame None w).
  - unfold qr_done. destruct (pending w !! rid) as [p|] eqn:Hp; [|done].
    assert (Hlive : live None w rid) by (right; split; [done|by eexists]).
    destruct p; try done; destruct res; intros [= <-];
      by eapply once_respond.
  - destruct (may_create p w); [|done]. intros [= <-].
    apply (once_frame None w); [|done].
    apply same_requests_intro; [done..|apply same_grace_refl].
Qed.

Lemma once_boot d : once_at None (boot d).
Proof.
  split; cbn; try done.
  - apply NoDup_nil_2.
  - intros rid Hin. by apply not_elem_of_nil in Hin.
  - intros. lia.
Qed.

Lemma reachable_once w : reachable w → once_at None w.
Proof.
  induction 1 as [d|w e w' Hreach IH Hstep]; [apply once_boot|].
  by apply (once_step w e w' (reachable_timed w Hreach) IH).
Qed.



(** ** The idle timer outlives a disconnect *)

(** X13: the 'disconnected' callback does not cancel the idle timer of the
    session it removes. After the disconnect of a session (of a userId that
    is a string) that still stores its timer handle, that timer is still pending although the registry now
    holds the replacement with another client; and whenever it runs while
    the registered session is not ready, it calls [destroy] on the old
    client of its closure, not on the registered one, and removes the
    entry. *)
Theorem X13_disconnect_keeps_the_idle_timer :
  ∀ (w : World) (u : string) (c : ClientId) (s : Session) (t : TimerId)
    (tm : Timer) (reason : string),
    reachable w →
    owner w !! c = Some (JStr u) → sessions w !! u = Some s →
    client s = c →
    timeout s = Some t → timers w !! t = Some tm →
    let c' := nextClient w in
    kind tm = TIdle u c
    ∧ (∃ w1, step w (Backend c (EvDisconnected reason)) = Done w1
             ∧ timers w1 !! t = Some tm
             ∧ sessions w1 !! u
               = Some (mkSession c' false None true (Some (nextTimer w)))
             ∧ c' ≠ c)
    ∧ ∀ (w2 : World) (s2 : Session),
        timers w2 !! t = Some tm → due tm ≤ now w2 →
        sessions w2 !! u = Some s2 → ready s2 = false →
        step w2 (Fire t)
        = Done (set_sessions (delete u)
                  (emit (EDestroy c) (clear_timer t w2))).
Proof.
  intros w u c s t tm reason Hreach Ho Hs Hc Hto Ht c'.
  pose proof (reachable_timed w Hreach) as Htd.
  destruct (reachable_valid_owner w c _ Hreach Ho) as (k & [= <-] & _ & Hvalid).
  destruct (timed_session w Htd u s t Hs Hto) as [Hlt Hidle].
  pose proof (Hidle tm Ht) as Hk. rewrite Hc in Hk.
  split; [exact Hk|]. split.
  - set (w0 := disc_delete u (disc_rm_auth u
                 (disc_destroy c (disc_flags u s w)))).
    assert (Hw0 : nextClient w0 = nextClient w ∧ nextTimer w0 = nextTimer w
                  ∧ timers w0 = timers w).
    { unfold w0, disc_rm_auth. by case_match. }
    destruct Hw0 as (Hn0 & Ht0 & Htm0).
    exists (install (JStr u) u w0). split.
    { cbn [step]. rewrite Ho. unfold on_backend. cbn [key_of].
      unfold on_disconnected. rewrite Hs. fold w0.
      by rewrite (createClient_ok (JStr u) u). }
    clearbody w0. split.
    { unfold install; cbn. rewrite Ht0, Htm0.
      by rewrite lookup_insert_ne by lia. }
    split; [rewrite install_entry; by rewrite Hn0, Ht0|].
    pose proof (wf_owner w (reachable_wf w Hreach) c _ Ho) as Hb.
    cbn in Hb. unfold c'. lia.
  - intros w2 s2 Ht2 Hd2 Hs2 Hr2. cbn [step].
    rewrite (fire_due _ _ _ Ht2 Hd2), Hk.
    unfold fire_idle; cbn [clear_timer set_timers sessions].
    by rewrite Hs2, Hr2.
Qed.

Lemma X13_disconnect_keeps_the_idle_timer_witness :
  sessions scanned_world !! alice
  = Some (mkSession 0%nat false (Some "2@qr-payload") true (Some 0%nat))
  ∧ ∃ w1, step scanned_world (Backend 0%nat (EvDisconnected "LOGOUT"))
          = Done w1
          ∧ timers w1 !! 0%nat = Some (mkTimer 120000 (TIdle alice 0%nat))
          ∧ sessions w1 !! alice
            = Some (mkSession (nextClient scanned_world) false None true
                      (Some (nextTimer scanned_world))).
Proof.
  split; [vm_compute; reflexivity|].
  destruct (X13_disconnect_keeps_the_idle_timer scanned_world alice 0%nat
              (mkSession 0%nat false (Some "2@qr-payload") true (Some 0%nat))
              0%nat (mkTimer 120000 (TIdle alice 0%nat)) "LOGOUT")
    as (_ & (w1 & Hstep & Htm & Hs1 & _) & _).
  - apply (run_reachable [Http (StartSession (JStr alice));
                          Backend 0%nat (EvQr "2@qr-payload")] initial);
      [apply reach_initial|]. vm_compute. reflexivity.
  - vm_compute; reflexivity.
  - vm_compute; reflexivity.
  - reflexivity.
  - reflexivity.
  - vm_compute; reflexivity.
  - exists w1. by repeat split.
Defined.

(** ** Deadlines of the reachable worlds *)

(** No session stores the handle of a timer that is not an idle timer. *)
Lemma not_a_handle t tm w :
  timed w → timers w !! t = Some tm → (∀ u c, kind tm ≠ TIdle u c) →
  ∀ u s, sessions w !! u = Some s → timeout s ≠ Some t.
Proof.
  intros Htd Ht Hk u s Hs Hto.
  destruct (timed_session w Htd u s t Hs Hto) as [_ Hidle].
  by eapply Hk, Hidle.
Qed.

Lemma armed_frame w w' :
  sessions w' = sessions w → timers w' = timers w → now w' = now w →
  armed w → armed w'.
Proof. intros Hs Ht Hn [H1 H2]. split; by rewrite ?Hs, ?Ht, ?Hn. Qed.

Lemma armed_emit e w : armed w → armed (emit e w).
Proof. by apply armed_frame. Qed.

Lemma armed_set_pending f w : armed w → armed (set_pending f w).
Proof. by apply armed_frame. Qed.

Lemma armed_respond rid code b w : armed w → armed (respond rid code b w).
Proof. by apply armed_frame. Qed.

Lemma armed_set_timer d k w :
  timers w !! nextTimer w = None →
  (∀ rid u, k = TGrace rid u → d ≤ 2000) →
  armed w → armed (set_timer d k w).
Proof.
  intros Hfree Hk [H1 H2]. split; cbn.
  - intros u s t Hs Hto. destruct (H1 u s t Hs Hto) as (tm & Ht & Hd).
    exists tm. split; [|done]. rewrite lookup_insert_ne; [done|].
    intros <-. same_lookup Ht Hfree.
  - intros t tm rid u [[<- <-]|[_ Ht]]%lookup_insert_Some Hkind.
    + cbn in *. specialize (Hk rid u Hkind). lia.
    + by eapply H2.
Qed.

Lemma armed_clear_timer t w :
  (∀ u s, sessions w !! u = Some s → timeout s ≠ Some t) →
  armed w → armed (clear_timer t w).
Proof.
  intros Hno [H1 H2]. split; cbn.
  - intros u s t' Hs Hto. destruct (H1 u s t' Hs Hto) as (tm & Ht & Hd).
    exists tm. split; [|done]. apply lookup_delete_Some. split; [|done].
    intros <-. by apply (Hno u s).
  - intros t' tm rid u [_ Ht]%lookup_delete_Some. by eapply H2.
Qed.

Lemma armed_rearm t tm w :
  timers w !! t = Some tm → (∀ rid u, kind tm ≠ TGrace rid u) →
  (∀ u s, sessions w !! u = Some s → timeout s ≠ Some t) →
  armed w → armed (rearm t tm w).
Proof.
  intros Ht Hk Hno [H1 H2]. split; cbn.
  - intros u s t' Hs Hto. destruct (H1 u s t' Hs Hto) as (tm' & Ht' & Hd).
    exists tm'. split; [|done]. rewrite lookup_insert_ne; [done|].
    intros <-. by apply (Hno u s).
  - intros t' tm' rid u [[<- <-]|[_ Hl]]%lookup_insert_Some Hkind.
    + cbn in Hkind. exfalso. by eapply Hk.
    + by eapply H2.
Qed.

Lemma armed_update u s s' w :
  sessions w !! u = Some s →
  (timeout s' = timeout s ∨ timeout s' = None) →
  armed w → armed (set_sessions (<[u := s']>) w).
Proof.
  intros Hs Hto [H1 H2]. split; cbn; [|done].
  intros v s0 t [[<- <-]|[_ Hl]]%lookup_insert_Some Ht; [|by eapply H1].
  destruct Hto as [Heq|Hnone]; [|congruence].
  rewrite Heq in Ht. by eapply H1.
Qed.

Lemma armed_delete u w : armed w → armed (set_sessions (delete u) w).
Proof.
  intros [H1 H2]. split; cbn; [|done].
  intros v s t [_ Hl]%lookup_delete_Some. by eapply H1.
Qed.

Lemma armed_install v u w : timed w → armed w → armed (install v u w).
Proof.
  intros Htd [H1 H2]. pose proof (timed_next_free w Htd) as Hfree.
  unfold install. split; cbn.
  - intros k s t. rewrite insert_insert_eq.
    intros [[<- <-]|[_ Hl]]%lookup_insert_Some Hto.
    + cbn in Hto. inversion Hto; subst.
      eexists. split; [apply lookup_insert_eq|]. cbn. lia.
    + destruct (H1 k s t Hl Hto) as (tm & Ht & Hd).
      exists tm. split; [|done]. rewrite lookup_insert_ne; [done|].
      intros <-. same_lookup Ht Hfree.
  - intros t tm rid k [[<- <-]|[_ Ht]]%lookup_insert_Some Hk;
      [discriminate Hk|]. by eapply H2.
Qed.

Lemma armed_advance dt w :
  0 < dt → armed w → armed (set_now (now w + dt) w).
Proof.
  intros Hdt [H1 H2]. split; cbn.
  - intros u s t Hs Hto. destruct (H1 u s t Hs Hto) as (tm & Ht & Hd).
    exists tm. split; [done|lia].
  - intros t tm rid u Ht Hk. specialize (H2 t tm rid u Ht Hk). lia.
Qed.

Lemma armed_proceed rid req c w : armed w → armed (proceed rid req c w).
Proof.
  intros Hw. unfold proceed.
  repeat case_match; try (by apply armed_respond);
    by apply armed_set_pending, armed_emit.
Qed.

Lemma armed_ensured v u w : timed w → armed w → armed (ensured v u w).
Proof.
  intros Htd Hw. unfold ensured. destruct (has_entry u w); [done|].
  by apply armed_install.
Qed.

Lemma armed_start_wait rid u req w :
  timed w → armed w → armed (start_wait rid u req w).
Proof.
  intros Htd Hw. unfold start_wait. apply armed_set_pending.
  apply armed_set_timer; [|discriminate|].
  { apply timed_next_free. by apply timed_set_timer. }
  apply armed_set_timer; [by apply timed_next_free|discriminate|done].
Qed.

Lemma armed_boot d : armed (boot d).
Proof. split; cbn; intros; by rewrite lookup_empty in *. Qed.

Lemma armed_initial : armed initial.
Proof. apply armed_boot. Qed.

Lemma armed_handle rid r w :
  timed w → armed w → armed (world_of (handle rid r w)).
Proof.
  intros Htd Hw. destruct r as [v|u|v req]; cbn [handle].
  - destruct (start_session_cases rid v w)
      as [[_ ->]|[[msg ->]|(u & Hk & _ & Hv & ->)]]; cbn [world_of];
      [by apply armed_respond|done|].
    apply armed_set_timer.
    + by apply timed_next_free, timed_ensured.
    + intros; lia.
    + by apply armed_ensured.
  - destruct (String.eqb_spec u "") as [->|Hne];
      [cbn [world_of]; by apply armed_respond|].
    cbn [world_of]. destruct (check_login_cases rid u w Hne)
      as [(code & b & ->)|(Hs & Hp & Hv & _ & ->)];
      apply armed_respond; [done|]. by apply armed_install.
  - cbn [world_of]. unfold send_handler.
    destruct (required_ok v req) eqn:Hreq; [|by apply armed_respond].
    destruct (ensureClientReady_cases rid v req w (required_truthy _ _ Hreq))
      as [[msg ->]|(u & Hk & Hv & [[c ->]| ->])];
      [by apply armed_respond| |].
    + by apply armed_proceed, armed_ensured.
    + apply armed_start_wait; [by apply timed_ensured|by apply armed_ensured].
Qed.

Lemma armed_disc_flags u s c w :
  armed w → sessions w !! u = Some s →
  armed (disc_destroy c (disc_flags u s w)).
Proof.
  intros Hw Hs. apply (armed_frame (disc_flags u s w)); [done..|].
  unfold disc_flags. apply (armed_update u s); auto.
Qed.

Lemma armed_disc_delete u s c w :
  armed w → sessions w !! u = Some s →
  armed (disc_delete u (disc_rm_auth u (disc_destroy c (disc_flags u s w)))).
Proof.
  intros Hw Hs. unfold disc_delete. apply armed_delete.
  apply (armed_frame (disc_destroy c (disc_flags u s w)));
    [unfold disc_rm_auth; by case_match..|].
  by apply armed_disc_flags.
Qed.

Lemma armed_on_backend v c ev w :
  timed w → armed w → armed (world_of (on_backend v c ev w)).
Proof.
  intros Htd Hw. unfold on_backend.
  destruct (key_of v) as [u|] eqn:Hkey; [|done].
  destruct ev; [| |done| |].
  - unfold on_qr. destruct (sessions w !! u) as [s|] eqn:Hs; [|done].
    apply (armed_update u s); auto.
  - unfold on_ready. destruct (sessions w !! u) as [s|] eqn:Hs; [|done].
    destruct (timeout s) as [t|] eqn:Hto; cbn [world_of];
      [|apply (armed_update u s); auto].
    (* the cleared handle is that of [u] alone *)
    destruct Hw as [H1 H2]. split; cbn; [|].
    + intros k s0 t' [[<- <-]|[Hne Hl]]%lookup_insert_Some Ht'; [done|].
      destruct (H1 k s0 t' Hl Ht') as (tm & Htm & Hd).
      exists tm. split; [|done]. apply lookup_delete_Some. split; [|done].
      intros <-.
      destruct (timed_session w Htd u s t Hs Hto) as [_ Hu].
      destruct (timed_session w Htd k s0 t Hl Ht') as [_ Hv].
      pose proof (eq_trans (eq_sym (Hu tm Htm)) (Hv tm Htm)) as E.
      inversion E. done.
    + intros t' tm rid k [_ Ht']%lookup_delete_Some. by eapply H2.
  - unfold on_auth_failure.
    destruct (sessions w !! u) as [s|] eqn:Hs; [|done].
    apply (armed_update u s); auto.
  - pose proof (on_disconnected_cases v u c w Hkey) as Hd.
    destruct (on_disconnected v u c w) as [w'|msg w'|]; cbn [world_of];
      [| |done].
    + destruct Hd as (s & Hs & _ & ->). apply armed_install.
      * by apply timed_disc_delete.
      * by apply armed_disc_delete.
    + destruct Hd as [->|(s & Hs & [->| ->])];
        [done|by apply armed_disc_flags|by apply armed_disc_delete].
Qed.

Lemma armed_fire t w :
  timed w → linked w → armed w → armed (world_of (fire t w)).
Proof.
  intros Htd Hl Hw. unfold fire.
  destruct (timers w !! t) as [tm|] eqn:Ht; [|apply armed_initial].
  destruct (due tm <=? now w); [|apply armed_initial].
  destruct (kind tm) as [u c|rid u|rid u|rid i] eqn:Hk.
  - unfold fire_idle; cbn [clear_timer set_timers sessions].
    assert (Hother : ∀ v s, v ≠ u → sessions w !! v = Some s →
                            timeout s ≠ Some t).
    { intros v s Hne Hs Hto.
      destruct (timed_session w Htd v s t Hs Hto) as [_ Hv].
      specialize (Hv tm Ht). rewrite Hk in Hv. by inversion Hv. }
    destruct (sessions w !! u) as [s|] eqn:Hs; cbn [world_of].
    + destruct (ready s) eqn:Hr; cbn [world_of].
      * apply armed_clear_timer; [|done]. intros v s0 Hv Hto.
        destruct (decide (v = u)) as [->|Hne]; [|by eapply Hother].
        same_lookup Hs Hv. pose proof (linked_ready w Hl u s0 Hs Hr).
        congruence.
      * destruct Hw as [H1 H2]. split; cbn.
        -- intros v s0 t' [Hne Hv]%lookup_delete_Some Hto.
           destruct (H1 v s0 t' Hv Hto) as (tm' & Htm' & Hd).
           exists tm'. split; [|done]. apply lookup_delete_Some.
           split; [|done]. intros <-. by eapply Hother.
        -- intros t' tm' rid v [_ Ht']%lookup_delete_Some. by eapply H2.
    + (* the callback throws; the world it leaves is not continued *)
      destruct Hw as [H1 H2]. split; cbn.
      * intros v s0 t' Hv Hto.
        destruct (H1 v s0 t' Hv Hto) as (tm' & Htm' & Hd).
        exists tm'. split; [|done]. apply lookup_delete_Some.
        split; [|done]. intros <-. eapply (Hother v s0); try done.
        intros ->. same_lookup Hs Hv.
      * intros t' tm' rid v [_ Ht']%lookup_delete_Some. by eapply H2.
  - assert (Hc : armed (clear_timer t w)).
    { apply armed_clear_timer; [|done].
      apply (not_a_handle t tm); try done. intros v c. by rewrite Hk. }
    unfold fire_grace; cbn [clear_timer set_timers sessions].
    repeat case_match; cbn [world_of]; try done;
      try (by apply armed_respond).
    by apply armed_set_pending, armed_emit.
  - cbn [world_of].
    assert (Hno : ∀ v s, sessions w !! v = Some s → timeout s ≠ Some t).
    { apply (not_a_handle t tm); try done. intros v c. by rewrite Hk. }
    assert (Hr : armed (rearm t tm w)).
    { apply armed_rearm; try done. intros rid' v. by rewrite Hk. }
    unfold rearm in Hr. rewrite Hk in Hr.
    unfold fire_poll. cbn [set_timers sessions].
    destruct (sessions w !! u) as [s|]; [|done].
    destruct (ready s); [|done]. unfold resolve.
    match goal with
    | |- armed (match pending ?w0 !! rid with _ => _ end) =>
        assert (Hc : armed w0) by (by apply armed_clear_timer)
    end.
    match goal with
    | |- armed (match ?p with _ => _ end) => destruct p as [[]|]
    end; try done.
    by apply armed_proceed.
  - cbn [world_of]. unfold fire_wait_timeout, reject.
    assert (Hc : armed (clear_timer i (clear_timer t w))).
    { apply armed_clear_timer.
      - intros v s Hv Hto. cbn in Hv.
        destruct (armed_idle w Hw v s i Hv Hto) as (tm' & Htm' & _).
        destruct (timed_session w Htd v s i Hv Hto) as [_ Hidle].
        destruct (timed_interval w Htd t tm rid i Ht Hk) as [_ Hpoll].
        destruct (Hpoll tm' Htm') as [v' Hv'].
        rewrite (Hidle tm' Htm') in Hv'. discriminate Hv'.
      - apply armed_clear_timer; [|done].
        apply (not_a_handle t tm); try done. intros v c. by rewrite Hk. }
    match goal with
    | |- armed (match ?p with _ => _ end) => destruct p as [[]|]
    end; try done.
    by apply armed_respond.
Qed.

Lemma armed_step w e :
  timed w → linked w → armed w → armed (world_of (step w e)).
Proof.
  intros Htd Hl Hw. destruct e; cbn [step].
  - apply armed_handle; [by apply (timed_frame w)|].
    by apply (armed_frame w).
  - destruct (owner w !! c) as [u|]; [|apply armed_initial].
    by apply armed_on_backend.
  - by apply armed_fire.
  - destruct (may_advance dt w) eqn:Hadv; [|apply armed_initial].
    cbn [world_of]. apply armed_advance; [|done].
    unfold may_advance in Hadv. apply andb_prop in Hadv as [Hdt _].
    by apply Z.ltb_lt.
  - unfold fetch_done. repeat case_match; try apply armed_initial;
      cbn [world_of]; try (by apply armed_respond).
    by apply armed_set_pending, armed_emit.
  - unfold send_done. repeat case_match; try apply armed_initial;
      cbn [world_of]; try (by apply armed_respond).
    by apply armed_set_pending, armed_emit.
  - unfold qr_done. repeat case_match; try apply armed_initial;
      cbn [world_of]; by apply armed_respond.
  - destruct (may_create p w); [|apply armed_initial].
    cbn [world_of]. by apply (armed_frame w).
Qed.

Lemma reachable_armed w : reachable w → armed w.
Proof.
  induction 1 as [d|w e w' Hreach IH Hstep]; [apply armed_boot|].
  pose proof (armed_step w e (reachable_timed w Hreach)
                (reachable_linked w Hreach) IH) as Hw.
  by rewrite Hstep in Hw.
Qed.

(** X14: a session that has never been ready is removed within 2 minutes.
    In every world the server can reach, a session that still stores a
    timer handle is not ready, and its idle timer is pending and due no
    later than 2 minutes from now; time cannot pass that timer, and when it
    runs the session's own client is destroyed, its entry is removed and no
    client is constructed. *)
Theorem X14_unready_session_is_removed :
  ∀ (w : World) (u : string) (s : Session) (t : TimerId),
    reachable w → sessions w !! u = Some s → timeout s = Some t →
    ready s = false
    ∧ ∃ tm, timers w !! t = Some tm ∧ kind tm = TIdle u (client s)
            ∧ due tm ≤ now w + 2 * 60 * 1000
            ∧ (∀ dt, step w (Advance dt) ≠ Disabled → now w + dt ≤ due tm)
            ∧ (due tm ≤ now w →
               ∃ w', step w (Fire t) = Done w'
                     ∧ log w' = log w ++ [EDestroy (client s)]
                     ∧ sessions w' = delete u (sessions w)
                     ∧ constructs w' = constructs w).
Proof.
  intros w u s t Hreach Hs Hto.
  pose proof (reachable_timed w Hreach) as Htd.
  pose proof (reachable_linked w Hreach) as Hl.
  destruct (armed_idle w (reachable_armed w Hreach) u s t Hs Hto)
    as (tm & Ht & Hd).
  destruct (timed_session w Htd u s t Hs Hto) as [_ Hidle].
  pose proof (Hidle tm Ht) as Hk.
  assert (Hr : ready s = false).
  { destruct (ready s) eqn:Hr; [|done].
    pose proof (linked_ready w Hl u s Hs Hr). congruence. }
  split; [done|]. exists tm. repeat split; try done.
  - intros dt Hen. cbn [step] in Hen.
    destruct (may_advance dt w) eqn:Hadv; [|done].
    by eapply advance_respects_timers.
  - intros Hdue. eexists. split.
    + cbn [step]. rewrite (fire_due _ _ _ Ht Hdue), Hk.
      unfold fire_idle; cbn [clear_timer set_timers sessions].
      rewrite Hs, Hr. reflexivity.
    + cbn. repeat split.
      unfold constructs; cbn. rewrite omap_app; cbn. apply app_nil_r.
Qed.

Lemma X14_unready_session_is_removed_witness :
  sessions before_deadline_world !! alice
  = Some (mkSession 0%nat false (Some "2@qr-payload") true (Some 0%nat))
  ∧ ∃ tm, timers before_deadline_world !! 0%nat = Some tm
          ∧ kind tm = TIdle alice 0%nat
          ∧ due tm ≤ now before_deadline_world + 2 * 60 * 1000.
Proof.
  split; [vm_compute; reflexivity|].
  destruct (X14_unready_session_is_removed before_deadline_world alice
              (mkSession 0%nat false (Some "2@qr-payload") true (Some 0%nat))
              0%nat)
    as (_ & tm & Ht & Hk & Hd & _).
  - apply (run_reachable (take 5 never_scanned_run) initial);
      [apply reach_initial|]. vm_compute. reflexivity.
  - vm_compute; reflexivity.
  - reflexivity.
  - by exists tm.
Defined.

(** X15: start-session answers after its grace delay, not later. In every
    world the server can reach, a pending start-session callback belongs to
    a request that has no response yet and is due no later than 2 seconds
    from now; time cannot pass it; and when it runs it answers the request,
    or asks for the QR image to be rendered, or throws because the userId
    has no entry. *)
Theorem X15_start_session_is_prompt :
  ∀ (w : World) (t : TimerId) (tm : Timer) (rid : ReqId) (u : string),
    reachable w → timers w !! t = Some tm → kind tm = TGrace rid u →
    (rid ∉ answered w)
    ∧ due tm ≤ now w + 2000
    ∧ (∀ dt, step w (Advance dt) ≠ Disabled → now w + dt ≤ due tm)
    ∧ (due tm ≤ now w →
       (∃ w', step w (Fire t) = Done w'
              ∧ (answered w' = answered w ++ [rid]
                 ∨ pending w' !! rid = Some PQr))
       ∨ (sessions w !! u = None
          ∧ step w (Fire t) = Thrown type_error_undefined (clear_timer t w))).
Proof.
  intros w t tm rid u Hreach Ht Hk.
  pose proof (reachable_once w Hreach) as Ho.
  split.
  { intros Hin. destruct (oa_answered None w Ho rid Hin) as (_ & _ & Hng & _).
    apply Hng. by exists t, tm, u. }
  split; [by apply (armed_grace w (reachable_armed w Hreach) t tm rid u)|].
  split.
  { intros dt Hen. cbn [step] in Hen.
    destruct (may_advance dt w) eqn:Hadv; [|done].
    by eapply advance_respects_timers. }
  intros Hdue. cbn [step]. rewrite (fire_due _ _ _ Ht Hdue), Hk.
  unfold fire_grace; cbn [clear_timer set_timers sessions].
  destruct (sessions w !! u) as [s|] eqn:Hs.
  - left. destruct (ready s).
    { eexists. split; [reflexivity|]. left.
      unfold respond. by rewrite answered_emit. }
    destruct (lastQR s) as [qr|].
    + destruct (String.eqb qr "").
      * eexists. split; [reflexivity|]. left.
        unfold respond. by rewrite answered_emit.
      * eexists. split; [reflexivity|]. right. cbn. apply lookup_insert_eq.
    + eexists. split; [reflexivity|]. left.
      unfold respond. by rewrite answered_emit.
  - destruct (proto_key u) eqn:Hp; [|by right].
    (* no entry is registered under an inherited key, and no client exists
       for one: the request came for such a key *)
    left. eexists. split; [reflexivity|]. left.
    unfold respond. by rewrite answered_emit.
Qed.

Lemma X15_start_session_is_prompt_witness :
  timers absent_at_grace_world !! 2%nat
  = Some (mkTimer 121000 (TGrace 1%nat alice))
  ∧ (1%nat ∉ answered absent_at_grace_world)
  ∧ 121000 ≤ now absent_at_grace_world + 2000.
Proof.
  split; [vm_compute; reflexivity|].
  destruct (X15_start_session_is_prompt absent_at_grace_world 2%nat
              (mkTimer 121000 (TGrace 1%nat alice)) 1%nat alice)
    as (Hna & Hd & _).
  - apply (run_reachable (take 8 grace_after_idle_run) initial);
      [apply reach_initial|]. vm_compute. reflexivity.
  - vm_compute; reflexivity.
  - reflexivity.
  - split; [exact Hna|exact Hd].
Defined.


(** ** The file system *)

Lemma disk_proceed rid req c w : disk (proceed rid req c w) = disk w.
Proof. unfold proceed. by repeat case_match. Qed.

Lemma disk_ensured v u w : disk (ensured v u w) = disk w.
Proof. unfold ensured. by case_match. Qed.

Lemma disk_handle rid r w :
  handle rid r w ≠ Disabled → disk (world_of (handle rid r w)) = disk w.
Proof.
  destruct r as [v|u|v req]; cbn [handle].
  - intros _. destruct (start_session_cases rid v w)
      as [[_ ->]|[[msg ->]|(u & Hk & _ & Hv & ->)]]; try done.
    cbn. apply disk_ensured.
  - destruct (String.eqb_spec u "") as [->|Hne]; [done|]. intros _.
    cbn [world_of]. by destruct (check_login_cases rid u w Hne)
      as [(code & b & ->)|(Hs & Hp & Hv & _ & ->)].
  - intros _. cbn [world_of]. unfold send_handler.
    destruct (required_ok v req) eqn:Hreq; [|done].
    destruct (ensureClientReady_cases rid v req w (required_truthy _ _ Hreq))
      as [[msg ->]|(u & Hk & Hv & [[c ->]| ->])]; [done| |].
    + by rewrite disk_proceed, disk_ensured.
    + cbn. apply disk_ensured.
Qed.

Lemma disk_fire t w :
  fire t w ≠ Disabled → disk (world_of (fire t w)) = disk w.
Proof.
  unfold fire. destruct (timers w !! t) as [tm|]; [|done].
  destruct (due tm <=? now w); [|done]. intros _.
  destruct (kind tm) as [u c|rid u|rid u|rid i].
  - unfold fire_idle. by repeat case_match.
  - unfold fire_grace. by repeat case_match.
  - unfold fire_poll, resolve. cbn [world_of].
    repeat case_match; try done. by rewrite disk_proceed.
  - unfold fire_wait_timeout, reject. cbn [world_of]. by repeat case_match.
Qed.

Lemma disk_disc_rm_auth u w :
  valid_client_id u = true →
  disk (disc_rm_auth u w) = disk w
  ∨ disk (disc_rm_auth u w) = disk (rm_rf (auth_root w ++ [u]) w).
Proof.
  intros Hv. unfold disc_rm_auth. destruct (auth_exists u w); [|by left].
  right. by rewrite (valid_auth_path u w Hv).
Qed.

Lemma disk_step (w : World) (e : Event) :
    reachable w → step w e ≠ Disabled → (∀ p n, e ≠ FsCreated p n) →
    disk (world_of (step w e)) = disk w
    ∨ ∃ c u reason,
        e = Backend c (EvDisconnected reason)
        ∧ owner w !! c = Some (JStr u) ∧ is_Some (sessions w !! u)
        ∧ valid_client_id u = true
        ∧ auth_path u w = auth_root w ++ [u]
        ∧ dirname (disk (world_of (step w e))) = dirname (disk w)
        ∧ files (disk (world_of (step w e)))
          = filter (λ kv, ¬ ((auth_root w ++ [u]) `prefix_of` kv.1))
              (files (disk w)).
Proof.
  intros Hreach Hen Hext.
  destruct e as [r|c ev|t|dt|rid res|rid res|rid res|p n]; cbn [step] in *.
  - left. by rewrite disk_handle.
  - destruct (owner w !! c) as [v|] eqn:Ho; [|done].
    destruct (reachable_valid_owner w c v Hreach Ho) as (u & Hk & _ & Hv).
    unfold on_backend in *. rewrite Hk in *.
    destruct ev as [qr| | |msg|reason].
    + left. unfold on_qr. by repeat case_match.
    + left. unfold on_ready. by repeat case_match.
    + by left.
    + left. unfold on_auth_failure. by repeat case_match.
    + unfold on_disconnected.
      destruct (sessions w !! u) as [s|] eqn:Hs; [|by left].
      destruct v; try (by left). injection Hk as ->.
      rewrite (createClient_ok (JStr u) u) by done. cbn [world_of].
      destruct (disk_disc_rm_auth u (disc_destroy c (disc_flags u s w)) Hv)
        as [Hsame|Hrm].
      * left. unfold install, disc_delete. cbn. exact Hsame.
      * right. exists c, u, reason.
        split; [done|]. split; [done|]. split; [by exists s|].
        split; [done|]. split; [by apply valid_auth_path|].
        unfold install, disc_delete. cbn [disk emit set_sessions set_timer
                                          new_client].
        rewrite Hrm. by split.
  - left. by apply disk_fire.
  - left. by destruct (may_advance dt w).
  - left. unfold fetch_done in *. repeat case_match; try done.
  - left. unfold send_done in *. repeat case_match; try done.
  - left. unfold qr_done in *. repeat case_match; try done.
  - by destruct (Hext p n).
Qed.

(** X16: the server creates nothing in the file system and removes in one
    place only. In a world the server can reach, whatever the event loop
    runs (a request, a timer, a backend event, the completion of a download,
    of a send or of a QR rendering), the file system is the same afterwards,
    except for the 'disconnected' callback of a client whose [userId] is a
    string: it removes the directory [.wwebjs_auth/<userId>] with what is
    under it, and nothing else, and [userId] is one plain segment, so the
    removal stays inside the auth store. The idle timeout in particular
    keeps the directory. *)
Theorem X16_file_system_is_left_alone :
  ∀ (w : World) (e : Event),
    reachable w → step w e ≠ Disabled → (∀ p n, e ≠ FsCreated p n) →
    disk (world_of (step w e)) = disk w
    ∨ ∃ c u reason,
        e = Backend c (EvDisconnected reason)
        ∧ owner w !! c = Some (JStr u) ∧ is_Some (sessions w !! u)
        ∧ valid_client_id u = true
        ∧ auth_path u w = auth_root w ++ [u]
        ∧ dirname (disk (world_of (step w e))) = dirname (disk w)
        ∧ files (disk (world_of (step w e)))
          = filter (λ kv, ¬ ((auth_root w ++ [u]) `prefix_of` kv.1))
              (files (disk w)).
Proof. exact disk_step. Qed.

Lemma X16_file_system_is_left_alone_witness :
  auth_exists alice ready_world = true
  ∧ (disk (world_of (step ready_world
                       (Backend 0%nat (EvDisconnected "LOGOUT"))))
     = disk ready_world
     ∨ ∃ c u reason,
         Backend 0%nat (EvDisconnected "LOGOUT")
         = Backend c (EvDisconnected reason)
         ∧ owner ready_world !! c = Some (JStr u)
         ∧ is_Some (sessions ready_world !! u)
         ∧ valid_client_id u = true
         ∧ auth_path u ready_world = auth_root ready_world ++ [u]
         ∧ dirname (disk (world_of (step ready_world
                                      (Backend 0%nat
                                         (EvDisconnected "LOGOUT")))))
           = dirname (disk ready_world)
         ∧ files (disk (world_of (step ready_world
                                    (Backend 0%nat
                                       (EvDisconnected "LOGOUT")))))
           = filter (λ kv, ¬ ((auth_root ready_world ++ [u])
                                `prefix_of` kv.1))
               (files (disk ready_world))).
Proof.
  split; [vm_compute; reflexivity|].
  apply (X16_file_system_is_left_alone ready_world
           (Backend 0%nat (EvDisconnected "LOGOUT")) ready_world_reachable).
  - vm_compute. discriminate.
  - discriminate.
Defined.

(** The directory of the script is never removed. *)
Lemma boot_files_lookup l p :
  p ∈ l →
  (list_to_map ((λ q : Path, (q, Dir)) <$> l) : gmap Path Node) !! p
  = Some Dir.
Proof.
  induction l as [|q l IH]; [by intros ?%not_elem_of_nil|].
  intros Hin. cbn. destruct (decide (q = p)) as [->|Hne].
  - apply lookup_insert_eq.
  - rewrite lookup_insert_ne by done. apply IH.
    apply elem_of_cons in Hin as [->|Hin]; done.
Qed.

Lemma boot_dirname d : files (disk (boot d)) !! d = Some Dir.
Proof.
  change (boot_files d !! d = Some Dir).
  unfold boot_files. apply boot_files_lookup. unfold ancestors.
  apply list_elem_of_fmap. exists (length d).
  split; [by rewrite firstn_all|]. apply elem_of_seq. lia.
Qed.

Lemma reachable_dirname w :
  reachable w → files (disk w) !! dirname (disk w) = Some Dir.
Proof.
  induction 1 as [d|w e w' Hreach IH Hstep]; [apply boot_dirname|].
  assert (Hcase : (∃ p n, e = FsCreated p n) ∨ ∀ p n, e ≠ FsCreated p n).
  { destruct e; try (by right). left. by do 2 eexists. }
  destruct Hcase as [(p & n & ->)|Hno].
  - cbn [step] in Hstep. destruct (may_create p w) eqn:Hc; [|done].
    injection Hstep as <-. cbn. rewrite lookup_insert_ne; [done|].
    intros ->. unfold may_create in Hc. by rewrite IH in Hc.
  - assert (Hen : step w e ≠ Disabled) by (by rewrite Hstep).
    destruct (disk_step w e Hreach Hen Hno) as [Hsame|Hrm].
    + rewrite Hstep in Hsame. cbn in Hsame. by rewrite Hsame.
    + destruct Hrm as (c & u & reason & _ & _ & _ & _ & _ & Hd & Hf).
      rewrite Hstep in Hd, Hf. cbn [world_of] in Hd, Hf.
      rewrite Hd, Hf. apply map_lookup_filter_Some. split; [done|].
      cbn. intros Hpre%prefix_length. unfold auth_root in Hpre.
      rewrite !length_app in Hpre. cbn in Hpre. lia.
Qed.

(** ** Who creates a session *)

Lemma has_entry_bump u w : has_entry u (bump_req w) = has_entry u w.
Proof. done. Qed.

Lemma auth_exists_bump u w : auth_exists u (bump_req w) = auth_exists u w.
Proof. done. Qed.

Lemma start_wait_quiet rid u req w :
  constructs (start_wait rid u req w) = constructs w
  ∧ responses (start_wait rid u req w) = responses w.
Proof. done. Qed.

(** X6: what a request does for a truthy [userId] that has no entry.
    start-session constructs a client and registers a session that is not
    ready when [LocalAuth] accepts the id, whether or not [userId] is a
    string, and throws out of its handler otherwise, without a response. A
    send request with its required fields does the same construction only
    for a string that [LocalAuth] accepts, whether auth artifacts exist or
    not, and then waits; for a string that is refused it answers 500 with
    the message of [LocalAuth], and for a [userId] that is not a string 500
    with the message of [path.join]; in both cases nothing is constructed.
    check-login looks at the path of the artifacts first: without them it
    answers "not_started"; with them it constructs the client and answers
    "pending" when the id is accepted, and otherwise Express answers 500
    for it. *)
Theorem X6_who_creates_a_session :
  ∀ (w : World) (userId : JValue) (u : string),
    key_of userId = Some u → truthy userId = true → has_entry u w = false →
    let fresh := mkSession (nextClient w) false None true
                   (Some (nextTimer w)) in
    (if valid_client_id u
     then ∃ w', step w (Http (StartSession userId)) = Done w'
                ∧ constructs w' = constructs w ++ [nextClient w]
                ∧ sessions w' !! u = Some fresh
                ∧ owner w' !! nextClient w = Some userId
                ∧ timers w' !! S (nextTimer w)
                  = Some (mkTimer (now w + 2000) (TGrace (nextReq w) u))
                ∧ responses w' = responses w
     else step w (Http (StartSession userId))
          = Thrown invalid_client_id (bump_req w))
    ∧ (∀ req, required_ok userId req = true →
         ∃ w', step w (Http (Send userId req)) = Done w'
               ∧ match userId with
                 | JStr _ =>
                     if valid_client_id u
                     then constructs w' = constructs w ++ [nextClient w]
                          ∧ sessions w' !! u = Some fresh
                          ∧ pending w' !! nextReq w
                            = Some (PWaitReady u req)
                          ∧ responses w' = responses w
                     else constructs w' = constructs w
                          ∧ sessions w' = sessions w
                          ∧ responses w'
                            = responses w
                              ++ [(nextReq w, 500, BError invalid_client_id)]
                 | _ =>
                     constructs w' = constructs w
                     ∧ sessions w' = sessions w
                     ∧ responses w'
                       = responses w
                         ++ [(nextReq w, 500,
                              BError (path_type_error userId))]
                 end)
    ∧ (userId = JStr u →
       ∃ w', step w (Http (CheckLogin u)) = Done w'
             ∧ if auth_exists u w
               then if valid_client_id u
                    then constructs w' = constructs w ++ [nextClient w]
                         ∧ sessions w' !! u = Some fresh
                         ∧ responses w'
                           = responses w
                             ++ [(nextReq w, 200, BStatus "pending")]
                    else constructs w' = constructs w
                         ∧ sessions w' = sessions w
                         ∧ responses w'
                           = responses w
                             ++ [(nextReq w, 500,
                                  BUncaught invalid_client_id)]
               else constructs w' = constructs w
                    ∧ sessions w' = sessions w
                    ∧ responses w'
                      = responses w
                        ++ [(nextReq w, 200, BStatus "not_started")]).
Proof.
  intros w v u Hk Ht He fresh.
  set (wb := bump_req w).
  assert (Hb : nextClient wb = nextClient w ∧ nextTimer wb = nextTimer w
               ∧ constructs wb = constructs w ∧ responses wb = responses w
               ∧ now wb = now w ∧ sessions wb = sessions w) by done.
  destruct Hb as (Hbc & Hbt & Hbk & Hbr & Hbn & Hbs).
  assert (Heb : has_entry u wb = false) by exact He.
  assert (Hi : sessions (install v u wb) !! u = Some fresh
               ∧ constructs (install v u wb) = constructs w ++ [nextClient w]
               ∧ responses (install v u wb) = responses w).
  { rewrite install_entry, constructs_install, responses_install.
    by rewrite Hbc, Hbt, Hbk, Hbr. }
  destruct Hi as (His & Hic & Hir).
  split; [|split].
  - cbn [step handle]. fold wb. unfold start_session. rewrite Ht, Hk, Heb.
    destruct (valid_client_id u) eqn:Hv.
    + rewrite (createClient_ok v u) by done. eexists. split; [reflexivity|].
      split; [exact Hic|]. split; [exact His|].
      split; [unfold install; cbn; apply lookup_insert_eq|].
      split; [|exact Hir].
      unfold install; cbn. apply lookup_insert_eq.
    + by rewrite (createClient_invalid v u).
  - intros req Hreq. eexists. split; [reflexivity|].
    cbn [world_of]. fold wb. rewrite (send_handler_ok _ _ _ _ Hreq).
    unfold ensureClientReady. rewrite Hk, Heb.
    destruct v; cbn [sessionExists];
      try (rewrite constructs_respond, responses_respond; by rewrite Hbr).
    injection Hk as ->.
    assert (Heq : (if auth_exists u wb then createClient (JStr u) wb
                   else createClient (JStr u) wb) = createClient (JStr u) wb)
      by (by destruct (auth_exists u wb)).
    rewrite Heq. destruct (valid_client_id u) eqn:Hv.
    + rewrite (createClient_ok (JStr u) u) by done.
      unfold gate. rewrite install_entry. cbn [ready].
      destruct (start_wait_shape (nextReq w) u req (install (JStr u) u wb))
        as (Hp & _ & _ & _ & Hs).
      destruct (start_wait_quiet (nextReq w) u req (install (JStr u) u wb))
        as (Hc & Hr).
      by rewrite Hc, Hr, Hs, Hp.
    + rewrite (createClient_invalid (JStr u) u) by done.
      rewrite constructs_respond, responses_respond. by rewrite Hbr.
  - intros ->.
    assert (Hne : String.eqb u "" = false).
    { cbn in Ht. by apply negb_true_iff in Ht. }
    cbn [step handle]. rewrite Hne. eexists. split; [reflexivity|].
    fold wb. unfold check_login.
    rewrite Hbs, (no_entry_none u w He), (no_entry_own u w He).
    change (auth_exists u wb) with (auth_exists u w).
    destruct (auth_exists u w); [|by rewrite constructs_respond,
                                     responses_respond, Hbr].
    destruct (valid_client_id u) eqn:Hv.
    + rewrite (createClient_ok (JStr u) u) by done.
      rewrite constructs_respond, responses_respond.
      split; [exact Hic|]. split; [exact His|]. by rewrite Hir.
    + rewrite (createClient_invalid (JStr u) u) by done.
      rewrite constructs_respond, responses_respond. by rewrite Hbr.
Qed.

Lemma X6_who_creates_a_session_witness :
  has_entry "alice smith" initial = false
  ∧ valid_client_id "alice smith" = false
  ∧ ∃ w', step initial
            (Http (Send (JStr "alice smith")
                     (SendMessage (JStr "919876543210") (JStr "hi"))))
          = Done w'
          ∧ constructs w' = constructs initial
          ∧ sessions w' = sessions initial
          ∧ responses w'
            = responses initial
              ++ [(nextReq initial, 500, BError invalid_client_id)].
Proof.
  split; [reflexivity|]. split; [reflexivity|].
  destruct (X6_who_creates_a_session initial (JStr "alice smith")
              "alice smith" eq_refl eq_refl eq_refl)
    as (_ & Hsend & _).
  exact (Hsend (SendMessage (JStr "919876543210") (JStr "hi")) eq_refl).
Defined.

(** ** A userId is a path *)

Lemma auth_path_dotdot w : auth_path ".." w = dirname (disk w).
Proof.
  unfold auth_path, normalize, auth_root. cbn.
  rewrite rev_app_distr. cbn. apply rev_involutive.
Qed.

(** X18: [sessionExists] tests the path that [path.join] makes of the
    userId, not a name in the auth store. For the userId [..] that path is
    the directory of the server itself, which exists in every world the
    server can reach: check-login then calls [createClient], [LocalAuth]
    refuses the id and Express answers 500; nothing is constructed. For an
    id that [LocalAuth] accepts the path is the directory of that name in
    the auth store. *)
Theorem X18_userId_is_a_path :
  ∀ (w : World),
    reachable w →
    auth_path ".." w = dirname (disk w)
    ∧ auth_exists ".." w = true
    ∧ step w (Http (CheckLogin ".."))
      = Done (respond (nextReq w) 500 (BUncaught invalid_client_id)
                (bump_req w))
    ∧ ∀ u, valid_client_id u = true →
           auth_path u w = auth_root w ++ [u]
           ∧ auth_exists u w
             = match files (disk w) !! auth_path u w with
               | Some _ => true
               | None => false
               end.
Proof.
  intros w Hreach.
  assert (Hex : auth_exists ".." w = true).
  { unfold auth_exists. rewrite auth_path_dotdot.
    by rewrite (reachable_dirname w Hreach). }
  split; [apply auth_path_dotdot|]. split; [exact Hex|]. split.
  - cbn [step handle]. cbn [String.eqb Ascii.eqb]. unfold check_login.
    assert (Hs : sessions (bump_req w) !! ".." = None).
    { destruct (sessions (bump_req w) !! "..") as [s|] eqn:Hs; [|done].
      pose proof (wf_own_entry w (reachable_wf w Hreach) ".." s Hs) as Hbad.
      discriminate Hbad. }
    rewrite Hs. cbn [proto_key existsb proto_keys String.eqb Ascii.eqb orb].
    change (auth_exists ".." (bump_req w)) with (auth_exists ".." w).
    by rewrite Hex.
  - intros u Hv. split; [by apply valid_auth_path|].
    unfold auth_exists.
    assert (Hnul : has_nul u = false ∧ ends_with_slash u = false).
    { apply andb_prop in Hv as [_ Hw]. clear -Hw.
      induction u as [|a r IH]; [done|]. cbn in Hw.
      apply andb_prop in Hw as [Ha Hr]. destruct (IH Hr) as [IH1 IH2].
      split.
      - cbn. rewrite IH1, orb_false_r.
        destruct (Ascii.eqb_spec a zero) as [->|_]; [discriminate Ha|done].
      - cbn. destruct r; [|exact IH2].
        destruct (Ascii.eqb_spec a slash) as [->|_]; [discriminate Ha|done]. }
    destruct Hnul as [-> ->]. cbn [negb andb].
    by destruct (files (disk w) !! auth_path u w) as [[]|].
Qed.

Lemma X18_userId_is_a_path_witness :
  auth_exists ".." initial = true
  ∧ step initial (Http (CheckLogin ".."))
    = Done (respond (nextReq initial) 500 (BUncaught invalid_client_id)
              (bump_req initial)).
Proof.
  destruct (X18_userId_is_a_path initial reach_initial) as (_ & Hex & Hstep & _).
  split; [exact Hex|exact Hstep].
Defined.

(** ** The chat id of a request *)

Section Keeps.
Context (rid : ReqId) (chat : string).

Lemma sends_to_nil : sends_to rid chat [].
Proof. intros c chat' content caption Hin. by apply not_elem_of_nil in Hin. Qed.

Lemma sends_to_app l1 l2 :
  sends_to rid chat l1 → sends_to rid chat l2 → sends_to rid chat (l1 ++ l2).
Proof.
  intros H1 H2 c chat' content caption [Hin|Hin]%elem_of_app;
    [by eapply H1|by eapply H2].
Qed.

Lemma keeps_refl w : keeps rid chat w w.
Proof.
  split; [done|]. split; [done|]. exists [].
  split; [by rewrite app_nil_r|apply sends_to_nil].
Qed.

Lemma keeps_trans w1 w2 w3 :
  keeps rid chat w1 w2 → keeps rid chat w2 w3 → keeps rid chat w1 w3.
Proof.
  intros (Hn1 & Hp1 & l1 & Hs1 & Hl1) (Hn2 & Hp2 & l2 & Hs2 & Hl2).
  split; [lia|]. split; [auto|]. exists (l1 ++ l2).
  split; [by rewrite Hs2, Hs1, app_assoc|by apply sends_to_app].
Qed.

Lemma keeps_quiet w w' :
  pending w' = pending w → (nextReq w ≤ nextReq w')%nat →
  sends w' = sends w → keeps rid chat w w'.
Proof.
  intros Hp Hn Hs. split; [done|]. split; [by rewrite Hp|]. exists [].
  split; [by rewrite app_nil_r|apply sends_to_nil].
Qed.

Lemma keeps_respond rid' code b w : keeps rid chat w (respond rid' code b w).
Proof.
  split; [done|]. split.
  - cbn. destruct (decide (rid' = rid)) as [->|Hne].
    + by rewrite lookup_delete_eq.
    + by rewrite lookup_delete_ne.
  - exists []. split; [by rewrite sends_respond, app_nil_r|apply sends_to_nil].
Qed.

Lemma keeps_pending_other rid' p w :
  rid' ≠ rid → keeps rid chat w (set_pending (<[rid' := p]>) w).
Proof.
  intros Hne. split; [done|]. split; [cbn; by rewrite lookup_insert_ne|].
  exists []. split; [by rewrite app_nil_r|apply sends_to_nil].
Qed.

Lemma keeps_pending_ok p w :
  ok_pending chat (Some p) → keeps rid chat w (set_pending (<[rid := p]>) w).
Proof.
  intros Hok. split; [done|]. split; [cbn; by rewrite lookup_insert_eq|].
  exists []. split; [by rewrite app_nil_r|apply sends_to_nil].
Qed.

Lemma keeps_emit e w :
  (∀ c chat' content caption,
     e = ESend rid c chat' content caption → chat' = chat) →
  keeps rid chat w (emit e w).
Proof.
  intros He. split; [done|]. split; [done|]. rewrite sends_emit.
  eexists. split; [reflexivity|].
  intros c chat' content caption Hin. destruct e; try (by apply not_elem_of_nil in Hin).
  apply list_elem_of_singleton in Hin. by eapply He.
Qed.

Lemma keeps_proceed rid' req c w :
  rid' ≠ rid → keeps rid chat w (proceed rid' req c w).
Proof.
  intros Hne. unfold proceed.
  repeat case_match; try apply keeps_respond;
    (eapply keeps_trans; [|by apply keeps_pending_other]);
    apply keeps_emit; intros; simplify_eq.
Qed.

Lemma keeps_install v u w : keeps rid chat w (install v u w).
Proof.
  apply keeps_quiet; [done..|].
  unfold sends. rewrite install_log, omap_app. cbn. apply app_nil_r.
Qed.

Lemma keeps_ensured v u w : keeps rid chat w (ensured v u w).
Proof.
  unfold ensured. destruct (has_entry u w);
    [apply keeps_refl|apply keeps_install].
Qed.

Lemma keeps_start_wait rid' u req w :
  rid' ≠ rid → keeps rid chat w (start_wait rid' u req w).
Proof.
  intros Hne. unfold start_wait.
  eapply keeps_trans; [|by apply keeps_pending_other].
  by apply keeps_quiet.
Qed.

Lemma keeps_handle rid' r w w' :
  rid' ≠ rid → handle rid' r w = Done w' → keeps rid chat w w'.
Proof.
  intros Hne. destruct r as [v|u|v req]; cbn [handle].
  - destruct (start_session_cases rid' v w)
      as [[_ ->]|[[msg ->]|(u & Hk & _ & Hv & ->)]]; [|done|];
      intros [= <-]; [apply keeps_respond|].
    eapply keeps_trans; [apply keeps_ensured|]. by apply keeps_quiet.
  - destruct (String.eqb_spec u "") as [->|Hu];
      [intros [= <-]; apply keeps_respond|]. intros [= <-].
    destruct (check_login_cases rid' u w Hu)
      as [(code & b & ->)|(Hs & Hp & Hv & _ & ->)]; [apply keeps_respond|].
    eapply keeps_trans; [apply keeps_install|apply keeps_respond].
  - intros [= <-]. unfold send_handler.
    destruct (required_ok v req) eqn:Hreq; [|apply keeps_respond].
    destruct (ensureClientReady_cases rid' v req w (required_truthy _ _ Hreq))
      as [[msg ->]|(u & Hk & Hv & [[c ->]| ->])]; [apply keeps_respond| |];
      (eapply keeps_trans; [apply keeps_ensured|]);
      [by apply keeps_proceed|by apply keeps_start_wait].
Qed.

Lemma keeps_on_backend v c ev w w' :
  on_backend v c ev w = Done w' → keeps rid chat w w'.
Proof.
  unfold on_backend. destruct (key_of v) as [u|] eqn:Hk; [|done].
  destruct ev.
  - unfold on_qr. destruct (sessions w !! u); [|done].
    intros [= <-]. by apply keeps_quiet.
  - unfold on_ready. destruct (sessions w !! u) as [s|]; [|done].
    destruct (timeout s); intros [= <-]; by apply keeps_quiet.
  - intros [= <-]. apply keeps_refl.
  - unfold on_auth_failure. destruct (sessions w !! u); [|done].
    intros [= <-]. by apply keeps_quiet.
  - intros Hd. pose proof (on_disconnected_cases v u c w Hk) as Hc.
    rewrite Hd in Hc. destruct Hc as (s & Hs & -> & ->).
    eapply keeps_trans; [|apply keeps_install].
    unfold disc_delete, disc_rm_auth, disc_destroy.
    destruct (auth_exists u _); apply keeps_quiet; try done;
      unfold sends; cbn; rewrite ?omap_app; cbn; by rewrite ?app_nil_r.
Qed.

Lemma keeps_fire t w w' :
  ok_pending chat (pending w !! rid) → fire t w = Done w' →
  keeps rid chat w w'.
Proof.
  intros Hok. unfold fire.
  destruct (timers w !! t) as [tm|]; [|done].
  destruct (due tm <=? now w); [|done].
  destruct (kind tm) as [u c|rid' u|rid' u|rid' i].
  - unfold fire_idle; cbn [clear_timer set_timers sessions].
    destruct (sessions w !! u) as [s|]; [|done].
    destruct (ready s); intros [= <-]; apply keeps_quiet; try done.
    unfold sends; cbn. rewrite omap_app. cbn. apply app_nil_r.
  - unfold fire_grace; cbn [clear_timer set_timers sessions].
    repeat case_match; intros [= <-];
      try (eapply keeps_trans; [|apply keeps_respond]; by apply keeps_quiet).
    split; [done|]. split.
    + intros _. cbn. destruct (decide (rid' = rid)) as [->|Hne].
      * by rewrite lookup_insert_eq.
      * by rewrite lookup_insert_ne.
    + exists []. split; [|apply sends_to_nil]. unfold sends; cbn.
      rewrite omap_app. cbn. by rewrite !app_nil_r.
  - intros [= <-]. unfold fire_poll, resolve. cbn [set_timers sessions].
    destruct (sessions w !! u) as [s|]; [|by apply keeps_quiet].
    destruct (ready s); [|by apply keeps_quiet].
    cbn [clear_timer set_timers pending].
    destruct (pending w !! rid') as [p|] eqn:Hp; [|by apply keeps_quiet].
    destruct p; try (by apply keeps_quiet).
    eapply keeps_trans; [|apply keeps_proceed].
    + by apply keeps_quiet.
    + intros ->. by rewrite Hp in Hok.
  - intros [= <-]. unfold fire_wait_timeout, reject.
    cbn [clear_timer set_timers pending].
    destruct (pending w !! rid') as [[]|]; try (by apply keeps_quiet).
    eapply keeps_trans; [|apply keeps_respond]. by apply keeps_quiet.
Qed.

Lemma keeps_step w e w' :
  bound_to rid chat w → step w e = Done w' → keeps rid chat w w'.
Proof.
  intros [Hlt Hok]. destruct e as [r|c ev|t|dt|rid' res|rid' res|rid' res|p n];
    cbn [step].
  - intros Hh. eapply keeps_trans; [|eapply keeps_handle; [|exact Hh]].
    + apply keeps_quiet; try done. cbn. lia.
    + lia.
  - destruct (owner w !! c) as [v|]; [|done]. apply keeps_on_backend.
  - by apply keeps_fire.
  - destruct (may_advance dt w); [|done]. intros [= <-]. by apply keeps_quiet.
  - unfold fetch_done. destruct (pending w !! rid') as [p|] eqn:Hp; [|done].
    destruct p as [| c0 chat0 m| | |]; try done.
    destruct res; intros [= <-]; [|apply keeps_respond].
    destruct (decide (rid' = rid)) as [->|Hne].
    + rewrite Hp in Hok. cbn in Hok. subst chat0.
      eapply keeps_trans; [|by apply keeps_pending_ok].
      apply keeps_emit. intros; by simplify_eq.
    + eapply keeps_trans; [|by apply keeps_pending_other].
      apply keeps_emit. intros; by simplify_eq.
  - unfold send_done. destruct (pending w !! rid') as [p|] eqn:Hp; [|done].
    destruct p as [| |c0 chat0 media|ok|]; try done;
      destruct res; intros [= <-]; try apply keeps_respond.
    destruct (decide (rid' = rid)) as [->|Hne].
    + rewrite Hp in Hok. cbn in Hok. subst chat0.
      eapply keeps_trans; [|by apply keeps_pending_ok].
      apply keeps_emit. intros; by simplify_eq.
    + eapply keeps_trans; [|by apply keeps_pending_other].
      apply keeps_emit. intros; by simplify_eq.
  - unfold qr_done. destruct (pending w !! rid') as [[]|]; try done.
    destruct res; intros [= <-]; apply keeps_respond.
  - destruct (may_create p w); [|done]. intros [= <-]. by apply keeps_quiet.
Qed.

Lemma keeps_run es : ∀ w w',
  bound_to rid chat w → run w es = Done w' → keeps rid chat w w'.
Proof.
  induction es as [|e es IH]; intros w w' Hb; cbn [run].
  - intros [= <-]. apply keeps_refl.
  - destruct (step w e) as [w1| |] eqn:Hstep; try done. intros Hrun.
    pose proof (keeps_step w e w1 Hb Hstep) as Hk.
    eapply keeps_trans; [exact Hk|]. apply IH; [|done].
    destruct Hb as [Hlt Hok]. destruct Hk as (Hn & Hp & _).
    split; [lia|auto].
Qed.

End Keeps.

(** ** The chat id is the digits of [number] *)

(** X2: the chat id a send handler passes to the backend is the digits of
    [number] followed by "@c.us", and nothing else of [number] is used. With
    a ready session and a number of at least 10 digits: two requests that
    differ only in the formatting of the number have the same effect; the
    sends logged when the request is handled go to that chat id; and so does
    every send made for the request afterwards, whatever events follow (for
    send-pdf-url both sends come after the download). *)
Theorem X2_number_formatting_irrelevant :
  ∀ (w : World) (userId : JValue) (u n1 n2 : string) (s : Session)
    (req : SendReq),
    key_of userId = Some u →
    sessions w !! u = Some s → ready s = true →
    required_ok userId (set_number (JStr n1) req) = true →
    strip_non_digits n1 = strip_non_digits n2 →
    (10 ≤ String.length (strip_non_digits n1))%nat →
    step w (Http (Send userId (set_number (JStr n1) req)))
    = step w (Http (Send userId (set_number (JStr n2) req)))
    ∧ (∀ rid c chatId content caption,
         ESend rid c chatId content caption
           ∈ sends (world_of (step w (Http (Send userId
                                             (set_number (JStr n1) req))))) →
         ESend rid c chatId content caption ∈ sends w
         ∨ chatId = (strip_non_digits n1 ++ "@c.us")%string)
    ∧ (∀ (es : list Event) (w' : World),
         run w (Http (Send userId (set_number (JStr n1) req)) :: es)
         = Done w' →
         ∃ new, sends w' = sends w ++ new
                ∧ ∀ c chatId content caption,
                    ESend (nextReq w) c chatId content caption ∈ new →
                    chatId = (strip_non_digits n1 ++ "@c.us")%string).
Proof.
  intros w userId u n1 n2 s req Hk Hs Hr Hreq Heq Hlen.
  assert (Hlen2 : (10 ≤ String.length (strip_non_digits n2))%nat)
    by by rewrite <- Heq.
  pose proof (required_ok_set_number userId n1 n2 req
                (truthy_of_digits n2 Hlen2) Hreq) as Hreq2.
  rewrite (http_send_ready w userId u s _ Hk Hs Hr Hreq2).
  pose proof (http_send_ready w userId u s _ Hk Hs Hr Hreq) as Hstep.
  rewrite proceed_set_number in Hstep by done.
  rewrite proceed_set_number by done. rewrite <- Heq.
  split; [by rewrite Hstep|]. split.
  - intros rid c chatId content caption. rewrite Hstep. cbn [world_of].
    destruct req; cbn zeta; unfold sends; cbn [log set_pending emit];
      rewrite omap_app; cbn [omap option_bind mbind];
      rewrite ?app_nil_r; try (by left);
      intros [Hin|Hin%list_elem_of_singleton]%elem_of_app;
      try (by left); right; by inversion Hin.
  - intros es w' Hrun. rewrite (run_cons_done _ _ _ _ Hstep) in Hrun.
    change (strip_non_digits n1 ++ "@c.us")%string
      with (strip_non_digits n1 ++ chat_suffix)%string.
    set (chat := (strip_non_digits n1 ++ chat_suffix)%string) in *.
    set (rid := nextReq w) in *.
    cbn zeta in Hrun.
    match type of Hrun with run ?x es = _ => set (w1 := x) in * end.
    assert (H1 : keeps rid chat w w1 ∧ bound_to rid chat w1).
    { subst w1. split.
      - eapply keeps_trans; [apply (keeps_quiet _ _ w (bump_req w));
                              [done|cbn; lia|done]|].
        destruct req;
          (eapply keeps_trans; [|by apply keeps_pending_ok]);
          apply keeps_emit; intros; by simplify_eq.
      - split; [destruct req; cbn; lia|].
        destruct req; cbn; by rewrite lookup_insert_eq. }
    destruct H1 as [Hk1 Hb1].
    destruct (keeps_trans rid chat _ _ _ Hk1 (keeps_run rid chat es _ _ Hb1 Hrun))
      as (_ & _ & new & Hnew & Hto).
    exists new. split; [done|]. intros c chatId content caption Hin.
    by eapply Hto.
Qed.

Lemma X2_number_formatting_irrelevant_witness :
  strip_non_digits "+91 98765 43210" = "919876543210"%string
  ∧ step ready_world
      (Http (Send (JStr alice)
               (SendPdfUrl (JStr "+91 98765 43210") (JStr "hi")
                  (JStr "https://example.org/a.pdf"))))
    = step ready_world
        (Http (Send (JStr alice)
                 (SendPdfUrl (JStr "919876543210") (JStr "hi")
                    (JStr "https://example.org/a.pdf")))).
Proof.
  split; [vm_compute; reflexivity|].
  destruct (X2_number_formatting_irrelevant ready_world (JStr alice) alice
              "+91 98765 43210" "919876543210"
              (mkSession 0%nat true None false None)
              (SendPdfUrl JNull (JStr "hi") (JStr "https://example.org/a.pdf")))
    as [Hsame _].
  - reflexivity.
  - vm_compute; reflexivity.
  - reflexivity.
  - reflexivity.
  - vm_compute; reflexivity.
  - vm_compute; lia.
  - exact Hsame.
Defined.
